(** * Dropbox token lifecycle of the campaign-asset backend

    A shallow embedding of the credential-refresh path of the backend:
    [DropboxService.isTokenExpired], [DropboxService.refreshAccessToken] and
    [DropboxService.ensureValidToken] (backend/services/dropboxService.js),
    [Account.find] and [Account.update] (backend/models/Account.js), and the
    browser-side copies of the staleness predicate.

    Asynchronous functions are modelled in a state-and-exception monad over a
    [World] made of the wall clock, the [accounts] table and the log of
    requests posted to the OAuth token endpoint.  A thrown JavaScript error
    keeps whatever the world has become (nothing is rolled back).  Console
    output is not modelled. *)

From Stdlib Require Import ZArith String Ascii List Bool Lia.
From stdpp Require Import base list gmap strings.
Import ListNotations.
Local Open Scope string_scope.
Local Open Scope Z_scope.

(** ** JavaScript values used by the token code *)

Module Js.

(** A token field of an account is [null] or a string. *)
Definition truthy (v : option string) : bool :=
  match v with
  | None => false
  | Some s => negb (String.eqb s "")
  end.

(** [a || b] on such values. *)
Definition or_else (a b : option string) : option string :=
  if truthy a then a else b.

(** An error object: [message], and, for a failed HTTP exchange that did
    get an answer, the [error_description] of [response.data].  An error
    made by [new Error(msg)] has no [response]; neither has the error of a
    request that never got an answer (network failure, timeout). *)
Record ErrorResponse := {
  status : Z;
  error_description : option string
}.

Record Exn := {
  message : string;
  response : option ErrorResponse
}.

Definition Error (msg : string) : Exn :=
  {| message := msg; response := None |}.

Inductive Outcome (A : Type) : Type :=
| Returned (a : A)
| Thrown (e : Exn).
Arguments Returned {A} a.
Arguments Thrown {A} e.

End Js.
Export Js.

(** ** The runtime's built-ins the code relies on

    [JSON.parse] / [JSON.stringify] on the value kept in [brandColors],
    [new Date(s)] on a string ([None] stands for an Invalid Date, whose time
    value is NaN) and the text [Date.prototype.toISOString] gives for a time
    value in milliseconds since the epoch.  What [toISOString] does on an
    Invalid Date is [Date_toISOString] below. *)

Class JsRuntime := {
  JSON_value : Type;
  JSON_parse : string -> option JSON_value;
  JSON_stringify : JSON_value -> string;
  Date_parse : string -> option Z;
  toISOString : Z -> string
}.

(** ** A concrete runtime: ISO-8601 time stamps in UTC *)

Module Iso8601.

Definition digit (n : Z) : ascii := ascii_of_nat (48 + Z.to_nat (n mod 10)).

Fixpoint digits (width : nat) (n : Z) (acc : string) : string :=
  match width with
  | O => acc
  | S w => digits w (n / 10) (String (digit n) acc)
  end.

Definition pad (width : nat) (n : Z) : string := digits width n "".

(** Day number since 1970-01-01 to (year, month, day). *)
Definition civil_from_days (z : Z) : Z * Z * Z :=
  let z := z + 719468 in
  let era := z / 146097 in
  let doe := z - era * 146097 in
  let yoe := (doe - doe / 1460 + doe / 36524 - doe / 146096) / 365 in
  let doy := doe - (365 * yoe + yoe / 4 - yoe / 100) in
  let mp := (5 * doy + 2) / 153 in
  let d := doy - (153 * mp + 2) / 5 + 1 in
  let m := if mp <? 10 then mp + 3 else mp - 9 in
  let y := yoe + era * 400 in
  (if m <=? 2 then y + 1 else y, m, d).

Definition days_from_civil (y m d : Z) : Z :=
  let y := if m <=? 2 then y - 1 else y in
  let era := y / 400 in
  let yoe := y - era * 400 in
  let doy := (153 * (if 2 <? m then m - 3 else m + 9) + 2) / 5 + d - 1 in
  let doe := yoe * 365 + yoe / 4 - yoe / 100 + doy in
  era * 146097 + doe - 719468.

Definition format (t : Z) : string :=
  let '(y, m, d) := civil_from_days (t / 86400000) in
  let ms := t mod 86400000 in
  pad 4 y ++ "-" ++ pad 2 m ++ "-" ++ pad 2 d ++ "T"
    ++ pad 2 (ms / 3600000) ++ ":" ++ pad 2 (ms / 60000 mod 60) ++ ":"
    ++ pad 2 (ms / 1000 mod 60) ++ "." ++ pad 3 (ms mod 1000) ++ "Z".

Definition digit_value (c : ascii) : option Z :=
  let n := Z.of_nat (nat_of_ascii c) in
  if (48 <=? n) && (n <=? 57) then Some (n - 48) else None.

Fixpoint number (s : string) (acc : Z) : option Z :=
  match s with
  | EmptyString => Some acc
  | String c rest =>
      match digit_value c with
      | Some v => number rest (10 * acc + v)
      | None => None
      end
  end.

Definition field (s : string) (off len : nat) : option Z :=
  let part := substring off len s in
  if Nat.eqb (String.length part) len then number part 0 else None.

Definition sep (s : string) (i : nat) (c : ascii) : bool :=
  match String.get i s with
  | Some c' => Ascii.eqb c c'
  | None => false
  end.

(** Reads the 24-character form [YYYY-MM-DDTHH:mm:ss.sssZ]. *)
Definition parse (s : string) : option Z :=
  if Nat.eqb (String.length s) 24
     && sep s 4 "-" && sep s 7 "-" && sep s 10 "T"
     && sep s 13 ":" && sep s 16 ":" && sep s 19 "." && sep s 23 "Z"
  then
    match field s 0 4, field s 5 2, field s 8 2,
          field s 11 2, field s 14 2, field s 17 2, field s 20 3 with
    | Some y, Some m, Some d, Some h, Some mi, Some sec, Some ms =>
        if (1 <=? m) && (m <=? 12) && (1 <=? d) && (d <=? 31)
           && (h <=? 23) && (mi <=? 59) && (sec <=? 59)
        then Some (days_from_civil y m d * 86400000
                   + h * 3600000 + mi * 60000 + sec * 1000 + ms)
        else None
    | _, _, _, _, _, _, _ => None
    end
  else None.

End Iso8601.

(** ** A concrete runtime: the brand colours of the settings form

    The two values the sample runs store in [brandColors]: the empty object
    and one palette, with the text [JSON.stringify] gives for each. *)

Module SampleJson.

Inductive value :=
| EmptyObject
| BrandPalette.

Definition quoted (s : string) : string :=
  String (ascii_of_nat 34) (s ++ String (ascii_of_nat 34) "").

Definition palette_text : string :=
  "{" ++ quoted "primary" ++ ":" ++ quoted "#112233" ++ ","
      ++ quoted "secondary" ++ ":" ++ quoted "#445566" ++ ","
      ++ quoted "accent" ++ ":" ++ quoted "#778899" ++ "}".

Definition stringify (v : value) : string :=
  match v with
  | EmptyObject => "{}"
  | BrandPalette => palette_text
  end.

Definition parse (s : string) : option value :=
  if String.eqb s "{}" then Some EmptyObject
  else if String.eqb s palette_text then Some BrandPalette
  else None.

End SampleJson.

Definition sample_runtime : JsRuntime := {|
  JSON_value := SampleJson.value;
  JSON_parse := SampleJson.parse;
  JSON_stringify := SampleJson.stringify;
  Date_parse := Iso8601.parse;
  toISOString := Iso8601.format
|}.

(** ** The world: clock, accounts table, token endpoint *)

(** A row of the [accounts] table (database/database.js): every column is
    TEXT, [brandColors], [createdAt] and [updatedAt] are NOT NULL. *)
Module Row.
Record t := {
  id : string;
  dropboxAccessToken : option string;
  dropboxRefreshToken : option string;
  dropboxTokenExpiresAt : option string;
  brandLogo : option string;
  brandColors : string;
  createdAt : string;
  updatedAt : string
}.
End Row.

(** The form posted to https://api.dropboxapi.com/oauth2/token. *)
Module Request.
Record t := {
  refresh_token : option string;
  grant_type : string;
  client_id : option string;
  client_secret : option string
}.
End Request.

(** [response.data] of a successful exchange: [access_token] is there,
    [refresh_token] only when the provider rotates it.  [expires_in] is a
    number of seconds; it is [None] when the reply has none, which makes
    [expires_in * 1000] NaN. *)
Module ResponseData.
Record t := {
  access_token : string;
  refresh_token : option string;
  token_type : option string;
  expires_in : option Z;
  scope : option string
}.
End ResponseData.

(** What a post to the token endpoint comes back with, and after how many
    milliseconds: the error [axios] rejects with, or the response data. *)
Record HttpReply := {
  elapsed : N;
  result : Exn + ResponseData.t
}.

(** The token endpoint: the reply to the [k]-th request ever posted. *)
Definition Network := nat -> Request.t -> HttpReply.

Record World := {
  now : Z;
  accounts : list Row.t;
  posts : list Request.t
}.

(** ** Computations that read the clock, touch the table, post and throw *)

Definition M (A : Type) : Type := World -> Outcome A * World.

Definition ret {A} (a : A) : M A := fun w => (Returned a, w).

Definition throw {A} (e : Exn) : M A := fun w => (Thrown e, w).

Definition bind {A B} (c : M A) (k : A -> M B) : M B :=
  fun w =>
    match c w with
    | (Returned a, w') => k a w'
    | (Thrown e, w') => (Thrown e, w')
    end.

Definition try_catch {A} (c : M A) (handler : Exn -> M A) : M A :=
  fun w =>
    match c w with
    | (Returned a, w') => (Returned a, w')
    | (Thrown e, w') => handler e w'
    end.

Notation "'let*' x := c 'in' k" := (bind c (fun x => k))
  (at level 10, x name, c at level 100, k at level 200).

(** [Date.now()] *)
Definition Date_now : M Z := fun w => (Returned (now w), w).

(** [new Date(v)] for [v] a string or [null]: its time value, [None] when
    the date is invalid. *)
Definition new_Date `{JsRuntime} (v : option string) : option Z :=
  match v with
  | Some s => Date_parse s
  | None => Some 0
  end.

(** The time values a [Date] can hold: 8.64e15 milliseconds on either side
    of the epoch. *)
Definition max_time : Z := 8640000000000000.

(** [TimeClip] of the language: a time value out of range is NaN. *)
Definition TimeClip (v : Z) : option Z :=
  if (- max_time <=? v) && (v <=? max_time) then Some v else None.

(** [new Date(v)] for a number [v], [None] being NaN. *)
Definition Date_of_number (v : option Z) : option Z :=
  match v with
  | Some v => TimeClip v
  | None => None
  end.

(** [a <= b] on two dates: false as soon as one of them is invalid. *)
Definition date_le (a b : option Z) : bool :=
  match a, b with
  | Some x, Some y => x <=? y
  | _, _ => false
  end.

(** The error [toISOString] throws on an Invalid Date. *)
Definition RangeError : Exn := Error "Invalid time value".

(** [date.toISOString()] *)
Definition Date_toISOString `{JsRuntime} (date : option Z) : M string :=
  match date with
  | Some t => ret (toISOString t)
  | None => throw RangeError
  end.

(** [axios.post] to the token endpoint: the request is logged, the clock
    moves on by the time the exchange took. *)
Definition axios_post (net : Network) (req : Request.t) : M ResponseData.t :=
  fun w =>
    let reply := net (length (posts w)) req in
    let w' := {| now := now w + Z.of_N (elapsed reply);
                 accounts := accounts w;
                 posts := posts w ++ [req] |} in
    match result reply with
    | inl e => (Thrown e, w')
    | inr data => (Returned data, w')
    end.

(** ** backend/models/Account.js *)

Module Account.

(** The [updates] argument of [update]: a field left out is [undefined]
    ([None]); a field given is [null] or a value. *)
Module Updates.
Record object (J : Type) := {
  dropboxAccessToken : option (option string);
  dropboxRefreshToken : option (option string);
  dropboxTokenExpiresAt : option (option string);
  brandLogo : option (option string);
  brandColors : option J
}.
Arguments Build_object {J}.
Arguments dropboxAccessToken {J}.
Arguments dropboxRefreshToken {J}.
Arguments dropboxTokenExpiresAt {J}.
Arguments brandLogo {J}.
Arguments brandColors {J}.
Definition t `{JsRuntime} : Type := object JSON_value.
End Updates.

(** The [updatedData] object of [update]. *)
Module UpdatedData.
Record object (J : Type) := {
  dropboxAccessToken : option string;
  dropboxRefreshToken : option string;
  dropboxTokenExpiresAt : option string;
  brandLogo : option string;
  brandColors : J;
  updatedAt : string
}.
Arguments Build_object {J}.
Arguments dropboxAccessToken {J}.
Arguments dropboxRefreshToken {J}.
Arguments dropboxTokenExpiresAt {J}.
Arguments brandLogo {J}.
Arguments brandColors {J}.
Arguments updatedAt {J}.
Definition t `{JsRuntime} : Type := object JSON_value.
End UpdatedData.

(** An [Account] instance; [J] is the type of the parsed [brandColors]. *)
Record object (J : Type) := {
  id : string;
  dropboxAccessToken : option string;
  dropboxRefreshToken : option string;
  dropboxTokenExpiresAt : option string;
  brandLogo : option string;
  brandColors : J;
  createdAt : string;
  updatedAt : string
}.
Arguments Build_object {J}.
Arguments id {J}.
Arguments dropboxAccessToken {J}.
Arguments dropboxRefreshToken {J}.
Arguments dropboxTokenExpiresAt {J}.
Arguments brandLogo {J}.
Arguments brandColors {J}.
Arguments createdAt {J}.
Arguments updatedAt {J}.

Section WithRuntime.
Context `{JsRuntime}.

Definition t : Type := object JSON_value.

(** The error [JSON.parse] throws on text that is not JSON. *)
Definition SyntaxError : Exn := Error "Unexpected token in JSON".

(** [SELECT * FROM accounts LIMIT 1], then the constructor. *)
Definition find : M (option t) :=
  fun w =>
    match accounts w with
    | [] => (Returned None, w)
    | row :: _ =>
        let text := if String.eqb (Row.brandColors row) ""
                    then "{}" else Row.brandColors row in
        match JSON_parse text with
        | None => (Thrown SyntaxError, w)
        | Some colors =>
            (Returned (Some {|
               id := Row.id row;
               dropboxAccessToken := Row.dropboxAccessToken row;
               dropboxRefreshToken := Row.dropboxRefreshToken row;
               dropboxTokenExpiresAt := Row.dropboxTokenExpiresAt row;
               brandLogo := Row.brandLogo row;
               brandColors := colors;
               createdAt := Row.createdAt row;
               updatedAt := Row.updatedAt row |}), w)
        end
    end.

(** [UPDATE accounts SET ... WHERE id = ?] *)
Definition set_row (d : UpdatedData.t) (row : Row.t) : Row.t :=
  {| Row.id := Row.id row;
     Row.dropboxAccessToken := UpdatedData.dropboxAccessToken d;
     Row.dropboxRefreshToken := UpdatedData.dropboxRefreshToken d;
     Row.dropboxTokenExpiresAt := UpdatedData.dropboxTokenExpiresAt d;
     Row.brandLogo := UpdatedData.brandLogo d;
     Row.brandColors := JSON_stringify (UpdatedData.brandColors d);
     Row.createdAt := Row.createdAt row;
     Row.updatedAt := UpdatedData.updatedAt d |}.

Definition run_update (d : UpdatedData.t) (key : string) : M unit :=
  fun w =>
    (Returned tt,
     {| now := now w;
        accounts := map (fun row => if String.eqb (Row.id row) key
                                    then set_row d row else row)
                        (accounts w);
        posts := posts w |}).

(** [Object.assign(this, updatedData)] *)
Definition assign (this : t) (d : UpdatedData.t) : t :=
  {| id := id this;
     dropboxAccessToken := UpdatedData.dropboxAccessToken d;
     dropboxRefreshToken := UpdatedData.dropboxRefreshToken d;
     dropboxTokenExpiresAt := UpdatedData.dropboxTokenExpiresAt d;
     brandLogo := UpdatedData.brandLogo d;
     brandColors := UpdatedData.brandColors d;
     createdAt := createdAt this;
     updatedAt := UpdatedData.updatedAt d |}.

(** [new Date()] holds the time of the clock, which is never invalid. *)
Definition update (this : t) (updates : Updates.t) : M t :=
  let* ms := Date_now in
  let now := toISOString ms in
  let updatedData := {|
    UpdatedData.dropboxAccessToken :=
      default (dropboxAccessToken this) (Updates.dropboxAccessToken updates);
    UpdatedData.dropboxRefreshToken :=
      default (dropboxRefreshToken this) (Updates.dropboxRefreshToken updates);
    UpdatedData.dropboxTokenExpiresAt :=
      default (dropboxTokenExpiresAt this) (Updates.dropboxTokenExpiresAt updates);
    UpdatedData.brandLogo :=
      default (brandLogo this) (Updates.brandLogo updates);
    UpdatedData.brandColors :=
      default (brandColors this) (Updates.brandColors updates);
    UpdatedData.updatedAt := now |} in
  try_catch
    (let* _ := run_update updatedData (id this) in
     ret (assign this updatedData))
    (fun error =>
       throw (Error ("Failed to update account: " ++ message error))).

End WithRuntime.

End Account.

(** ** backend/services/dropboxService.js *)

(** The object [refreshAccessToken] returns. *)
Module RefreshResult.
Record t := {
  success : bool;
  access_token : string;
  refresh_token : option string;
  token_type : option string;
  expires_in : option Z;
  expires_at : string;
  scope : option string
}.
End RefreshResult.

Module DropboxService.

(** The fields the constructor reads from the environment; each is [null]
    when the OAuth credentials are not configured. *)
Record t := {
  clientId : option string;
  clientSecret : option string
}.

Definition isAvailable (this : t) : bool :=
  match clientId this, clientSecret this with
  | Some _, Some _ => true
  | _, _ => false
  end.

(** [error.response?.data?.error_description || error.message] *)
Definition describe (error : Exn) : string :=
  match response error with
  | Some r =>
      match error_description r with
      | Some d => if String.eqb d "" then message error else d
      | None => message error
      end
  | None => message error
  end.

Section WithRuntime.
Context `{JsRuntime}.
Variable net : Network.

Definition refreshAccessToken (this : t) (refreshToken : option string)
  : M RefreshResult.t :=
  if negb (isAvailable this) then
    throw (Error "Dropbox OAuth credentials not configured")
  else if negb (truthy refreshToken) then
    throw (Error "Refresh token is required")
  else
    try_catch
      (let* data := axios_post net {|
             Request.refresh_token := refreshToken;
             Request.grant_type := "refresh_token";
             Request.client_id := clientId this;
             Request.client_secret := clientSecret this |} in
       let* ms := Date_now in
       let* expiresAt :=
         Date_toISOString
           (Date_of_number
              (option_map (fun seconds => ms + seconds * 1000)
                          (ResponseData.expires_in data))) in
       ret {| RefreshResult.success := true;
              RefreshResult.access_token := ResponseData.access_token data;
              RefreshResult.refresh_token :=
                or_else (ResponseData.refresh_token data) refreshToken;
              RefreshResult.token_type := ResponseData.token_type data;
              RefreshResult.expires_in := ResponseData.expires_in data;
              RefreshResult.expires_at := expiresAt;
              RefreshResult.scope := ResponseData.scope data |})
      (fun error =>
         throw (Error ("Failed to refresh access token: " ++ describe error))).

(** [bufferMinutes] is [None] when the caller leaves it out; its default
    is 5. *)
Definition isTokenExpired (expiresAt : option string)
  (bufferMinutes : option Z) : M bool :=
  let bufferMinutes := default 5 bufferMinutes in
  if negb (truthy expiresAt) then ret true
  else
    let expirationTime := new_Date expiresAt in
    let* ms := Date_now in
    let bufferTime := TimeClip (ms + bufferMinutes * 60 * 1000) in
    ret (date_le expirationTime bufferTime).

(** [account] is [None] when the caller passes [null]. *)
Definition ensureValidToken (this : t) (account : option Account.t)
  : M Account.t :=
  match account with
  | None => throw (Error "No access token available")
  | Some account =>
      if negb (truthy (Account.dropboxAccessToken account)) then
        throw (Error "No access token available")
      else
        let* expired :=
          isTokenExpired (Account.dropboxTokenExpiresAt account) None in
        if expired then
          if negb (truthy (Account.dropboxRefreshToken account)) then
            throw (Error
              "Access token expired and no refresh token available. Please re-authenticate.")
          else
            try_catch
              (let* refreshResult :=
                 refreshAccessToken this (Account.dropboxRefreshToken account) in
               let* updatedAccount :=
                 Account.update account {|
                   Account.Updates.dropboxAccessToken :=
                     Some (Some (RefreshResult.access_token refreshResult));
                   Account.Updates.dropboxRefreshToken :=
                     Some (RefreshResult.refresh_token refreshResult);
                   Account.Updates.dropboxTokenExpiresAt :=
                     Some (Some (RefreshResult.expires_at refreshResult));
                   Account.Updates.brandLogo := None;
                   Account.Updates.brandColors := None |} in
               ret updatedAccount)
              (fun error =>
                 throw (Error ("Token refresh failed: " ++ message error)))
        else ret account
  end.

End WithRuntime.

End DropboxService.

(** ** The browser-side copies of the staleness predicate *)

(** frontend/src/services/dropboxService.ts *)
Module FrontendDropboxService.
Section WithRuntime.
Context `{JsRuntime}.

Definition isTokenExpired (expiresAt : option string)
  (bufferMinutes : option Z) : M bool :=
  let bufferMinutes := default 5 bufferMinutes in
  if negb (truthy expiresAt) then ret true
  else
    let expirationTime := new_Date expiresAt in
    let* ms := Date_now in
    let bufferTime := TimeClip (ms + bufferMinutes * 60 * 1000) in
    ret (date_le expirationTime bufferTime).

End WithRuntime.
End FrontendDropboxService.

(** frontend/src/components/CampaignBriefForm.tsx *)
Module CampaignBriefForm.
Section WithRuntime.
Context `{JsRuntime}.

Definition isTokenExpired (expiresAt : option string) : M bool :=
  if negb (truthy expiresAt) then ret true
  else
    let expirationTime := new_Date expiresAt in
    let* now := Date_now in
    ret (date_le expirationTime (Some now)).

Definition isTokenExpiringSoon (expiresAt : option string)
  (bufferMinutes : option Z) : M bool :=
  let bufferMinutes := default 5 bufferMinutes in
  if negb (truthy expiresAt) then ret true
  else
    let expirationTime := new_Date expiresAt in
    let* ms := Date_now in
    let bufferTime := TimeClip (ms + bufferMinutes * 60 * 1000) in
    ret (date_le expirationTime bufferTime).

End WithRuntime.
End CampaignBriefForm.

(** ** Several callers on the event loop

    An [async] function runs without interruption up to its next pending
    [await]; other callers run while it waits.  The only [await] of
    [ensureValidToken] that waits for something outside the process is the
    post to the token endpoint ([Account.update] has no [await] of its own
    and writes at once).  A call is therefore split where that post is
    pending: [start] is the part that runs when the function is called,
    [resume] the part that runs when the reply is in.  Every call site loads
    its own account object with [Account.find], so callers share the table,
    not the object. *)

Module EventLoop.
(** A caller: not run yet, waiting for the reply to its request (the
    [k]-th ever posted, at time [issued]), or done.  [J] is the type of the
    parsed [brandColors]. *)
Inductive Caller (J : Type) :=
| Called (account : option (Account.object J))
| AwaitingPost (account : Account.object J) (req : Request.t) (k : nat)
               (issued : Z)
| Settled (r : Outcome (Account.object J)).
Arguments Called {J}.
Arguments AwaitingPost {J}.
Arguments Settled {J}.

Record Callers (J : Type) := {
  world : World;
  tasks : list (Caller J)
}.
Arguments Build_Callers {J}.
Arguments world {J}.
Arguments tasks {J}.

Section WithRuntime.
Context `{JsRuntime}.
Variable net : Network.
Variable this : DropboxService.t.

Definition Task : Type := Caller JSON_value.
Definition Pool : Type := Callers JSON_value.

(** [refreshAccessToken] from the reply on. *)
Definition refreshed (refreshToken : option string) (data : ResponseData.t)
  : M RefreshResult.t :=
  let* ms := Date_now in
  let* expiresAt :=
    Date_toISOString
      (Date_of_number
         (option_map (fun seconds => ms + seconds * 1000)
                     (ResponseData.expires_in data))) in
  ret {| RefreshResult.success := true;
         RefreshResult.access_token := ResponseData.access_token data;
         RefreshResult.refresh_token :=
           or_else (ResponseData.refresh_token data) refreshToken;
         RefreshResult.token_type := ResponseData.token_type data;
         RefreshResult.expires_in := ResponseData.expires_in data;
         RefreshResult.expires_at := expiresAt;
         RefreshResult.scope := ResponseData.scope data |}.

(** [ensureValidToken] from the refresh result on. *)
Definition persist (account : Account.t) (refreshResult : RefreshResult.t)
  : M Account.t :=
  let* updatedAccount :=
    Account.update account {|
      Account.Updates.dropboxAccessToken :=
        Some (Some (RefreshResult.access_token refreshResult));
      Account.Updates.dropboxRefreshToken :=
        Some (RefreshResult.refresh_token refreshResult);
      Account.Updates.dropboxTokenExpiresAt :=
        Some (Some (RefreshResult.expires_at refreshResult));
      Account.Updates.brandLogo := None;
      Account.Updates.brandColors := None |} in
  ret updatedAccount.

Definition start (account : option Account.t) (w : World) : Task * World :=
  match account with
  | None => (Settled (Thrown (Error "No access token available")), w)
  | Some account =>
      if negb (truthy (Account.dropboxAccessToken account)) then
        (Settled (Thrown (Error "No access token available")), w)
      else
        match DropboxService.isTokenExpired
                (Account.dropboxTokenExpiresAt account) None w with
        | (Thrown e, w1) => (Settled (Thrown e), w1)
        | (Returned false, w1) => (Settled (Returned account), w1)
        | (Returned true, w1) =>
            if negb (truthy (Account.dropboxRefreshToken account)) then
              (Settled (Thrown (Error
                 "Access token expired and no refresh token available. Please re-authenticate.")),
               w1)
            else if negb (DropboxService.isAvailable this) then
              (Settled (Thrown (Error
                 ("Token refresh failed: "
                    ++ "Dropbox OAuth credentials not configured"))),
               w1)
            else
              let req := {|
                Request.refresh_token := Account.dropboxRefreshToken account;
                Request.grant_type := "refresh_token";
                Request.client_id := DropboxService.clientId this;
                Request.client_secret := DropboxService.clientSecret this |} in
              (AwaitingPost account req (length (posts w1)) (now w1),
               {| now := now w1;
                  accounts := accounts w1;
                  posts := posts w1 ++ [req] |})
        end
  end.

(** The reply to request [k], posted at time [issued], is in: the clock
    shows at least the time the exchange took. *)
Definition resume (account : Account.t) (req : Request.t) (k : nat)
  (issued : Z) (w : World) : Outcome Account.t * World :=
  let reply := net k req in
  let w1 := {| now := Z.max (now w) (issued + Z.of_N (elapsed reply));
               accounts := accounts w;
               posts := posts w |} in
  match result reply with
  | inl e =>
      (Thrown (Error
         ("Token refresh failed: "
            ++ ("Failed to refresh access token: "
                  ++ DropboxService.describe e))),
       w1)
  | inr data =>
      try_catch
        (let* refreshResult :=
           try_catch
             (refreshed (Request.refresh_token req) data)
             (fun error =>
                throw (Error ("Failed to refresh access token: "
                                ++ DropboxService.describe error))) in
         persist account refreshResult)
        (fun error =>
           throw (Error ("Token refresh failed: " ++ message error)))
        w1
  end.

(** The event loop lets caller [i] run its next part. *)
Definition step (p : Pool) (i : nat) : Pool :=
  match tasks p !! i with
  | Some (Called account) =>
      let '(t, w) := start account (world p) in
      {| world := w; tasks := <[i := t]> (tasks p) |}
  | Some (AwaitingPost account req k issued) =>
      let '(r, w) := resume account req k issued (world p) in
      {| world := w; tasks := <[i := Settled r]> (tasks p) |}
  | _ => p
  end.

Definition run (schedule : list nat) (p : Pool) : Pool :=
  fold_left step schedule p.

Definition spawn (callers : list (option Account.t)) (w : World) : Pool :=
  {| world := w; tasks := map Called callers |}.

Definition is_called (t : Task) : bool :=
  match t with
  | Called _ => true
  | _ => false
  end.

(** The callers that have not run yet. *)
Definition waiting (ts : list Task) : nat :=
  length (List.filter is_called ts).

(** The access token a caller has got back, once it has got one. *)
Definition received (t : Task) : option (option string) :=
  match t with
  | Settled (Returned account) => Some (Account.dropboxAccessToken account)
  | _ => None
  end.

End WithRuntime.
End EventLoop.

(** ** The staleness buffer and the claims' vocabulary *)

(** The default buffer of [isTokenExpired], in milliseconds. *)
Definition buffer_ms : Z := 5 * 60 * 1000.

Section Vocabulary.
Context `{JsRuntime}.

(** [expiresAt] is set and is a date no later than [deadline], which is
    itself a time a [Date] can hold. *)
Definition expires_by (account : Account.t) (deadline : Z) : Prop :=
  exists s t,
    Account.dropboxTokenExpiresAt account = Some s
    /\ Date_parse s = Some t /\ t <= deadline
    /\ - max_time <= deadline <= max_time.

(** [expiresAt] is set and is a date strictly later than [deadline]. *)
Definition expires_after (account : Account.t) (deadline : Z) : Prop :=
  exists s t,
    Account.dropboxTokenExpiresAt account = Some s
    /\ Date_parse s = Some t /\ deadline < t.

(** A credential is stale at [clock] when it has no access token, or its
    expiry is unknown, or its expiry falls within the buffer. *)
Definition stale (clock : Z) (account : Account.t) : Prop :=
  truthy (Account.dropboxAccessToken account) = false
  \/ truthy (Account.dropboxTokenExpiresAt account) = false
  \/ expires_by account (clock + buffer_ms).

(** The request [refreshAccessToken] posts for [account]. *)
Definition refresh_request (this : DropboxService.t) (account : Account.t)
  : Request.t :=
  {| Request.refresh_token := Account.dropboxRefreshToken account;
     Request.grant_type := "refresh_token";
     Request.client_id := DropboxService.clientId this;
     Request.client_secret := DropboxService.clientSecret this |}.

(** The world once [req] has been posted and answered by [reply]. *)
Definition after_post (w : World) (req : Request.t) (reply : HttpReply)
  : World :=
  {| now := now w + Z.of_N (elapsed reply);
     accounts := accounts w;
     posts := posts w ++ [req] |}.

(** The date [refreshAccessToken] makes of a reply that came back with
    [data] at time [arrived]: [Date.now() + expires_in * 1000]. *)
Definition new_expiry (arrived : Z) (data : ResponseData.t) : option Z :=
  Date_of_number
    (option_map (fun seconds => arrived + seconds * 1000)
                (ResponseData.expires_in data)).

(** What [Account.update] is left to write after an exchange that came
    back with [data] at time [arrived], the new expiry being [expiry]. *)
Definition refreshed_data (account : Account.t) (data : ResponseData.t)
  (arrived expiry : Z) : Account.UpdatedData.t :=
  {| Account.UpdatedData.dropboxAccessToken :=
       Some (ResponseData.access_token data);
     Account.UpdatedData.dropboxRefreshToken :=
       or_else (ResponseData.refresh_token data)
               (Account.dropboxRefreshToken account);
     Account.UpdatedData.dropboxTokenExpiresAt := Some (toISOString expiry);
     Account.UpdatedData.brandLogo := Account.brandLogo account;
     Account.UpdatedData.brandColors := Account.brandColors account;
     Account.UpdatedData.updatedAt := toISOString arrived |}.

(** The table after [UPDATE accounts SET ... WHERE id = key]. *)
Definition updated_table (d : Account.UpdatedData.t) (key : string)
  (table : list Row.t) : list Row.t :=
  map (fun row => if String.eqb (Row.id row) key
                  then Account.set_row d row else row) table.

(** The record kept in the table under [key]. *)
Definition stored (key : string) (w : World) : option Row.t :=
  List.find (fun row => String.eqb (Row.id row) key) (accounts w).

(** The table as [Account] keeps it: [id] is the primary key, and
    [brandColors] is only ever written as the output of [JSON.stringify]
    ([upsert] and [update] both bind [JSON.stringify(...)]). *)
Definition well_kept (table : list Row.t) : Prop :=
  List.NoDup (map Row.id table)
  /\ List.Forall (fun row => exists v, Row.brandColors row = JSON_stringify v)
                 table.

(** The columns a token refresh has no business with. *)
Definition frame (row : Row.t) : string * option string * string * string :=
  (Row.id row, Row.brandLogo row, Row.brandColors row, Row.createdAt row).

End Vocabulary.

(** ** Sample data *)

Module Sample.

#[local] Existing Instance sample_runtime.

Definition svc : DropboxService.t :=
  {| DropboxService.clientId := Some "app-key";
     DropboxService.clientSecret := Some "app-secret" |}.

(** 2025-01-01T00:00:00.000Z *)
Definition t0 : Z := 1735689600000.

Definition row (access refresh : option string) (expiresAt : option string)
  : Row.t :=
  {| Row.id := "default_account";
     Row.dropboxAccessToken := access;
     Row.dropboxRefreshToken := refresh;
     Row.dropboxTokenExpiresAt := expiresAt;
     Row.brandLogo := Some "https://www.dropbox.com/s/logo.png?dl=0&raw=1";
     Row.brandColors := SampleJson.palette_text;
     Row.createdAt := "2024-12-01T09:30:00.000Z";
     Row.updatedAt := "2024-12-31T23:00:00.000Z" |}.

Definition account (access refresh : option string)
  (expiresAt : option string) : Account.t :=
  {| Account.id := "default_account";
     Account.dropboxAccessToken := access;
     Account.dropboxRefreshToken := refresh;
     Account.dropboxTokenExpiresAt := expiresAt;
     Account.brandLogo := Some "https://www.dropbox.com/s/logo.png?dl=0&raw=1";
     Account.brandColors := SampleJson.BrandPalette;
     Account.createdAt := "2024-12-01T09:30:00.000Z";
     Account.updatedAt := "2024-12-31T23:00:00.000Z" |}.

(** Ten seconds before [t0], and one hour after it. *)
Definition past : option string := Some "2024-12-31T23:59:50.000Z".
Definition future : option string := Some "2025-01-01T01:00:00.000Z".

Definition world (r : Row.t) : World :=
  {| now := t0; accounts := [r]; posts := [] |}.

Definition data (access : string) (refresh : option string) : ResponseData.t :=
  {| ResponseData.access_token := access;
     ResponseData.refresh_token := refresh;
     ResponseData.token_type := Some "bearer";
     ResponseData.expires_in := Some 3600;
     ResponseData.scope := None |}.

(** The provider answers every request with access token [A2]. *)
Definition net_ok : Network :=
  fun _ _ => {| elapsed := 250; result := inr (data "A2" None) |}.

(** The provider rotates the refresh token. *)
Definition net_rotating : Network :=
  fun _ _ => {| elapsed := 250; result := inr (data "A2" (Some "R2")) |}.

(** The provider mints a new access token for every request. *)
Definition net_minting : Network :=
  fun k _ =>
    {| elapsed := 250;
       result := inr (data (match k with O => "A2" | _ => "A3" end) None) |}.

(** No answer within the time allowed. *)
Definition timeout : Exn :=
  {| message := "timeout of 10000ms exceeded"; response := None |}.

(** The provider turns the refresh token down. *)
Definition revoked : Exn :=
  {| message := "Request failed with status code 400";
     response := Some {| status := 400;
                         error_description :=
                           Some "refresh token is invalid or revoked" |} |}.

(** A rejection whose description reads like a transport failure. *)
Definition rejected : Exn :=
  {| message := "Request failed with status code 400";
     response := Some {| status := 400;
                         error_description :=
                           Some "timeout of 10000ms exceeded" |} |}.

Definition net_failing (e : Exn) : Network :=
  fun _ _ => {| elapsed := 10000; result := inl e |}.

(** Access token [A1], refresh token [R1], expired ten seconds ago. *)
Definition stale_row : Row.t := row (Some "A1") (Some "R1") past.
Definition stale_account : Account.t := account (Some "A1") (Some "R1") past.

(** Access token [A1], good for another hour. *)
Definition fresh_row : Row.t := row (Some "A1") (Some "R1") future.
Definition fresh_account : Account.t := account (Some "A1") (Some "R1") future.

(** Expired, and no refresh token. *)
Definition orphan_row : Row.t := row (Some "A1") None past.
Definition orphan_account : Account.t := account (Some "A1") None past.

(** A refresh token, but no access token. *)
Definition tokenless_row : Row.t := row None (Some "R1") past.
Definition tokenless_account : Account.t := account None (Some "R1") past.

(** Expired, with neither token. *)
Definition bare_row : Row.t := row None None past.
Definition bare_account : Account.t := account None None past.

(** Access token [A1], good for another seven minutes, and for another
    two. *)
Definition seven_minutes : option string := Some "2025-01-01T00:07:00.000Z".
Definition two_minutes : option string := Some "2025-01-01T00:02:00.000Z".
Definition lasting_row : Row.t := row (Some "A1") (Some "R1") seven_minutes.
Definition lasting_account : Account.t :=
  account (Some "A1") (Some "R1") seven_minutes.

(** The provider answers with a token that lasts [seconds]. *)
Definition net_lasting (seconds : option Z) : Network :=
  fun _ _ =>
    {| elapsed := 250;
       result := inr {| ResponseData.access_token := "A2";
                        ResponseData.refresh_token := None;
                        ResponseData.token_type := Some "bearer";
                        ResponseData.expires_in := seconds;
                        ResponseData.scope := None |} |}.

(** A life time that ends beyond the last date there is. *)
Definition endless : Z := 9007199254740.

(** Ten seconds before [t0]. *)
Definition t_past : Z := 1735689590000.

(** One hour after [t0]. *)
Definition t_future : Z := 1735693200000.

End Sample.

(** ** The rest of backend/models/Account.js *)

(** Two more built-ins: whether a parsed JSON value is truthy, and the empty
    object [{}]. *)
Class JsonObjects `{JsRuntime} := {
  JSON_truthy : JSON_value -> bool;
  JSON_empty_object : JSON_value
}.

(** Both sample values are objects, hence truthy. *)
Definition sample_objects : @JsonObjects sample_runtime :=
  @Build_JsonObjects sample_runtime (fun _ => true) SampleJson.EmptyObject.

Module Accounts.
Section WithRuntime.
Context `{JsonObjects}.

(** [v || null] on a field of [accountData]. *)
Definition or_null (v : option (option string)) : option string :=
  match v with
  | Some s => if truthy s then s else None
  | None => None
  end.

(** [accountData.brandColors || {}] *)
Definition or_empty_object (v : option JSON_value) : JSON_value :=
  match v with
  | Some colors => if JSON_truthy colors then colors else JSON_empty_object
  | None => JSON_empty_object
  end.

(** [INSERT INTO accounts ... VALUES (...)]: [id] is the primary key. *)
Definition run_insert (row : Row.t) : M unit :=
  fun w =>
    if existsb (fun other => String.eqb (Row.id other) (Row.id row)) (accounts w)
    then (Thrown (Error "UNIQUE constraint failed: accounts.id"), w)
    else (Returned tt,
          {| now := now w;
             accounts := accounts w ++ [row];
             posts := posts w |}).

(** [static async upsert(accountData)].  The result is [None] for [null].
    The last [Account.find()] is returned, not awaited, inside the [try]:
    what it throws is not caught there. *)
Definition upsert (accountData : Account.Updates.t) : M (option Account.t) :=
  let* ms := Date_now in
  let now := toISOString ms in
  let* existingAccount := Account.find in
  match existingAccount with
  | Some existingAccount =>
      let* updated := Account.update existingAccount accountData in
      ret (Some updated)
  | None =>
      let account := {|
        Row.id := "default_account";
        Row.dropboxAccessToken :=
          or_null (Account.Updates.dropboxAccessToken accountData);
        Row.dropboxRefreshToken :=
          or_null (Account.Updates.dropboxRefreshToken accountData);
        Row.dropboxTokenExpiresAt :=
          or_null (Account.Updates.dropboxTokenExpiresAt accountData);
        Row.brandLogo := or_null (Account.Updates.brandLogo accountData);
        Row.brandColors :=
          JSON_stringify
            (or_empty_object (Account.Updates.brandColors accountData));
        Row.createdAt := now;
        Row.updatedAt := now |} in
      let* _ :=
        try_catch
          (run_insert account)
          (fun error =>
             throw (Error ("Failed to create account: " ++ message error))) in
      Account.find
  end.

(** [DELETE FROM accounts WHERE id = ?] *)
Definition run_delete (key : string) : M unit :=
  fun w =>
    (Returned tt,
     {| now := now w;
        accounts := List.filter
                      (fun row => negb (String.eqb (Row.id row) key))
                      (accounts w);
        posts := posts w |}).

(** [async delete()] *)
Definition delete (this : Account.t) : M bool :=
  try_catch
    (let* _ := run_delete (Account.id this) in
     ret true)
    (fun error =>
       throw (Error ("Failed to delete account: " ++ message error))).

End WithRuntime.
End Accounts.

(** ** The callers of [ensureValidToken] in the server *)

Module Server.

(** The body of a reply of [POST /api/dropbox/refresh] that reports
    success. *)
Record Refreshed := {
  success : bool;
  access_token : option string;
  refresh_token : option string;
  expires_at : option string;
  message : string
}.

(** What a route answers: [res.json(body)], or
    [res.status(code).json({ error, details })]. *)
Inductive Reply (A : Type) :=
| Json (body : A)
| Failure (code : Z) (error : string) (details : option string).
Arguments Json {A}.
Arguments Failure {A}.

Section WithRuntime.
Context `{JsonObjects}.
Variable net : Network.
Variable dropboxService : DropboxService.t.

(** [getValidDropboxToken(accessTokenFromRequest = null)] *)
Definition getValidDropboxToken (accessTokenFromRequest : option string)
  : M (option string) :=
  try_catch
    (if truthy accessTokenFromRequest then ret accessTokenFromRequest
     else
       let* account := Account.find in
       match account with
       | None =>
           throw (Error
             "No Dropbox access token found. Please authenticate with Dropbox first.")
       | Some account =>
           if negb (truthy (Account.dropboxAccessToken account)) then
             throw (Error
               "No Dropbox access token found. Please authenticate with Dropbox first.")
           else
             let* validAccount :=
               DropboxService.ensureValidToken net dropboxService (Some account) in
             ret (Account.dropboxAccessToken validAccount)
       end)
    (fun error => throw error).

(** [app.get('/api/account', ...)]: the body is the account, or [null]. *)
Definition get_api_account : M (Reply (option Account.t)) :=
  try_catch
    (let* account := Account.find in
     match account with
     | None => ret (Json None)
     | Some account =>
         if truthy (Account.dropboxAccessToken account) then
           try_catch
             (let* validAccount :=
                DropboxService.ensureValidToken net dropboxService (Some account) in
              ret (Json (Some validAccount)))
             (fun error => ret (Json (Some account)))
         else ret (Json (Some account))
     end)
    (fun error => ret (Failure 500 "Failed to fetch account settings" None)).

(** [app.put('/api/account', ...)] *)
Definition put_api_account (body : Account.Updates.t)
  : M (Reply (option Account.t)) :=
  try_catch
    (let* account := Accounts.upsert body in
     ret (Json account))
    (fun error => ret (Failure 500 "Failed to update account settings" None)).

(** [app.post('/api/dropbox/refresh', ...)] *)
Definition post_api_dropbox_refresh : M (Reply Refreshed) :=
  try_catch
    (let* account := Account.find in
     match account with
     | None =>
         ret (Failure 400
                "No Dropbox access token found. Please authenticate with Dropbox first."
                None)
     | Some account =>
         if negb (truthy (Account.dropboxAccessToken account)) then
           ret (Failure 400
                  "No Dropbox access token found. Please authenticate with Dropbox first."
                  None)
         else if negb (truthy (Account.dropboxRefreshToken account)) then
           ret (Failure 400
                  "No refresh token available. Please re-authenticate with Dropbox."
                  None)
         else
           let* validAccount :=
             DropboxService.ensureValidToken net dropboxService (Some account) in
           ret (Json {|
             success := true;
             access_token := Account.dropboxAccessToken validAccount;
             refresh_token := Account.dropboxRefreshToken validAccount;
             expires_at := Account.dropboxTokenExpiresAt validAccount;
             message := "Token refreshed successfully" |})
     end)
    (fun error =>
       ret (Failure 500 "Failed to refresh token" (Some (Js.message error)))).

End WithRuntime.
End Server.

(** ** More vocabulary: the accounts table *)

Section TableVocabulary.
Context `{JsRuntime}.

(** The account object the constructor makes of [row] once [brandColors] is
    parsed to [colors]. *)
Definition load (row : Row.t) (colors : JSON_value) : Account.t :=
  {| Account.id := Row.id row;
     Account.dropboxAccessToken := Row.dropboxAccessToken row;
     Account.dropboxRefreshToken := Row.dropboxRefreshToken row;
     Account.dropboxTokenExpiresAt := Row.dropboxTokenExpiresAt row;
     Account.brandLogo := Row.brandLogo row;
     Account.brandColors := colors;
     Account.createdAt := Row.createdAt row;
     Account.updatedAt := Row.updatedAt row |}.

(** At most one record, and it is the default account. *)
Definition default_only (table : list Row.t) : Prop :=
  (length table <= 1)%nat
  /\ List.Forall (fun row => Row.id row = "default_account") table.

End TableVocabulary.

(** ** Folder paths (backend/services/dropboxService.js)

    Strings are sequences of code units below 256. *)

(** [path.posix.join] of Node: the non-empty arguments joined by [/], then
    normalised ([.] and empty segments dropped, [..] resolved). *)
Module PosixPath.

Definition slash : ascii := "/".

(** The segments between the slashes. *)
Fixpoint split (s : string) (current : string) : list string :=
  match s with
  | EmptyString => [current]
  | String c rest =>
      if Ascii.eqb c slash then current :: split rest ""
      else split rest (current ++ String c "")
  end.

(** [normalizeString]: the stack of segments kept so far, last one first. *)
Fixpoint normalizeString (allowAboveRoot : bool) (segments : list string)
  (kept : list string) : list string :=
  match segments with
  | [] => rev kept
  | segment :: segments =>
      if String.eqb segment "" || String.eqb segment "." then
        normalizeString allowAboveRoot segments kept
      else if String.eqb segment ".." then
        match kept with
        | top :: below =>
            if String.eqb top ".." then
              normalizeString allowAboveRoot segments
                (if allowAboveRoot then ".." :: kept else kept)
            else normalizeString allowAboveRoot segments below
        | [] =>
            normalizeString allowAboveRoot segments
              (if allowAboveRoot then [".."] else [])
        end
      else normalizeString allowAboveRoot segments (segment :: kept)
  end.

(** The last character of the path is a slash. *)
Fixpoint last_is_slash (s : string) : bool :=
  match s with
  | EmptyString => false
  | String c EmptyString => Ascii.eqb c slash
  | String _ rest => last_is_slash rest
  end.

Definition normalize (path : string) : string :=
  match path with
  | EmptyString => "."
  | String first _ =>
      let isAbsolute := Ascii.eqb first slash in
      let trailingSeparator := last_is_slash path in
      let body :=
        String.concat "/"
          (normalizeString (negb isAbsolute) (split path "") []) in
      if String.eqb body "" then
        if isAbsolute then "/" else if trailingSeparator then "./" else "."
      else
        let body := if trailingSeparator then body ++ "/" else body in
        if isAbsolute then "/" ++ body else body
  end.

Definition join (parts : list string) : string :=
  match List.filter (fun part => negb (String.eqb part "")) parts with
  | [] => "."
  | parts => normalize (String.concat "/" parts)
  end.

End PosixPath.

Module DropboxFolders.

Definition code (c : ascii) : nat := nat_of_ascii c.

Definition between (lo hi : nat) (c : ascii) : bool :=
  Nat.leb lo (code c) && Nat.leb (code c) hi.

Definition is_digit : ascii -> bool := between 48 57.
Definition is_upper : ascii -> bool := between 65 90.
Definition is_lower : ascii -> bool := between 97 122.

Definition is_alnum (c : ascii) : bool :=
  is_lower c || is_upper c || is_digit c.

(** [\s] on code units below 256: tab to carriage return, space, and the
    no-break space. *)
Definition is_space (c : ascii) : bool :=
  between 9 13 c || Nat.eqb (code c) 32 || Nat.eqb (code c) 160.

Definition is_hyphen (c : ascii) : bool := Ascii.eqb c "-".
Definition is_underscore (c : ascii) : bool := Ascii.eqb c "_".
Definition is_colon (c : ascii) : bool := Ascii.eqb c ":".

(** [s.replace(/[^...]/g, '')]: only the characters of the class stay. *)
Fixpoint keep_only (class : ascii -> bool) (s : string) : string :=
  match s with
  | EmptyString => EmptyString
  | String c rest =>
      if class c then String c (keep_only class rest)
      else keep_only class rest
  end.

(** [s.replace(/c+/g, by)] for a class [c]: every maximal run of the class
    becomes one [by]; [in_run] tells that the run has begun. *)
Fixpoint squeeze (class : ascii -> bool) (by_ : ascii) (in_run : bool)
  (s : string) : string :=
  match s with
  | EmptyString => EmptyString
  | String c rest =>
      if class c then
        if in_run then squeeze class by_ true rest
        else String by_ (squeeze class by_ true rest)
      else String c (squeeze class by_ false rest)
  end.

(** [s.replace(/c/g, by)] for a single character. *)
Fixpoint replace_each (class : ascii -> bool) (by_ : ascii) (s : string)
  : string :=
  match s with
  | EmptyString => EmptyString
  | String c rest =>
      String (if class c then by_ else c) (replace_each class by_ rest)
  end.

(** [toLowerCase] on code units below 256. *)
Definition lower (c : ascii) : ascii :=
  if is_upper c
     || (between 192 222 c && negb (Nat.eqb (code c) 215))
  then ascii_of_nat (code c + 32) else c.

Fixpoint toLowerCase (s : string) : string :=
  match s with
  | EmptyString => EmptyString
  | String c rest => String (lower c) (toLowerCase rest)
  end.

(** [s.includes(needle)] *)
Fixpoint includes (needle s : string) : bool :=
  String.prefix needle s
  || match s with
     | EmptyString => false
     | String _ rest => includes needle rest
     end.

(** The fields of [metadata] the function reads; [None] is a field that is
    missing or [null]. *)
Record Metadata := {
  creativeType : option string;
  type : option string;
  prompt : option string;
  productName : option string;
  productId : option string;
  aspectRatio : option string
}.

Definition text (v : option string) : string :=
  match v with
  | Some s => s
  | None => ""
  end.

Definition cleanProductName (productName : string) : string :=
  toLowerCase
    (squeeze is_underscore "_" false
       (squeeze is_hyphen "_" false
          (squeeze is_space "_" false
             (keep_only (fun c => is_alnum c || is_space c || is_hyphen c)
                        productName)))).

Definition cleanAspectRatio (aspectRatio : string) : string :=
  replace_each is_colon "x"
    (keep_only (fun c => is_alnum c || is_colon c) aspectRatio).

Definition createOrganizedFolderPath (metadata : Metadata) : string :=
  let isCreative :=
    truthy (creativeType metadata)
    || match type metadata with
       | Some t => String.eqb t "creative"
       | None => false
       end
    || (truthy (prompt metadata)
        && (includes "creative" (text (prompt metadata))
            || includes "social" (text (prompt metadata)))) in
  if negb isCreative then "uploads"
  else
    let productName :=
      text (or_else (productName metadata)
                    (or_else (productId metadata) (Some "Unknown Product"))) in
    let aspectRatio :=
      text (or_else (aspectRatio metadata) (Some "Unknown")) in
    PosixPath.join
      ["products"; cleanProductName productName; cleanAspectRatio aspectRatio].

(** Every character of [s] is in the class. *)
Fixpoint all_chars (class : ascii -> bool) (s : string) : bool :=
  match s with
  | EmptyString => true
  | String c rest => class c && all_chars class rest
  end.

(** No two neighbours in [s] are both in the class. *)
Fixpoint no_adjacent (class : ascii -> bool) (s : string) : bool :=
  match s with
  | EmptyString => true
  | String a rest =>
      match rest with
      | EmptyString => true
      | String b _ => negb (class a && class b) && no_adjacent class rest
      end
  end.

(** [s] begins with a character of the class. *)
Definition starts_in (class : ascii -> bool) (s : string) : bool :=
  match s with
  | EmptyString => false
  | String c _ => class c
  end.

(** A character a cleaned segment can hold: a letter, a digit, an
    underscore. *)
Definition is_plain (c : ascii) : bool := is_alnum c || is_underscore c.

(** Path segments that are not empty and hold plain characters only. *)
Definition plain_segments (l : list string) : Prop :=
  List.Forall (fun s => s <> "" /\ all_chars is_plain s = true) l.

(** A path segment as [join] adds it: nothing for the empty string. *)
Definition segment (s : string) : string :=
  if String.eqb s "" then "" else "/" ++ s.

(** What [createOrganizedFolderPath] reads off the metadata: whether it
    describes a creative, the product name and the aspect ratio. *)
Definition is_creative (metadata : Metadata) : bool :=
  truthy (creativeType metadata)
  || match type metadata with
     | Some t => String.eqb t "creative"
     | None => false
     end
  || (truthy (prompt metadata)
      && (includes "creative" (text (prompt metadata))
          || includes "social" (text (prompt metadata)))).

Definition product_name (metadata : Metadata) : string :=
  text (or_else (productName metadata)
                (or_else (productId metadata) (Some "Unknown Product"))).

Definition aspect_ratio (metadata : Metadata) : string :=
  text (or_else (aspectRatio metadata) (Some "Unknown")).

(** A character of a folder path made of plain segments. *)
Definition is_path_char (c : ascii) : bool := is_plain c || Ascii.eqb c "/".

End DropboxFolders.

(** ** The rest of frontend/src/services/dropboxService.ts

    The browser holds [localStorage] and talks to the server with [fetch];
    [online] tells whether a request gets through.  The fields [tokenCache]
    and [tokenExpiry] of the class are never written and are left out. *)

Module Browser.

Record t := {
  localStorage : gmap string string;
  online : bool;
  server : World
}.

(** [DropboxTokenInfo] as [refreshToken] builds it from the reply. *)
Record DropboxTokenInfo := {
  access_token : option string;
  refresh_token : option string;
  expires_at : option string
}.

Definition key : string := "dropbox_access_token".

(** [String(v)] as [setItem] applies it to its value. *)
Definition to_text (v : option string) : string :=
  match v with
  | Some s => s
  | None => "null"
  end.

(** [await fetch(route)]: [None] when the request is rejected; a route that
    throws is answered 500 by the framework. *)
Definition fetch {A} (route : M (Server.Reply A)) (b : t)
  : option (Server.Reply A) * t :=
  if online b then
    match route (server b) with
    | (Returned reply, w) =>
        (Some reply,
         {| localStorage := localStorage b; online := online b; server := w |})
    | (Thrown _, w) =>
        (Some (Server.Failure 500 "Internal Server Error" None),
         {| localStorage := localStorage b; online := online b; server := w |})
    end
  else (None, b).

Definition setItem (k v : string) (b : t) : t :=
  {| localStorage := <[k := v]> (localStorage b);
     online := online b;
     server := server b |}.

Section WithRuntime.
Context `{JsRuntime}.
Variable net : Network.
Variable dropboxService : DropboxService.t.

(** [async getValidToken()]: every failure is caught and answered [null]. *)
Definition getValidToken (b : t) : option string * t :=
  let localToken := localStorage b !! key in
  if truthy localToken then (localToken, b)
  else
    match fetch (Server.get_api_account net dropboxService) b with
    | (Some (Server.Json (Some account)), b') =>
        if truthy (Account.dropboxAccessToken account) then
          (Account.dropboxAccessToken account,
           setItem key (to_text (Account.dropboxAccessToken account)) b')
        else (None, b')
    | (Some (Server.Json None), b') => (None, b')
    | (Some (Server.Failure _ _ _), b') => (None, b')
    | (None, b') => (None, b')
    end.

(** [async refreshToken()] *)
Definition refreshToken (b : t) : option DropboxTokenInfo * t :=
  match fetch (Server.post_api_dropbox_refresh net dropboxService) b with
  | (Some (Server.Json result), b') =>
      if Server.success result then
        (Some {| access_token := Server.access_token result;
                 refresh_token := Server.refresh_token result;
                 expires_at := Server.expires_at result |},
         setItem key (to_text (Server.access_token result)) b')
      else (None, b')
  | (Some (Server.Failure _ _ _), b') => (None, b')
  | (None, b') => (None, b')
  end.

(** [clearTokens()] *)
Definition clearTokens (b : t) : t :=
  {| localStorage := delete key (localStorage b);
     online := online b;
     server := server b |}.

(** [async isAuthenticated()] *)
Definition isAuthenticated (b : t) : bool * t :=
  let '(token, b') := getValidToken b in
  (truthy token, b').

End WithRuntime.
End Browser.

(** ** backend/models/LocalizedMessage.js

    The [localized_messages] table: [id] is the primary key, [campaignId]
    refers to a campaign (foreign keys are enforced), every column but
    [additionalInstructions] is NOT NULL.  The store also holds the ids of
    the campaigns there are, the clock, and the id the runtime would
    generate next (from [Date.now()] and [Math.random()]). *)

Module LocalizedMessage.

(** A row of the table, which is also what an instance holds. *)
Record t := {
  id : string;
  campaignId : string;
  originalMessage : string;
  translatedMessage : string;
  targetLanguage : string;
  languageCode : string;
  additionalInstructions : option string;
  createdAt : string;
  updatedAt : string
}.

(** The argument of [create], as the route builds it: the required fields
    are strings. *)
Module Data.
Record t := {
  id : option string;
  campaignId : string;
  originalMessage : string;
  translatedMessage : string;
  targetLanguage : string;
  languageCode : string;
  additionalInstructions : option string
}.
End Data.

(** The argument of [update]: a field left out is [None]; a field given is
    [null] or a string. *)
Module UpdateData.
Record t := {
  translatedMessage : option (option string);
  additionalInstructions : option (option string)
}.
End UpdateData.

Record Store := {
  clock : Z;
  generated : string;
  campaigns : list string;
  messages : list t
}.

Definition Q (A : Type) : Type := Store -> Outcome A * Store.

Definition q_ret {A} (a : A) : Q A := fun st => (Returned a, st).

Definition q_throw {A} (e : Exn) : Q A := fun st => (Thrown e, st).

Definition q_bind {A B} (c : Q A) (k : A -> Q B) : Q B :=
  fun st =>
    match c st with
    | (Returned a, st') => k a st'
    | (Thrown e, st') => (Thrown e, st')
    end.

Definition q_try {A} (c : Q A) (handler : Exn -> Q A) : Q A :=
  fun st =>
    match c st with
    | (Returned a, st') => (Returned a, st')
    | (Thrown e, st') => handler e st'
    end.

Notation "'let+' x := c 'in' k" := (q_bind c (fun x => k))
  (at level 10, x name, c at level 100, k at level 200).

Definition with_messages (st : Store) (rows : list t) : Store :=
  {| clock := clock st;
     generated := generated st;
     campaigns := campaigns st;
     messages := rows |}.

Definition has_id (key : string) (row : t) : bool := String.eqb (id row) key.

Definition of_campaign (key : string) (row : t) : bool :=
  String.eqb (campaignId row) key.

Section WithRuntime.
Context `{JsRuntime}.

Definition now_iso : Q string := fun st => (Returned (toISOString (clock st)), st).

(** [INSERT INTO localized_messages ...]: the primary key is checked when
    the row goes in, the foreign key when the statement ends. *)
Definition run_insert (row : t) : Q unit :=
  fun st =>
    if existsb (has_id (id row)) (messages st) then
      (Thrown (Error "UNIQUE constraint failed: localized_messages.id"), st)
    else if negb (existsb (String.eqb (campaignId row)) (campaigns st)) then
      (Thrown (Error "FOREIGN KEY constraint failed"), st)
    else (Returned tt, with_messages st (messages st ++ [row])).

(** [static async findById(id)] *)
Definition findById (key : string) : Q (option t) :=
  fun st => (Returned (List.find (has_id key) (messages st)), st).

(** [static async findByCampaignIdAndLanguage(campaignId, languageCode)] *)
Definition findByCampaignIdAndLanguage (campaign language : string)
  : Q (option t) :=
  fun st =>
    (Returned (List.find (fun row => of_campaign campaign row
                                     && String.eqb (languageCode row) language)
                         (messages st)), st).

(** [static async create(localizedMessageData)]; the last [findById] is
    returned, not awaited, inside the [try]. *)
Definition create (localizedMessageData : Data.t) : Q (option t) :=
  let+ now := now_iso in
  let+ fresh := (fun st => (Returned (generated st), st)) in
  let localizedMessage := {|
    id := match Data.id localizedMessageData with
          | Some given => if String.eqb given "" then fresh else given
          | None => fresh
          end;
    campaignId := Data.campaignId localizedMessageData;
    originalMessage := Data.originalMessage localizedMessageData;
    translatedMessage := Data.translatedMessage localizedMessageData;
    targetLanguage := Data.targetLanguage localizedMessageData;
    languageCode := Data.languageCode localizedMessageData;
    additionalInstructions :=
      or_else (Data.additionalInstructions localizedMessageData) None;
    createdAt := now;
    updatedAt := now |} in
  let+ _ :=
    q_try (run_insert localizedMessage)
          (fun error =>
             q_throw (Error ("Failed to create localized message: "
                               ++ message error))) in
  findById (id localizedMessage).

(** The row [create] is about to insert. *)
Definition new_row (data : Data.t) (st : Store) : t :=
  {| id := match Data.id data with
           | Some given => if String.eqb given "" then generated st else given
           | None => generated st
           end;
     campaignId := Data.campaignId data;
     originalMessage := Data.originalMessage data;
     translatedMessage := Data.translatedMessage data;
     targetLanguage := Data.targetLanguage data;
     languageCode := Data.languageCode data;
     additionalInstructions := or_else (Data.additionalInstructions data) None;
     createdAt := toISOString (clock st);
     updatedAt := toISOString (clock st) |}.

(** The [SET] clause [update] assembles, applied to one row. *)
Definition set_fields (updateData : UpdateData.t) (now : string) (row : t)
  (text : string) : t :=
  {| id := id row;
     campaignId := campaignId row;
     originalMessage := originalMessage row;
     translatedMessage := text;
     targetLanguage := targetLanguage row;
     languageCode := languageCode row;
     additionalInstructions :=
       default (additionalInstructions row)
               (UpdateData.additionalInstructions updateData);
     createdAt := createdAt row;
     updatedAt := now |}.

(** [UPDATE localized_messages SET ... WHERE id = ?]: the number of rows
    changed.  [translatedMessage] cannot be set to [null]. *)
Definition run_update (updateData : UpdateData.t) (now key : string) : Q nat :=
  fun st =>
    let hits := List.filter (has_id key) (messages st) in
    match UpdateData.translatedMessage updateData, hits with
    | Some None, _ :: _ =>
        (Thrown (Error
           "NOT NULL constraint failed: localized_messages.translatedMessage"),
         st)
    | _, _ =>
        (Returned (length hits),
         with_messages st
           (map (fun row =>
                   if has_id key row then
                     set_fields updateData now row
                       (match UpdateData.translatedMessage updateData with
                        | Some (Some text) => text
                        | _ => translatedMessage row
                        end)
                   else row)
                (messages st)))
    end.

(** [static async update(id, updateData)] *)
Definition update (key : string) (updateData : UpdateData.t) : Q (option t) :=
  let+ now := now_iso in
  match UpdateData.translatedMessage updateData,
        UpdateData.additionalInstructions updateData with
  | None, None => q_throw (Error "No fields to update")
  | _, _ =>
      q_try
        (let+ changes := run_update updateData now key in
         if Nat.eqb changes 0 then
           q_throw (Error "Localized message not found")
         else findById key)
        (fun error =>
           q_throw (Error ("Failed to update localized message: "
                             ++ message error)))
  end.

(** [DELETE FROM localized_messages WHERE ...]: the number of rows
    removed. *)
Definition run_delete (gone : t -> bool) : Q nat :=
  fun st =>
    (Returned (length (List.filter gone (messages st))),
     with_messages st (List.filter (fun row => negb (gone row)) (messages st))).

(** [static async delete(id)] *)
Definition delete (key : string) : Q bool :=
  q_try
    (let+ changes := run_delete (has_id key) in
     if Nat.eqb changes 0 then q_throw (Error "Localized message not found")
     else q_ret true)
    (fun error =>
       q_throw (Error ("Failed to delete localized message: "
                         ++ message error))).

(** [static async deleteByCampaignId(campaignId)] *)
Definition deleteByCampaignId (campaign : string) : Q nat :=
  q_try
    (run_delete (of_campaign campaign))
    (fun error =>
       q_throw (Error ("Failed to delete localized messages for campaign: "
                         ++ message error))).

(** [static async countByCampaignId(campaignId)] *)
Definition countByCampaignId (campaign : string) : Q nat :=
  fun st =>
    (Returned (length (List.filter (of_campaign campaign) (messages st))), st).

End WithRuntime.
End LocalizedMessage.

(** ** More sample data *)

Module Samples.

#[local] Existing Instance sample_runtime.

(** An account whose expiry is not a date. *)
Definition unreadable_account : Account.t :=
  Sample.account (Some "A1") (Some "R1") (Some "next tuesday").


(** What a settings form sends to clear the access token. *)
Definition disconnect : Account.Updates.t :=
  {| Account.Updates.dropboxAccessToken := Some None;
     Account.Updates.dropboxRefreshToken := None;
     Account.Updates.dropboxTokenExpiresAt := None;
     Account.Updates.brandLogo := None;
     Account.Updates.brandColors := Some SampleJson.EmptyObject |}.

(** What a settings form sends to store a new logo. *)
Definition new_logo : Account.Updates.t :=
  {| Account.Updates.dropboxAccessToken := None;
     Account.Updates.dropboxRefreshToken := None;
     Account.Updates.dropboxTokenExpiresAt := None;
     Account.Updates.brandLogo :=
       Some (Some "https://www.dropbox.com/s/new-logo.png?dl=0&raw=1");
     Account.Updates.brandColors := None |}.

Definition empty_world : World :=
  {| now := Sample.t0; accounts := []; posts := [] |}.

(** A browser with nothing stored, and one that holds the token [A1]. *)
Definition new_browser (w : World) : Browser.t :=
  {| Browser.localStorage := ∅; Browser.online := true; Browser.server := w |}.

Definition used_browser (w : World) : Browser.t :=
  {| Browser.localStorage := {[ Browser.key := "A1" ]};
     Browser.online := false;
     Browser.server := w |}.

Definition message (key campaign language : string) : LocalizedMessage.t :=
  {| LocalizedMessage.id := key;
     LocalizedMessage.campaignId := campaign;
     LocalizedMessage.originalMessage := "Stay fresh all day";
     LocalizedMessage.translatedMessage := "Bleib den ganzen Tag frisch";
     LocalizedMessage.targetLanguage := "German";
     LocalizedMessage.languageCode := language;
     LocalizedMessage.additionalInstructions := None;
     LocalizedMessage.createdAt := "2024-12-01T09:30:00.000Z";
     LocalizedMessage.updatedAt := "2024-12-01T09:30:00.000Z" |}.

Definition store : LocalizedMessage.Store :=
  {| LocalizedMessage.clock := Sample.t0;
     LocalizedMessage.generated := "localized_msg_1735689600000_k3x9q2m1a";
     LocalizedMessage.campaigns := ["campaign_1"; "campaign_2"];
     LocalizedMessage.messages :=
       [message "msg_1" "campaign_1" "de"; message "msg_2" "campaign_2" "de"] |}.

Definition french : LocalizedMessage.Data.t :=
  {| LocalizedMessage.Data.id := None;
     LocalizedMessage.Data.campaignId := "campaign_1";
     LocalizedMessage.Data.originalMessage := "Stay fresh all day";
     LocalizedMessage.Data.translatedMessage := "Restez frais toute la journee";
     LocalizedMessage.Data.targetLanguage := "French";
     LocalizedMessage.Data.languageCode := "fr";
     LocalizedMessage.Data.additionalInstructions := Some "" |}.

Definition reworded : LocalizedMessage.UpdateData.t :=
  {| LocalizedMessage.UpdateData.translatedMessage :=
       Some (Some "Den ganzen Tag frisch");
     LocalizedMessage.UpdateData.additionalInstructions := None |}.

End Samples.

(** * Properties *)

(** ** The sample runtime *)

Example format_epoch : Iso8601.format 0 = "1970-01-01T00:00:00.000Z".
Proof. reflexivity. Qed.

Example format_2025 :
  Iso8601.format 1735689600123 = "2025-01-01T00:00:00.123Z".
Proof. vm_compute. reflexivity. Qed.

Example parse_2025 :
  Iso8601.parse "2025-01-01T00:00:00.123Z" = Some 1735689600123.
Proof. vm_compute. reflexivity. Qed.

Example parse_not_a_date : Iso8601.parse "next tuesday" = None.
Proof. vm_compute. reflexivity. Qed.

Lemma sample_parse_stringify (v : SampleJson.value) :
  SampleJson.parse (SampleJson.stringify v) = Some v.
Proof. destruct v; reflexivity. Qed.

Lemma sample_stringify_nonempty (v : SampleJson.value) :
  SampleJson.stringify v <> "".
Proof. destruct v; discriminate. Qed.

(** ** Truthiness *)

Lemma truthy_Some (v : option string) :
  truthy v = true -> exists s, v = Some s /\ s <> "".
Proof.
  destruct v as [s|]; simpl; [|discriminate].
  intros Hs. exists s. split; [reflexivity|].
  intros ->. discriminate.
Qed.



(** ** Running computations *)

Lemma bind_returned {A B} (c : M A) (k : A -> M B) (w w' : World) (a : A) :
  c w = (Returned a, w') -> bind c k w = k a w'.
Proof. intros Hc. unfold bind. now rewrite Hc. Qed.

Lemma bind_thrown {A B} (c : M A) (k : A -> M B) (w w' : World) (e : Exn) :
  c w = (Thrown e, w') -> bind c k w = (Thrown e, w').
Proof. intros Hc. unfold bind. now rewrite Hc. Qed.

Lemma try_catch_returned {A} (c : M A) (h : Exn -> M A) (w w' : World) (a : A) :
  c w = (Returned a, w') -> try_catch c h w = (Returned a, w').
Proof. intros Hc. unfold try_catch. now rewrite Hc. Qed.

Lemma try_catch_thrown {A} (c : M A) (h : Exn -> M A) (w w' : World) (e : Exn) :
  c w = (Thrown e, w') -> try_catch c h w = h e w'.
Proof. intros Hc. unfold try_catch. now rewrite Hc. Qed.

Section TokenFacts.
Context `{JsRuntime}.
Variable net : Network.
Variable this : DropboxService.t.

(** [new Date('')] is an Invalid Date. *)
Hypothesis Date_parse_empty : Date_parse "" = None.

(** ** Dates *)

Lemma TimeClip_in_range (v : Z) :
  - max_time <= v <= max_time -> TimeClip v = Some v.
Proof.
  intros [Hlo Hhi]. unfold TimeClip.
  apply Z.leb_le in Hlo, Hhi. now rewrite Hlo, Hhi.
Qed.

Lemma TimeClip_Some (v t : Z) :
  TimeClip v = Some t -> t = v /\ - max_time <= v <= max_time.
Proof.
  unfold TimeClip.
  destruct (- max_time <=? v) eqn:Hlo; [|discriminate].
  destruct (v <=? max_time) eqn:Hhi; [|discriminate].
  intros [= <-]. apply Z.leb_le in Hlo, Hhi. auto.
Qed.

Lemma TimeClip_out_of_range (v : Z) :
  max_time < v -> TimeClip v = None.
Proof.
  intros Hhi. unfold TimeClip.
  apply Z.leb_gt in Hhi. rewrite Hhi. now rewrite andb_false_r.
Qed.

Lemma new_expiry_in_range (arrived seconds : Z) (data : ResponseData.t) :
  ResponseData.expires_in data = Some seconds ->
  - max_time <= arrived + seconds * 1000 <= max_time ->
  new_expiry arrived data = Some (arrived + seconds * 1000).
Proof.
  intros Hs Hrange. unfold new_expiry. rewrite Hs.
  now apply TimeClip_in_range.
Qed.

(** ** isTokenExpired *)

Lemma isTokenExpired_absent (expiresAt : option string) (b : option Z) (w : World) :
  truthy expiresAt = false ->
  DropboxService.isTokenExpired expiresAt b w = (Returned true, w).
Proof.
  intros He. unfold DropboxService.isTokenExpired. now rewrite He.
Qed.

Lemma isTokenExpired_present (expiresAt : option string) (b : option Z) (w : World) :
  truthy expiresAt = true ->
  DropboxService.isTokenExpired expiresAt b w
  = (Returned (date_le (new_Date expiresAt)
                       (TimeClip (now w + default 5 b * 60 * 1000))), w).
Proof.
  intros He. unfold DropboxService.isTokenExpired. now rewrite He.
Qed.

Lemma isTokenExpired_total (expiresAt : option string) (b : option Z) (w : World) :
  exists r, DropboxService.isTokenExpired expiresAt b w = (Returned r, w).
Proof.
  destruct (truthy expiresAt) eqn:He.
  - eexists. now apply isTokenExpired_present.
  - exists true. now apply isTokenExpired_absent.
Qed.

Lemma stale_expired (account : Account.t) (w : World) :
  truthy (Account.dropboxAccessToken account) = true ->
  stale (now w) account ->
  DropboxService.isTokenExpired (Account.dropboxTokenExpiresAt account) None w
  = (Returned true, w).
Proof.
  intros Ha [Hnone | [Habsent | (s & t & Hs & Ht & Hle & Hrange)]].
  - congruence.
  - now apply isTokenExpired_absent.
  - destruct (truthy (Account.dropboxTokenExpiresAt account)) eqn:He.
    + rewrite isTokenExpired_present by assumption.
      rewrite Hs. cbn [new_Date default]. rewrite Ht.
      unfold buffer_ms in Hle, Hrange.
      rewrite TimeClip_in_range by lia. cbn [date_le].
      replace (t <=? now w + 5 * 60 * 1000) with true; [reflexivity|].
      symmetry. apply Z.leb_le. lia.
    + now apply isTokenExpired_absent.
Qed.

Lemma fresh_unexpired (account : Account.t) (w : World) :
  expires_after account (now w + buffer_ms) ->
  DropboxService.isTokenExpired (Account.dropboxTokenExpiresAt account) None w
  = (Returned false, w).
Proof.
  intros (s & t & Hs & Ht & Hlt).
  assert (He : truthy (Account.dropboxTokenExpiresAt account) = true).
  { rewrite Hs. simpl. destruct (String.eqb_spec s ""); [|reflexivity].
    subst s. congruence. }
  rewrite isTokenExpired_present by assumption.
  rewrite Hs. cbn [new_Date default]. rewrite Ht.
  unfold buffer_ms in Hlt.
  destruct (TimeClip (now w + 5 * 60 * 1000)) as [deadline|] eqn:Hclip;
    [|reflexivity].
  apply TimeClip_Some in Hclip. destruct Hclip as [-> _]. cbn [date_le].
  replace (t <=? now w + 5 * 60 * 1000) with false; [reflexivity|].
  symmetry. apply Z.leb_gt. lia.
Qed.

(** ** ensureValidToken, branch by branch *)

Lemma ensureValidToken_no_token (account : Account.t) (w : World) :
  truthy (Account.dropboxAccessToken account) = false ->
  DropboxService.ensureValidToken net this (Some account) w
  = (Thrown (Error "No access token available"), w).
Proof.
  intros Ha. unfold DropboxService.ensureValidToken. now rewrite Ha.
Qed.

Lemma ensureValidToken_unexpired (account : Account.t) (w : World) :
  truthy (Account.dropboxAccessToken account) = true ->
  DropboxService.isTokenExpired (Account.dropboxTokenExpiresAt account) None w
  = (Returned false, w) ->
  DropboxService.ensureValidToken net this (Some account) w
  = (Returned account, w).
Proof.
  intros Ha He. unfold DropboxService.ensureValidToken.
  rewrite Ha. cbn [negb]. now rewrite (bind_returned _ _ _ _ _ He).
Qed.

(** ** The exchange *)

Lemma axios_post_returned (req : Request.t) (w : World) (data : ResponseData.t) :
  result (net (length (posts w)) req) = inr data ->
  axios_post net req w
  = (Returned data, after_post w req (net (length (posts w)) req)).
Proof. intros Hr. unfold axios_post. now rewrite Hr. Qed.

Lemma axios_post_thrown (req : Request.t) (w : World) (e : Exn) :
  result (net (length (posts w)) req) = inl e ->
  axios_post net req w
  = (Thrown e, after_post w req (net (length (posts w)) req)).
Proof. intros Hr. unfold axios_post. now rewrite Hr. Qed.

Lemma refreshAccessToken_unconfigured (refreshToken : option string) (w : World) :
  DropboxService.isAvailable this = false ->
  DropboxService.refreshAccessToken net this refreshToken w
  = (Thrown (Error "Dropbox OAuth credentials not configured"), w).
Proof.
  intros Hav. unfold DropboxService.refreshAccessToken. now rewrite Hav.
Qed.

Lemma refreshAccessToken_failed (account : Account.t) (w : World) (e : Exn) :
  DropboxService.isAvailable this = true ->
  truthy (Account.dropboxRefreshToken account) = true ->
  result (net (length (posts w)) (refresh_request this account)) = inl e ->
  DropboxService.refreshAccessToken net this
    (Account.dropboxRefreshToken account) w
  = (Thrown (Error ("Failed to refresh access token: "
                      ++ DropboxService.describe e)),
     after_post w (refresh_request this account)
       (net (length (posts w)) (refresh_request this account))).
Proof.
  intros Hav Hrt Hr. unfold DropboxService.refreshAccessToken.
  rewrite Hav, Hrt. cbn [negb].
  erewrite try_catch_thrown
    by (apply bind_thrown; apply axios_post_thrown; exact Hr).
  reflexivity.
Qed.

Lemma refreshAccessToken_ok (account : Account.t) (w : World)
  (data : ResponseData.t) (expiry : Z) :
  DropboxService.isAvailable this = true ->
  truthy (Account.dropboxRefreshToken account) = true ->
  result (net (length (posts w)) (refresh_request this account)) = inr data ->
  let reply := net (length (posts w)) (refresh_request this account) in
  let w1 := after_post w (refresh_request this account) reply in
  new_expiry (now w1) data = Some expiry ->
  DropboxService.refreshAccessToken net this
    (Account.dropboxRefreshToken account) w
  = (Returned {|
       RefreshResult.success := true;
       RefreshResult.access_token := ResponseData.access_token data;
       RefreshResult.refresh_token :=
         or_else (ResponseData.refresh_token data)
                 (Account.dropboxRefreshToken account);
       RefreshResult.token_type := ResponseData.token_type data;
       RefreshResult.expires_in := ResponseData.expires_in data;
       RefreshResult.expires_at := toISOString expiry;
       RefreshResult.scope := ResponseData.scope data |}, w1).
Proof.
  intros Hav Hrt Hr reply w1 Hexpiry.
  unfold DropboxService.refreshAccessToken.
  rewrite Hav, Hrt. cbn [negb].
  apply try_catch_returned.
  erewrite bind_returned by (apply axios_post_returned; exact Hr).
  rewrite (bind_returned Date_now _ w1 w1 (now w1) eq_refl).
  unfold new_expiry in Hexpiry. rewrite Hexpiry.
  reflexivity.
Qed.

(** A reply whose [expires_in] gives no date: [toISOString] throws inside
    the [try], and the error comes out with the prefix of a failed
    exchange. *)
Lemma refreshAccessToken_invalid (account : Account.t) (w : World)
  (data : ResponseData.t) :
  DropboxService.isAvailable this = true ->
  truthy (Account.dropboxRefreshToken account) = true ->
  result (net (length (posts w)) (refresh_request this account)) = inr data ->
  let reply := net (length (posts w)) (refresh_request this account) in
  let w1 := after_post w (refresh_request this account) reply in
  new_expiry (now w1) data = None ->
  DropboxService.refreshAccessToken net this
    (Account.dropboxRefreshToken account) w
  = (Thrown (Error ("Failed to refresh access token: "
                      ++ "Invalid time value")), w1).
Proof.
  intros Hav Hrt Hr reply w1 Hexpiry.
  unfold DropboxService.refreshAccessToken.
  rewrite Hav, Hrt. cbn [negb].
  rewrite (try_catch_thrown _ _ w w1 RangeError); [reflexivity|].
  erewrite bind_returned by (apply axios_post_returned; exact Hr).
  rewrite (bind_returned Date_now _ w1 w1 (now w1) eq_refl).
  unfold new_expiry in Hexpiry. rewrite Hexpiry.
  reflexivity.
Qed.

(** ** Account.update *)

Lemma update_run (account : Account.t) (updates : Account.Updates.t) (w : World) :
  let d := {|
    Account.UpdatedData.dropboxAccessToken :=
      default (Account.dropboxAccessToken account)
              (Account.Updates.dropboxAccessToken updates);
    Account.UpdatedData.dropboxRefreshToken :=
      default (Account.dropboxRefreshToken account)
              (Account.Updates.dropboxRefreshToken updates);
    Account.UpdatedData.dropboxTokenExpiresAt :=
      default (Account.dropboxTokenExpiresAt account)
              (Account.Updates.dropboxTokenExpiresAt updates);
    Account.UpdatedData.brandLogo :=
      default (Account.brandLogo account) (Account.Updates.brandLogo updates);
    Account.UpdatedData.brandColors :=
      default (Account.brandColors account)
              (Account.Updates.brandColors updates);
    Account.UpdatedData.updatedAt := toISOString (now w) |} in
  Account.update account updates w
  = (Returned (Account.assign account d),
     {| now := now w;
        accounts := updated_table d (Account.id account) (accounts w);
        posts := posts w |}).
Proof. reflexivity. Qed.

Lemma set_row_id (d : Account.UpdatedData.t) (row : Row.t) :
  Row.id (Account.set_row d row) = Row.id row.
Proof. reflexivity. Qed.

Lemma stored_updated (d : Account.UpdatedData.t) (key : string) (w w' : World) :
  accounts w' = updated_table d key (accounts w) ->
  stored key w' = option_map (Account.set_row d) (stored key w).
Proof.
  unfold stored. intros ->. unfold updated_table.
  induction (accounts w) as [|row rows IH]; [reflexivity|].
  simpl. destruct (String.eqb (Row.id row) key) eqn:Hk.
  - rewrite set_row_id, Hk. reflexivity.
  - rewrite Hk. exact IH.
Qed.

(** ** ensureValidToken on an expired token *)

Lemma ensureValidToken_no_refresh_token (account : Account.t) (w : World) :
  truthy (Account.dropboxAccessToken account) = true ->
  DropboxService.isTokenExpired (Account.dropboxTokenExpiresAt account) None w
  = (Returned true, w) ->
  truthy (Account.dropboxRefreshToken account) = false ->
  DropboxService.ensureValidToken net this (Some account) w
  = (Thrown (Error
       "Access token expired and no refresh token available. Please re-authenticate."),
     w).
Proof.
  intros Ha He Hrt. unfold DropboxService.ensureValidToken.
  rewrite Ha. cbn [negb].
  rewrite (bind_returned _ _ _ _ _ He). now rewrite Hrt.
Qed.

Lemma ensureValidToken_unconfigured (account : Account.t) (w : World) :
  truthy (Account.dropboxAccessToken account) = true ->
  DropboxService.isTokenExpired (Account.dropboxTokenExpiresAt account) None w
  = (Returned true, w) ->
  truthy (Account.dropboxRefreshToken account) = true ->
  DropboxService.isAvailable this = false ->
  DropboxService.ensureValidToken net this (Some account) w
  = (Thrown (Error ("Token refresh failed: "
                      ++ "Dropbox OAuth credentials not configured")), w).
Proof.
  intros Ha He Hrt Hav. unfold DropboxService.ensureValidToken.
  rewrite Ha. cbn [negb].
  rewrite (bind_returned _ _ _ _ _ He). rewrite Hrt. cbn [negb].
  erewrite try_catch_thrown
    by (apply bind_thrown; now apply refreshAccessToken_unconfigured).
  reflexivity.
Qed.

Lemma ensureValidToken_exchange_failed (account : Account.t) (w : World) (e : Exn) :
  truthy (Account.dropboxAccessToken account) = true ->
  DropboxService.isTokenExpired (Account.dropboxTokenExpiresAt account) None w
  = (Returned true, w) ->
  truthy (Account.dropboxRefreshToken account) = true ->
  DropboxService.isAvailable this = true ->
  result (net (length (posts w)) (refresh_request this account)) = inl e ->
  DropboxService.ensureValidToken net this (Some account) w
  = (Thrown (Error ("Token refresh failed: "
                      ++ ("Failed to refresh access token: "
                            ++ DropboxService.describe e))),
     after_post w (refresh_request this account)
       (net (length (posts w)) (refresh_request this account))).
Proof.
  intros Ha He Hrt Hav Hr. unfold DropboxService.ensureValidToken.
  rewrite Ha. cbn [negb].
  rewrite (bind_returned _ _ _ _ _ He). rewrite Hrt. cbn [negb].
  erewrite try_catch_thrown
    by (apply bind_thrown; eapply refreshAccessToken_failed; eassumption).
  reflexivity.
Qed.

Lemma ensureValidToken_refreshed (account : Account.t) (w : World)
  (data : ResponseData.t) (expiry : Z) :
  truthy (Account.dropboxAccessToken account) = true ->
  DropboxService.isTokenExpired (Account.dropboxTokenExpiresAt account) None w
  = (Returned true, w) ->
  truthy (Account.dropboxRefreshToken account) = true ->
  DropboxService.isAvailable this = true ->
  result (net (length (posts w)) (refresh_request this account)) = inr data ->
  let req := refresh_request this account in
  let arrived := now w + Z.of_N (elapsed (net (length (posts w)) req)) in
  let d := refreshed_data account data arrived expiry in
  new_expiry arrived data = Some expiry ->
  DropboxService.ensureValidToken net this (Some account) w
  = (Returned (Account.assign account d),
     {| now := arrived;
        accounts := updated_table d (Account.id account) (accounts w);
        posts := posts w ++ [req] |}).
Proof.
  intros Ha He Hrt Hav Hr req arrived d Hexpiry.
  unfold DropboxService.ensureValidToken.
  rewrite Ha. cbn [negb].
  rewrite (bind_returned _ _ _ _ _ He). rewrite Hrt. cbn [negb].
  apply try_catch_returned.
  erewrite bind_returned
    by (eapply refreshAccessToken_ok; try eassumption; exact Hexpiry).
  rewrite (bind_returned _ _ _ _ _ (update_run _ _ _)).
  reflexivity.
Qed.

(** The exchange came back, but with an [expires_in] that gives no date:
    the call fails as it does for a failed exchange, and nothing is
    written. *)
Lemma ensureValidToken_invalid_expiry (account : Account.t) (w : World)
  (data : ResponseData.t) :
  truthy (Account.dropboxAccessToken account) = true ->
  DropboxService.isTokenExpired (Account.dropboxTokenExpiresAt account) None w
  = (Returned true, w) ->
  truthy (Account.dropboxRefreshToken account) = true ->
  DropboxService.isAvailable this = true ->
  result (net (length (posts w)) (refresh_request this account)) = inr data ->
  let req := refresh_request this account in
  let arrived := now w + Z.of_N (elapsed (net (length (posts w)) req)) in
  new_expiry arrived data = None ->
  DropboxService.ensureValidToken net this (Some account) w
  = (Thrown (Error ("Token refresh failed: "
                      ++ ("Failed to refresh access token: "
                            ++ "Invalid time value"))),
     after_post w req (net (length (posts w)) req)).
Proof.
  intros Ha He Hrt Hav Hr req arrived Hexpiry.
  unfold DropboxService.ensureValidToken.
  rewrite Ha. cbn [negb].
  rewrite (bind_returned _ _ _ _ _ He). rewrite Hrt. cbn [negb].
  erewrite try_catch_thrown
    by (apply bind_thrown; eapply refreshAccessToken_invalid;
        try eassumption; exact Hexpiry).
  reflexivity.
Qed.

Lemma stored_refreshed (account : Account.t) (data : ResponseData.t)
  (arrived expiry : Z) (w w' : World) (row : Row.t) :
  accounts w'
  = updated_table (refreshed_data account data arrived expiry)
                  (Account.id account) (accounts w) ->
  stored (Account.id account) w = Some row ->
  stored (Account.id account) w'
  = Some (Account.set_row (refreshed_data account data arrived expiry) row).
Proof.
  intros Hacc Hrow. rewrite (stored_updated _ _ _ _ Hacc), Hrow. reflexivity.
Qed.

Lemma snoc_neq {A} (l : list A) (x : A) : (l ++ [x])%list <> l.
Proof.
  intros Heq. apply (f_equal (@length A)) in Heq.
  rewrite length_app in Heq. simpl in Heq. lia.
Qed.

(** ** The claims on a single call *)

(** C1, as the code has it: for a stored credential that has an access
    token, whose [expiresAt] is no later than now plus the buffer and whose
    refresh token is present, when the exchange succeeds with an
    [expires_in] that gives a date, [ensureValidToken] posts exactly one
    request to the token endpoint, returns the account carrying the new
    access token, and has by then written the new access token and the
    expiry (the time the reply came in plus [expires_in] seconds) to the
    stored record. *)
Theorem C1_refresh_on_stale (account : Account.t) (w : World)
  (data : ResponseData.t) (seconds : Z) :
  truthy (Account.dropboxAccessToken account) = true ->
  expires_by account (now w + buffer_ms) ->
  truthy (Account.dropboxRefreshToken account) = true ->
  DropboxService.isAvailable this = true ->
  result (net (length (posts w)) (refresh_request this account)) = inr data ->
  ResponseData.expires_in data = Some seconds ->
  - max_time
  <= now w + Z.of_N (elapsed (net (length (posts w))
                                  (refresh_request this account)))
     + seconds * 1000
  <= max_time ->
  exists account' w',
    DropboxService.ensureValidToken net this (Some account) w
    = (Returned account', w')
    /\ posts w' = (posts w ++ [refresh_request this account])%list
    /\ Account.dropboxAccessToken account'
       = Some (ResponseData.access_token data)
    /\ Account.dropboxTokenExpiresAt account'
       = Some (toISOString (now w' + seconds * 1000))
    /\ forall row,
         stored (Account.id account) w = Some row ->
         exists row',
           stored (Account.id account) w' = Some row'
           /\ Row.dropboxAccessToken row'
              = Some (ResponseData.access_token data)
           /\ Row.dropboxTokenExpiresAt row'
              = Some (toISOString (now w' + seconds * 1000)).
Proof.
  intros Ha Hexp Hrt Hav Hr Hs Hrange.
  assert (He := stale_expired account w Ha (or_intror (or_intror Hexp))).
  pose proof (ensureValidToken_refreshed account w data _ Ha He Hrt Hav Hr
                (new_expiry_in_range _ _ _ Hs Hrange)) as Hrun.
  cbv zeta in Hrun. rewrite Hrun.
  eexists. eexists. split; [reflexivity|].
  cbn [posts now]. repeat split.
  intros row Hrow. eexists. split.
  - eapply stored_refreshed; [reflexivity | exact Hrow].
  - split; reflexivity.
Qed.

(** C2: for a stored credential whose [expiresAt] is strictly later than
    now plus the buffer, [ensureValidToken] returns the account as it is,
    cached access token included, and leaves the world as it was: no
    request posted, nothing written. *)
Theorem C2_fresh_token_untouched (account : Account.t) (w : World) :
  truthy (Account.dropboxAccessToken account) = true ->
  expires_after account (now w + buffer_ms) ->
  DropboxService.ensureValidToken net this (Some account) w
  = (Returned account, w).
Proof.
  intros Ha Hfresh. apply ensureValidToken_unexpired; [assumption|].
  now apply fresh_unexpired.
Qed.

(** C3, as the code has it: for every stale credential whose refresh token
    is null or empty, [ensureValidToken] fails without posting a request
    and without writing; the error is the re-authentication error when the
    credential has an access token, and the error of a missing account
    when it has none. *)
Theorem C3_no_refresh_token (account : Account.t) (w : World) :
  stale (now w) account ->
  truthy (Account.dropboxRefreshToken account) = false ->
  DropboxService.ensureValidToken net this (Some account) w
  = (Thrown (Error
       (if truthy (Account.dropboxAccessToken account)
        then "Access token expired and no refresh token available. Please re-authenticate."
        else "No access token available")),
     w).
Proof.
  intros Hstale Hrt.
  destruct (truthy (Account.dropboxAccessToken account)) eqn:Ha.
  - apply ensureValidToken_no_refresh_token; try assumption.
    now apply stale_expired.
  - now apply ensureValidToken_no_token.
Qed.

(** C4: for a stale stored credential with a refresh token, if the exchange
    fails, [ensureValidToken] throws and the accounts table is exactly what
    it was. *)
Theorem C4_failure_leaves_store (account : Account.t) (w : World) (e : Exn) :
  truthy (Account.dropboxAccessToken account) = true ->
  stale (now w) account ->
  truthy (Account.dropboxRefreshToken account) = true ->
  result (net (length (posts w)) (refresh_request this account)) = inl e ->
  exists msg w',
    DropboxService.ensureValidToken net this (Some account) w
    = (Thrown (Error msg), w')
    /\ accounts w' = accounts w
    /\ stored (Account.id account) w' = stored (Account.id account) w.
Proof.
  intros Ha Hstale Hrt Hr.
  assert (He := stale_expired account w Ha Hstale).
  destruct (DropboxService.isAvailable this) eqn:Hav.
  - rewrite (ensureValidToken_exchange_failed account w e) by assumption.
    eexists. eexists. split; [reflexivity|]. split; reflexivity.
  - rewrite ensureValidToken_unconfigured by assumption.
    eexists. eexists. split; [reflexivity|]. split; reflexivity.
Qed.


(** C6, as the code has it: an exchange that fails is not classified.
    Whatever the cause, [ensureValidToken] throws a plain [Error] whose
    message is the two fixed prefixes followed by the description of the
    failure: the provider's [error_description] when the reply carries
    one, the message of the transport error otherwise. *)
Theorem C6_one_error_for_every_cause (account : Account.t) (w : World)
  (e : Exn) :
  truthy (Account.dropboxAccessToken account) = true ->
  stale (now w) account ->
  truthy (Account.dropboxRefreshToken account) = true ->
  DropboxService.isAvailable this = true ->
  result (net (length (posts w)) (refresh_request this account)) = inl e ->
  fst (DropboxService.ensureValidToken net this (Some account) w)
  = Thrown (Error ("Token refresh failed: "
                     ++ ("Failed to refresh access token: "
                           ++ DropboxService.describe e))).
Proof.
  intros Ha Hstale Hrt Hav Hr.
  assert (He := stale_expired account w Ha Hstale).
  now rewrite (ensureValidToken_exchange_failed account w e).
Qed.

(** C7, as the code has it: an account whose access token is null or empty
    is turned away at once with the error of a missing account, whether or
    not it has a refresh token; no request is posted and nothing is
    written. *)
Theorem C7_no_access_token_no_refresh (account : Account.t) (w : World) :
  truthy (Account.dropboxAccessToken account) = false ->
  DropboxService.ensureValidToken net this (Some account) w
  = (Thrown (Error "No access token available"), w)
  /\ DropboxService.ensureValidToken net this (Some account) w
     = DropboxService.ensureValidToken net this None w.
Proof.
  intros Ha. rewrite ensureValidToken_no_token by assumption.
  split; reflexivity.
Qed.

(** C8, as the code has it: the check inside [ensureValidToken] is the
    exposed predicate [isTokenExpired] at its default buffer, the only one
    [ensureValidToken] ever uses (the call returns the account untouched
    exactly when the predicate says false); the comparison is written again
    in the browser, where [DropboxService.isTokenExpired] and the form's
    [isTokenExpiringSoon] give the boolean of the backend's predicate on
    every expiry, buffer and clock; and every copy takes a missing
    [expiresAt] for expired. *)
Theorem C8_one_staleness_rule :
  (forall (expiresAt : option string) (bufferMinutes : option Z) (w : World),
      FrontendDropboxService.isTokenExpired expiresAt bufferMinutes w
      = DropboxService.isTokenExpired expiresAt bufferMinutes w
      /\ CampaignBriefForm.isTokenExpiringSoon expiresAt bufferMinutes w
         = DropboxService.isTokenExpired expiresAt bufferMinutes w)
  /\ (forall (account : Account.t) (w : World),
         truthy (Account.dropboxAccessToken account) = true ->
         DropboxService.ensureValidToken net this (Some account) w
         = (Returned account, w)
         <-> DropboxService.isTokenExpired
               (Account.dropboxTokenExpiresAt account) None w
             = (Returned false, w))
  /\ (forall (bufferMinutes : option Z) (w : World),
         DropboxService.isTokenExpired None bufferMinutes w
         = (Returned true, w)
         /\ FrontendDropboxService.isTokenExpired None bufferMinutes w
            = (Returned true, w)
         /\ CampaignBriefForm.isTokenExpiringSoon None bufferMinutes w
            = (Returned true, w)
         /\ CampaignBriefForm.isTokenExpired None w = (Returned true, w)).
Proof.
  split; [split; reflexivity|]. split; [|repeat split; reflexivity].
  intros account w Ha. split.
  - intros Hrun.
    destruct (isTokenExpired_total (Account.dropboxTokenExpiresAt account) None w)
      as [[|] He]; [exfalso | exact He].
    destruct (truthy (Account.dropboxRefreshToken account)) eqn:Hrt.
    + destruct (DropboxService.isAvailable this) eqn:Hav.
      * destruct (result (net (length (posts w)) (refresh_request this account)))
          as [e|data] eqn:Hr.
        -- rewrite (ensureValidToken_exchange_failed account w e) in Hrun
             by assumption.
           discriminate.
        -- destruct (new_expiry
                       (now w + Z.of_N (elapsed (net (length (posts w))
                                                     (refresh_request this account))))
                       data) as [expiry|] eqn:Hexpiry.
           ++ pose proof (ensureValidToken_refreshed account w data expiry
                            Ha He Hrt Hav Hr Hexpiry) as Hrefresh.
              cbv zeta in Hrefresh. rewrite Hrefresh in Hrun.
              injection Hrun as _ Hw.
              apply (f_equal posts) in Hw. cbn [posts] in Hw.
              now apply snoc_neq in Hw.
           ++ rewrite (ensureValidToken_invalid_expiry account w data) in Hrun
                by assumption.
              discriminate.
      * rewrite ensureValidToken_unconfigured in Hrun by assumption.
        discriminate.
    + rewrite ensureValidToken_no_refresh_token in Hrun by assumption.
      discriminate.
  - now apply ensureValidToken_unexpired.
Qed.

End TokenFacts.

(** ** What a refresh leaves alone *)

Section FrameFacts.
Context `{JsRuntime}.
Variable net : Network.
Variable this : DropboxService.t.

(** [JSON.parse] reads back what [JSON.stringify] wrote, and
    [JSON.stringify] never writes the empty string. *)
Hypothesis JSON_parse_stringify :
  forall v, JSON_parse (JSON_stringify v) = Some v.
Hypothesis JSON_stringify_nonempty :
  forall v, JSON_stringify v <> "".

Lemma find_loaded (w w' : World) (account : Account.t) :
  Account.find w = (Returned (Some account), w') ->
  exists row rest,
    accounts w = row :: rest
    /\ w' = w
    /\ Account.id account = Row.id row
    /\ Account.brandLogo account = Row.brandLogo row
    /\ Account.createdAt account = Row.createdAt row
    /\ JSON_parse (if String.eqb (Row.brandColors row) ""
                   then "{}" else Row.brandColors row)
       = Some (Account.brandColors account).
Proof.
  unfold Account.find. destruct (accounts w) as [|row rest]; [discriminate|].
  destruct (JSON_parse _) as [colors|] eqn:Hparse; [|discriminate].
  intros Heq. injection Heq as Hacc Hw. subst account w'.
  exists row, rest. cbn. auto 10.
Qed.

Lemma loaded_colors (row : Row.t) (colors : JSON_value) :
  (exists v, Row.brandColors row = JSON_stringify v) ->
  JSON_parse (if String.eqb (Row.brandColors row) ""
              then "{}" else Row.brandColors row) = Some colors ->
  JSON_stringify colors = Row.brandColors row.
Proof.
  intros [v Hv] Hparse. rewrite Hv in Hparse |- *.
  destruct (String.eqb_spec (JSON_stringify v) "") as [Hempty|_].
  - now apply JSON_stringify_nonempty in Hempty.
  - rewrite JSON_parse_stringify in Hparse. now injection Hparse as ->.
Qed.

Lemma updated_table_absent (d : Account.UpdatedData.t) (key : string)
  (rest : list Row.t) :
  ~ List.In key (map Row.id rest) -> updated_table d key rest = rest.
Proof.
  unfold updated_table. induction rest as [|row rest IH]; [reflexivity|].
  cbn [map List.In]. intros Hnot.
  destruct (String.eqb_spec (Row.id row) key) as [Hk|_].
  - exfalso. apply Hnot. now left.
  - f_equal. apply IH. intros Hin. apply Hnot. now right.
Qed.

(** C10, as the code has it: [Account.update] writes every column but [id]
    and [createdAt], [brandLogo] and [brandColors] from the account object
    in memory.  So when [ensureValidToken] refreshes the token of the
    account as [Account.find] has just loaded it from a well-kept table,
    and nothing else writes the record while the exchange is awaited, the
    stored record keeps its [id], [brandLogo], [brandColors] and
    [createdAt], every other record is untouched, and the returned account
    keeps those four fields too. *)
Theorem C10_refresh_frame (account : Account.t) (w : World)
  (data : ResponseData.t) (seconds : Z) :
  well_kept (accounts w) ->
  Account.find w = (Returned (Some account), w) ->
  truthy (Account.dropboxAccessToken account) = true ->
  stale (now w) account ->
  truthy (Account.dropboxRefreshToken account) = true ->
  DropboxService.isAvailable this = true ->
  result (net (length (posts w)) (refresh_request this account)) = inr data ->
  ResponseData.expires_in data = Some seconds ->
  - max_time
  <= now w + Z.of_N (elapsed (net (length (posts w))
                                  (refresh_request this account)))
     + seconds * 1000
  <= max_time ->
  exists account' w' row rest row',
    DropboxService.ensureValidToken net this (Some account) w
    = (Returned account', w')
    /\ accounts w = row :: rest
    /\ accounts w' = row' :: rest
    /\ frame row' = frame row
    /\ Account.id account' = Account.id account
    /\ Account.brandLogo account' = Account.brandLogo account
    /\ Account.brandColors account' = Account.brandColors account
    /\ Account.createdAt account' = Account.createdAt account.
Proof.
  intros [Hkey Hjson] Hfind Ha Hstale Hrt Hav Hr Hs Hrange.
  destruct (find_loaded _ _ _ Hfind)
    as (row & rest & Hrows & _ & Hid & Hlogo & Hcreated & Hparse).
  assert (He := stale_expired account w Ha Hstale).
  pose proof (ensureValidToken_refreshed net this account w data _
                Ha He Hrt Hav Hr (new_expiry_in_range _ _ _ Hs Hrange))
    as Hrun.
  cbv zeta in Hrun. rewrite Hrun. clear Hrun.
  rewrite Hrows in Hkey, Hjson |- *.
  inversion Hkey as [|? ? Hfresh _]; subst.
  inversion Hjson as [|? ? Hcanon _]; subst.
  eexists. eexists. exists row, rest. eexists.
  split; [reflexivity|]. split; [reflexivity|].
  cbn [accounts]. split.
  - unfold updated_table at 1. cbn [map]. rewrite Hid, String.eqb_refl.
    f_equal. apply updated_table_absent. exact Hfresh.
  - split; [|repeat split].
    unfold frame. cbn. rewrite Hlogo.
    now rewrite (loaded_colors row _ Hcanon Hparse).
Qed.

End FrameFacts.

(** ** Callers that overlap *)

Section EventLoopFacts.
Context `{JsRuntime}.
Variable net : Network.
Variable this : DropboxService.t.

(** A caller that is left alone between its two parts does what
    [ensureValidToken] does. *)
Lemma start_resume (account : option Account.t) (w : World) :
  match EventLoop.start this account w with
  | (EventLoop.Settled r, w') =>
      DropboxService.ensureValidToken net this account w = (r, w')
  | (EventLoop.AwaitingPost a req k issued, w') =>
      DropboxService.ensureValidToken net this account w
      = EventLoop.resume net a req k issued w'
  | (EventLoop.Called _, _) => False
  end.
Proof.
  destruct account as [account|]; [|reflexivity].
  unfold EventLoop.start, DropboxService.ensureValidToken.
  destruct (truthy (Account.dropboxAccessToken account)); [|reflexivity].
  cbn [negb].
  destruct (isTokenExpired_total (Account.dropboxTokenExpiresAt account) None w)
    as [expired He].
  rewrite (bind_returned _ _ _ _ _ He), He.
  destruct expired; [|reflexivity].
  destruct (truthy (Account.dropboxRefreshToken account)) eqn:Hrt;
    [|reflexivity].
  cbn [negb].
  unfold DropboxService.refreshAccessToken.
  destruct (DropboxService.isAvailable this); [|reflexivity].
  rewrite Hrt. cbn [negb].
  unfold EventLoop.resume, try_catch, bind, axios_post.
  cbn [posts now accounts Request.refresh_token].
  rewrite Z.max_r by lia.
  destruct (result _); reflexivity.
Qed.

Lemma start_budget (account : option Account.t) (w w' : World)
  (t : EventLoop.Task) :
  EventLoop.start this account w = (t, w') ->
  EventLoop.is_called t = false
  /\ (length (posts w') <= length (posts w) + 1)%nat.
Proof.
  unfold EventLoop.start.
  destruct account as [account|];
    [|intros Heq; injection Heq as <- <-; split; [reflexivity|lia]].
  destruct (truthy (Account.dropboxAccessToken account));
    [|intros Heq; injection Heq as <- <-; split; [reflexivity|cbn; lia]].
  cbn [negb].
  destruct (isTokenExpired_total (Account.dropboxTokenExpiresAt account) None w)
    as [expired ->].
  destruct expired;
    [|intros Heq; injection Heq as <- <-; split; [reflexivity|lia]].
  destruct (truthy (Account.dropboxRefreshToken account));
    [|intros Heq; injection Heq as <- <-; split; [reflexivity|cbn; lia]].
  cbn [negb].
  destruct (DropboxService.isAvailable this);
    intros Heq; injection Heq as <- <-; (split; [reflexivity|]);
    cbn [negb posts]; [rewrite length_app; cbn; lia | lia].
Qed.

Lemma resume_posts (account : Account.t) (req : Request.t) (k : nat)
  (issued : Z) (w : World) :
  posts (snd (EventLoop.resume net account req k issued w)) = posts w.
Proof.
  unfold EventLoop.resume. destruct (result _) as [e|data]; [reflexivity|].
  cbv [try_catch bind EventLoop.refreshed Date_now Date_toISOString].
  destruct (Date_of_number _); reflexivity.
Qed.

Lemma resume_returned (account account' : Account.t) (req : Request.t)
  (k : nat) (issued : Z) (w : World) :
  fst (EventLoop.resume net account req k issued w) = Returned account' ->
  exists data,
    result (net k req) = inr data
    /\ Account.dropboxAccessToken account'
       = Some (ResponseData.access_token data).
Proof.
  unfold EventLoop.resume. destruct (result _) as [e|data]; [discriminate|].
  cbv [try_catch bind EventLoop.refreshed Date_now Date_toISOString].
  destruct (Date_of_number _); [|discriminate].
  cbn. intros Heq. injection Heq as <-. exists data. split; reflexivity.
Qed.

Lemma waiting_insert (ts : list EventLoop.Task) (i : nat)
  (old new : EventLoop.Task) :
  ts !! i = Some old ->
  (EventLoop.waiting (<[i := new]> ts)
     + (if EventLoop.is_called old then 1 else 0)
   = EventLoop.waiting ts
     + (if EventLoop.is_called new then 1 else 0))%nat.
Proof.
  unfold EventLoop.waiting. revert i.
  induction ts as [|t ts IH]; intros i Hi; [discriminate|].
  destruct i as [|i]; cbn in Hi |- *.
  - injection Hi as ->.
    destruct (EventLoop.is_called old), (EventLoop.is_called new); cbn; lia.
  - specialize (IH i Hi). cbn in IH.
    destruct (EventLoop.is_called t); cbn; [f_equal|]; exact IH.
Qed.

Lemma step_budget (p : EventLoop.Pool) (i : nat) :
  (length (posts (EventLoop.world (EventLoop.step net this p i)))
     + EventLoop.waiting (EventLoop.tasks (EventLoop.step net this p i))
   <= length (posts (EventLoop.world p))
      + EventLoop.waiting (EventLoop.tasks p))%nat.
Proof.
  unfold EventLoop.step.
  destruct (EventLoop.tasks p !! i) as [[account|account req k issued|r]|] eqn:Hi;
    [| |lia|lia].
  - destruct (EventLoop.start this account (EventLoop.world p)) as [t w'] eqn:Hs.
    destruct (start_budget _ _ _ _ Hs) as [Ht Hposts].
    pose proof (waiting_insert _ _ _ t Hi) as Hw.
    rewrite Ht in Hw. cbn [EventLoop.is_called] in Hw.
    cbn [EventLoop.world EventLoop.tasks].
    unfold EventLoop.Task in *. lia.
  - pose proof (resume_posts account req k issued (EventLoop.world p)) as Hposts.
    destruct (EventLoop.resume net account req k issued (EventLoop.world p))
      as [r w'].
    pose proof (waiting_insert _ _ _ (EventLoop.Settled r) Hi) as Hw.
    cbn [snd] in Hposts. cbn [EventLoop.is_called] in Hw.
    cbn [EventLoop.world EventLoop.tasks]. rewrite Hposts.
    unfold EventLoop.Task in *. lia.
Qed.

Lemma run_budget (schedule : list nat) (p : EventLoop.Pool) :
  (length (posts (EventLoop.world (EventLoop.run net this schedule p)))
     + EventLoop.waiting (EventLoop.tasks (EventLoop.run net this schedule p))
   <= length (posts (EventLoop.world p))
      + EventLoop.waiting (EventLoop.tasks p))%nat.
Proof.
  unfold EventLoop.run. revert p.
  induction schedule as [|i schedule IH]; intros p; [cbn; lia|].
  cbn [fold_left]. specialize (IH (EventLoop.step net this p i)).
  pose proof (step_budget p i). lia.
Qed.

Lemma waiting_spawned (callers : list (option Account.t)) :
  EventLoop.waiting (map EventLoop.Called callers) = length callers.
Proof.
  unfold EventLoop.waiting.
  induction callers as [|c callers IH]; [reflexivity|].
  cbn. now rewrite IH.
Qed.

(** C9, as the code has it: nothing serialises the callers.  However the
    event loop interleaves them, each caller posts at most one exchange, so
    [N] callers post at most [N]; and a caller that comes back from its
    wait with an account holds the access token of the reply to its own
    request. *)
Theorem C9_one_exchange_per_caller :
  (forall (callers : list (option Account.t)) (w : World) (schedule : list nat),
      (length (posts (EventLoop.world
                        (EventLoop.run net this schedule
                                       (EventLoop.spawn callers w))))
       <= length (posts w) + length callers)%nat)
  /\ (forall (p : EventLoop.Pool) (i : nat) (account account' : Account.t)
             (req : Request.t) (k : nat) (issued : Z),
         EventLoop.tasks p !! i
         = Some (EventLoop.AwaitingPost account req k issued) ->
         EventLoop.tasks (EventLoop.step net this p i) !! i
         = Some (EventLoop.Settled (Returned account')) ->
         exists data,
           result (net k req) = inr data
           /\ Account.dropboxAccessToken account'
              = Some (ResponseData.access_token data)).
Proof.
  split.
  - intros callers w schedule.
    pose proof (run_budget schedule (EventLoop.spawn callers w)) as Hrun.
    cbn [EventLoop.spawn EventLoop.world EventLoop.tasks] in Hrun.
    rewrite waiting_spawned in Hrun. lia.
  - intros p i account account' req k issued Hi Hstep.
    unfold EventLoop.step in Hstep. rewrite Hi in Hstep.
    destruct (EventLoop.resume net account req k issued (EventLoop.world p))
      as [r w'] eqn:Hres.
    cbn [EventLoop.tasks] in Hstep.
    rewrite list_lookup_insert_eq in Hstep
      by (eapply lookup_lt_Some; exact Hi).
    injection Hstep as ->.
    apply (resume_returned account account' req k issued (EventLoop.world p)).
    now rewrite Hres.
Qed.

End EventLoopFacts.

(** ** The claims at the sample data *)

(** The scenario of the specification: [A1]/[R1] expired ten seconds ago,
    the provider answers [A2] for 3600 seconds and no new refresh token. *)
Example scenario_refresh :
  DropboxService.ensureValidToken (H := sample_runtime) Sample.net_ok Sample.svc
    (Some Sample.stale_account) (Sample.world Sample.stale_row)
  = (Returned
       (@Account.Build_object SampleJson.value
          "default_account"
          (Some "A2")
          (Some "R1")
          (Some "2025-01-01T01:00:00.250Z")
          (Some "https://www.dropbox.com/s/logo.png?dl=0&raw=1")
          SampleJson.BrandPalette
          "2024-12-01T09:30:00.000Z"
          "2025-01-01T00:00:00.250Z"),
     {| now := Sample.t0 + 250;
        accounts := [ {|
          Row.id := "default_account";
          Row.dropboxAccessToken := Some "A2";
          Row.dropboxRefreshToken := Some "R1";
          Row.dropboxTokenExpiresAt := Some "2025-01-01T01:00:00.250Z";
          Row.brandLogo := Some "https://www.dropbox.com/s/logo.png?dl=0&raw=1";
          Row.brandColors := SampleJson.palette_text;
          Row.createdAt := "2024-12-01T09:30:00.000Z";
          Row.updatedAt := "2025-01-01T00:00:00.250Z" |} ];
        posts := [ {|
          Request.refresh_token := Some "R1";
          Request.grant_type := "refresh_token";
          Request.client_id := Some "app-key";
          Request.client_secret := Some "app-secret" |} ] |}).
Proof. vm_compute. reflexivity. Qed.

Example sample_find :
  Account.find (H := sample_runtime) (Sample.world Sample.stale_row)
  = (Returned (Some Sample.stale_account), Sample.world Sample.stale_row).
Proof. vm_compute. reflexivity. Qed.

Lemma sample_stale_expires :
  expires_by (H := sample_runtime) Sample.stale_account
             (now (Sample.world Sample.stale_row) + buffer_ms).
Proof.
  exists "2024-12-31T23:59:50.000Z", Sample.t_past.
  split; [reflexivity|]. split; [now vm_compute|].
  split; [now vm_compute|]. split; now vm_compute.
Defined.

Lemma C1_witness :
  exists account' w',
    DropboxService.ensureValidToken (H := sample_runtime) Sample.net_ok
      Sample.svc (Some Sample.stale_account) (Sample.world Sample.stale_row)
    = (Returned account', w')
    /\ posts w' = [refresh_request Sample.svc Sample.stale_account]
    /\ Account.dropboxAccessToken account' = Some "A2"
    /\ Account.dropboxTokenExpiresAt account'
       = Some (Iso8601.format (now w' + 3600 * 1000))
    /\ forall row,
         stored "default_account" (Sample.world Sample.stale_row) = Some row ->
         exists row',
           stored "default_account" w' = Some row'
           /\ Row.dropboxAccessToken row' = Some "A2"
           /\ Row.dropboxTokenExpiresAt row'
              = Some (Iso8601.format (now w' + 3600 * 1000)).
Proof.
  apply (C1_refresh_on_stale (H := sample_runtime) Sample.net_ok Sample.svc
           Sample.stale_account (Sample.world Sample.stale_row)
           (Sample.data "A2" None) 3600).
  - reflexivity.
  - exact sample_stale_expires.
  - reflexivity.
  - reflexivity.
  - reflexivity.
  - reflexivity.
  - split; now vm_compute.
Defined.

(** C1 as the claim has it: every stored credential whose [expiresAt] is
    within the buffer and whose refresh token is present would be
    refreshed with one exchange.  Here such a credential, without an access
    token and with a provider ready to answer, is turned away and no
    request is posted; and the credential of the specification's scenario,
    answered with a life time that ends beyond the last date there is, or
    with none at all, is answered with an error after the one exchange,
    and nothing is written. *)
Lemma C1_counterexample :
  (Account.find (H := sample_runtime) (Sample.world Sample.tokenless_row)
   = (Returned (Some Sample.tokenless_account),
      Sample.world Sample.tokenless_row)
   /\ expires_by (H := sample_runtime) Sample.tokenless_account
                 (Sample.t0 + buffer_ms)
   /\ Account.dropboxRefreshToken Sample.tokenless_account = Some "R1"
   /\ DropboxService.ensureValidToken (H := sample_runtime) Sample.net_ok
        Sample.svc (Some Sample.tokenless_account)
        (Sample.world Sample.tokenless_row)
      = (Thrown (Error "No access token available"),
         Sample.world Sample.tokenless_row))
  /\ (forall seconds,
         seconds = Some Sample.endless \/ seconds = None ->
         DropboxService.ensureValidToken (H := sample_runtime)
           (Sample.net_lasting seconds) Sample.svc
           (Some Sample.stale_account) (Sample.world Sample.stale_row)
         = (Thrown (Error
              "Token refresh failed: Failed to refresh access token: Invalid time value"),
            {| now := Sample.t0 + 250;
               accounts := [Sample.stale_row];
               posts := [refresh_request Sample.svc Sample.stale_account] |})).
Proof.
  split.
  - split; [now vm_compute|]. split; [|split; [reflexivity|now vm_compute]].
    exists "2024-12-31T23:59:50.000Z", Sample.t_past.
    split; [reflexivity|]. split; [now vm_compute|].
    split; [now vm_compute|]. split; now vm_compute.
  - intros seconds [-> | ->]; now vm_compute.
Qed.

Lemma C2_witness :
  DropboxService.ensureValidToken (H := sample_runtime) Sample.net_ok Sample.svc
    (Some Sample.fresh_account) (Sample.world Sample.fresh_row)
  = (Returned Sample.fresh_account, Sample.world Sample.fresh_row).
Proof.
  apply (C2_fresh_token_untouched (H := sample_runtime) Sample.net_ok Sample.svc).
  - now vm_compute.
  - reflexivity.
  - exists "2025-01-01T01:00:00.000Z", Sample.t_future.
    split; [reflexivity|]. split; now vm_compute.
Defined.

Lemma C3_witness :
  DropboxService.ensureValidToken (H := sample_runtime) Sample.net_ok Sample.svc
    (Some Sample.orphan_account) (Sample.world Sample.orphan_row)
  = (Thrown (Error
       (if truthy (Account.dropboxAccessToken Sample.orphan_account)
        then "Access token expired and no refresh token available. Please re-authenticate."
        else "No access token available")),
     Sample.world Sample.orphan_row).
Proof.
  apply (C3_no_refresh_token (H := sample_runtime) Sample.net_ok Sample.svc
           Sample.orphan_account (Sample.world Sample.orphan_row)).
  - right. right. exists "2024-12-31T23:59:50.000Z", Sample.t_past.
    split; [reflexivity|]. split; [now vm_compute|].
    split; [now vm_compute|]. split; now vm_compute.
  - reflexivity.
Defined.

(** C3 as the claim has it: every stale credential without a refresh token
    would fail with the re-authentication error.  Here a stored credential
    with neither token (stale: it has no access token, and its expiry is
    past) fails with the error of a missing account instead. *)
Lemma C3_counterexample :
  Account.find (H := sample_runtime) (Sample.world Sample.bare_row)
  = (Returned (Some Sample.bare_account), Sample.world Sample.bare_row)
  /\ stale (H := sample_runtime) Sample.t0 Sample.bare_account
  /\ Account.dropboxRefreshToken Sample.bare_account = None
  /\ DropboxService.ensureValidToken (H := sample_runtime) Sample.net_ok
       Sample.svc (Some Sample.bare_account) (Sample.world Sample.bare_row)
     = (Thrown (Error "No access token available"),
        Sample.world Sample.bare_row)
  /\ Error "No access token available"
     <> Error
          "Access token expired and no refresh token available. Please re-authenticate.".
Proof.
  split; [now vm_compute|]. split; [now left|]. split; [reflexivity|].
  split; [now vm_compute|]. discriminate.
Qed.

Lemma C4_witness :
  exists msg w',
    DropboxService.ensureValidToken (H := sample_runtime)
      (Sample.net_failing Sample.timeout) Sample.svc
      (Some Sample.stale_account) (Sample.world Sample.stale_row)
    = (Thrown (Error msg), w')
    /\ accounts w' = [Sample.stale_row]
    /\ stored "default_account" w'
       = stored "default_account" (Sample.world Sample.stale_row).
Proof.
  apply (C4_failure_leaves_store (H := sample_runtime)
           (Sample.net_failing Sample.timeout) Sample.svc
           Sample.stale_account (Sample.world Sample.stale_row) Sample.timeout).
  - reflexivity.
  - right. right. exact sample_stale_expires.
  - reflexivity.
  - reflexivity.
Defined.


Example rotation_stored :
  option_map Row.dropboxRefreshToken
    (stored "default_account"
       (snd (DropboxService.ensureValidToken (H := sample_runtime)
               Sample.net_rotating Sample.svc (Some Sample.stale_account)
               (Sample.world Sample.stale_row))))
  = Some (Some "R2").
Proof. vm_compute. reflexivity. Qed.

Example no_rotation_stored :
  option_map Row.dropboxRefreshToken
    (stored "default_account"
       (snd (DropboxService.ensureValidToken (H := sample_runtime)
               Sample.net_ok Sample.svc (Some Sample.stale_account)
               (Sample.world Sample.stale_row))))
  = Some (Some "R1").
Proof. vm_compute. reflexivity. Qed.

(** C6 as the claim has it: the failure of a request that got no answer and
    the rejection of the refresh token by the provider would reach the caller
    as different kinds of error.  Here a timeout and a rejection with status
    400 reach the caller as one and the same error. *)
Lemma C6_counterexample :
  response Sample.timeout = None
  /\ option_map status (response Sample.rejected) = Some 400
  /\ DropboxService.ensureValidToken (H := sample_runtime)
       (Sample.net_failing Sample.timeout) Sample.svc
       (Some Sample.stale_account) (Sample.world Sample.stale_row)
     = DropboxService.ensureValidToken (H := sample_runtime)
         (Sample.net_failing Sample.rejected) Sample.svc
         (Some Sample.stale_account) (Sample.world Sample.stale_row).
Proof.
  split; [reflexivity|]. split; [reflexivity|]. vm_compute. reflexivity.
Qed.

Lemma C6_witness :
  fst (DropboxService.ensureValidToken (H := sample_runtime)
         (Sample.net_failing Sample.revoked) Sample.svc
         (Some Sample.stale_account) (Sample.world Sample.stale_row))
  = Thrown (Error ("Token refresh failed: "
                     ++ ("Failed to refresh access token: "
                           ++ DropboxService.describe Sample.revoked))).
Proof.
  apply (C6_one_error_for_every_cause (H := sample_runtime)
           (Sample.net_failing Sample.revoked) Sample.svc
           Sample.stale_account (Sample.world Sample.stale_row) Sample.revoked).
  - reflexivity.
  - right. right. exact sample_stale_expires.
  - reflexivity.
  - reflexivity.
  - reflexivity.
Defined.

Example revoked_message :
  fst (DropboxService.ensureValidToken (H := sample_runtime)
         (Sample.net_failing Sample.revoked) Sample.svc
         (Some Sample.stale_account) (Sample.world Sample.stale_row))
  = Thrown (Error
      "Token refresh failed: Failed to refresh access token: refresh token is invalid or revoked").
Proof. vm_compute. reflexivity. Qed.

Example timeout_message :
  fst (DropboxService.ensureValidToken (H := sample_runtime)
         (Sample.net_failing Sample.timeout) Sample.svc
         (Some Sample.stale_account) (Sample.world Sample.stale_row))
  = Thrown (Error
      "Token refresh failed: Failed to refresh access token: timeout of 10000ms exceeded").
Proof. vm_compute. reflexivity. Qed.

(** C7 as the claim has it: an account with no access token but a usable
    refresh token would be refreshed.  Here such an account, expired, with a
    provider ready to answer, is turned away with the error of a missing
    account and no request is posted. *)
Lemma C7_counterexample :
  truthy (Account.dropboxRefreshToken Sample.tokenless_account) = true
  /\ DropboxService.ensureValidToken (H := sample_runtime) Sample.net_ok
       Sample.svc (Some Sample.tokenless_account)
       (Sample.world Sample.tokenless_row)
     = (Thrown (Error "No access token available"),
        Sample.world Sample.tokenless_row)
  /\ posts (snd (DropboxService.ensureValidToken (H := sample_runtime)
                   Sample.net_ok Sample.svc (Some Sample.tokenless_account)
                   (Sample.world Sample.tokenless_row)))
     = []
  /\ DropboxService.ensureValidToken (H := sample_runtime) Sample.net_ok
       Sample.svc None (Sample.world Sample.tokenless_row)
     = (Thrown (Error "No access token available"),
        Sample.world Sample.tokenless_row).
Proof.
  split; [reflexivity|]. split; [vm_compute; reflexivity|].
  split; vm_compute; reflexivity.
Qed.

Lemma C7_witness :
  DropboxService.ensureValidToken (H := sample_runtime) Sample.net_ok
    Sample.svc (Some Sample.tokenless_account)
    (Sample.world Sample.tokenless_row)
  = (Thrown (Error "No access token available"),
     Sample.world Sample.tokenless_row)
  /\ DropboxService.ensureValidToken (H := sample_runtime) Sample.net_ok
       Sample.svc (Some Sample.tokenless_account)
       (Sample.world Sample.tokenless_row)
     = DropboxService.ensureValidToken (H := sample_runtime) Sample.net_ok
         Sample.svc None (Sample.world Sample.tokenless_row).
Proof.
  apply (C7_no_access_token_no_refresh (H := sample_runtime) Sample.net_ok
           Sample.svc Sample.tokenless_account
           (Sample.world Sample.tokenless_row)).
  reflexivity.
Defined.

Lemma C8_witness :
  DropboxService.ensureValidToken (H := sample_runtime) Sample.net_ok Sample.svc
    (Some Sample.fresh_account) (Sample.world Sample.fresh_row)
  = (Returned Sample.fresh_account, Sample.world Sample.fresh_row).
Proof.
  apply (proj1 (proj2 (C8_one_staleness_rule (H := sample_runtime)
                         Sample.net_ok Sample.svc))
           Sample.fresh_account (Sample.world Sample.fresh_row)).
  - reflexivity.
  - now vm_compute.
Defined.

(** C8 as the claim has it: for every expiry, buffer and clock the exposed
    predicate would give the boolean of the check inside
    [ensureValidToken], and the comparison would not be duplicated with a
    different outcome.  Here a token good for another seven minutes is
    expired for the predicate at a buffer of ten minutes while
    [ensureValidToken] hands the account back without a refresh; and a
    token good for another two minutes is expired for the backend's
    predicate and not for the form's [isTokenExpired]. *)
Lemma C8_counterexample :
  (DropboxService.isTokenExpired (H := sample_runtime)
     (Account.dropboxTokenExpiresAt Sample.lasting_account) (Some 10)
     (Sample.world Sample.lasting_row)
   = (Returned true, Sample.world Sample.lasting_row)
   /\ DropboxService.ensureValidToken (H := sample_runtime) Sample.net_ok
        Sample.svc (Some Sample.lasting_account)
        (Sample.world Sample.lasting_row)
      = (Returned Sample.lasting_account, Sample.world Sample.lasting_row))
  /\ (DropboxService.isTokenExpired (H := sample_runtime) Sample.two_minutes
        None (Sample.world Sample.stale_row)
      = (Returned true, Sample.world Sample.stale_row)
      /\ CampaignBriefForm.isTokenExpired (H := sample_runtime)
           Sample.two_minutes (Sample.world Sample.stale_row)
         = (Returned false, Sample.world Sample.stale_row)).
Proof. repeat split; now vm_compute. Qed.

(** The browser's form has two predicates of its own: one with the buffer,
    which is the backend's, and one without, which is the backend's at
    buffer zero. *)
Lemma form_isTokenExpiringSoon `{JsRuntime} (expiresAt : option string)
  (bufferMinutes : option Z) (w : World) :
  CampaignBriefForm.isTokenExpiringSoon expiresAt bufferMinutes w
  = DropboxService.isTokenExpired expiresAt bufferMinutes w.
Proof. reflexivity. Qed.

Lemma form_isTokenExpired `{JsRuntime} (expiresAt : option string) (w : World) :
  - max_time <= now w <= max_time ->
  CampaignBriefForm.isTokenExpired expiresAt w
  = DropboxService.isTokenExpired expiresAt (Some 0) w.
Proof.
  intros Hclock.
  unfold CampaignBriefForm.isTokenExpired, DropboxService.isTokenExpired.
  destruct (truthy expiresAt); [|reflexivity].
  cbn -[TimeClip Z.add Z.mul]. rewrite Z.add_0_r.
  now rewrite TimeClip_in_range.
Qed.

(** C9 as the claim has it: simultaneous callers against one stale credential
    would cause at most one exchange and all get the same access token.
    Here two callers that both start before either reply is in post two
    requests, and one gets [A2], the other [A3]. *)
Lemma C9_counterexample :
  let p := EventLoop.run (H := sample_runtime) Sample.net_minting Sample.svc
             [0; 1; 0; 1]%nat
             (EventLoop.spawn [Some Sample.stale_account; Some Sample.stale_account]
                              (Sample.world Sample.stale_row)) in
  length (posts (EventLoop.world p)) = 2%nat
  /\ map EventLoop.received (EventLoop.tasks p)
     = [Some (Some "A2"); Some (Some "A3")].
Proof. vm_compute. split; reflexivity. Qed.

Lemma C9_witness :
  let p := EventLoop.run (H := sample_runtime) Sample.net_minting Sample.svc
             [0; 1]%nat
             (EventLoop.spawn [Some Sample.stale_account; Some Sample.stale_account]
                              (Sample.world Sample.stale_row)) in
  (length (posts (EventLoop.world p)) <= 0 + 2)%nat
  /\ exists (account' : Account.object SampleJson.value) data,
       EventLoop.tasks (EventLoop.step Sample.net_minting Sample.svc p 1%nat)
         !! 1%nat
       = Some (EventLoop.Settled (Returned account'))
       /\ result (Sample.net_minting 1%nat
                    (refresh_request Sample.svc Sample.stale_account))
          = inr data
       /\ Account.dropboxAccessToken account'
          = Some (ResponseData.access_token data).
Proof.
  intros p.
  pose proof (C9_one_exchange_per_caller (H := sample_runtime)
                Sample.net_minting Sample.svc) as [Hbound Hown].
  split.
  - apply (Hbound [Some Sample.stale_account; Some Sample.stale_account]
                  (Sample.world Sample.stale_row) [0; 1]%nat).
  - eexists.
    assert (Hstep :
      EventLoop.tasks (EventLoop.step Sample.net_minting Sample.svc p 1%nat)
        !! 1%nat
      = Some (EventLoop.Settled (Returned
          (@Account.Build_object SampleJson.value
             "default_account" (Some "A3") (Some "R1")
             (Some "2025-01-01T01:00:00.250Z")
             (Some "https://www.dropbox.com/s/logo.png?dl=0&raw=1")
             SampleJson.BrandPalette
             "2024-12-01T09:30:00.000Z"
             "2025-01-01T00:00:00.250Z")))).
    { vm_compute. reflexivity. }
    destruct (Hown p 1%nat Sample.stale_account _
                (refresh_request Sample.svc Sample.stale_account) 1%nat Sample.t0
                eq_refl Hstep) as (data & Hdata & Htoken).
    exists data. split; [exact Hstep|]. split; assumption.
Defined.

Lemma sample_well_kept :
  well_kept (H := sample_runtime) (accounts (Sample.world Sample.stale_row)).
Proof.
  split.
  - constructor; [intros [] | constructor].
  - constructor; [|constructor].
    exists SampleJson.BrandPalette. reflexivity.
Defined.

Lemma C10_witness :
  exists account' w' row rest row',
    DropboxService.ensureValidToken (H := sample_runtime) Sample.net_rotating
      Sample.svc (Some Sample.stale_account) (Sample.world Sample.stale_row)
    = (Returned account', w')
    /\ accounts (Sample.world Sample.stale_row) = row :: rest
    /\ accounts w' = row' :: rest
    /\ frame row' = frame row
    /\ Account.id account' = "default_account"
    /\ Account.brandLogo account' = Account.brandLogo Sample.stale_account
    /\ Account.brandColors account' = SampleJson.BrandPalette
    /\ Account.createdAt account' = "2024-12-01T09:30:00.000Z".
Proof.
  apply (C10_refresh_frame (H := sample_runtime) Sample.net_rotating Sample.svc
           sample_parse_stringify sample_stringify_nonempty
           Sample.stale_account (Sample.world Sample.stale_row)
           (Sample.data "A2" (Some "R2")) 3600).
  - exact sample_well_kept.
  - now vm_compute.
  - reflexivity.
  - right. right. exact sample_stale_expires.
  - reflexivity.
  - reflexivity.
  - reflexivity.
  - reflexivity.
  - split; now vm_compute.
Defined.

(** C10 as the claim has it: a refresh would leave [brandLogo] and
    [brandColors] of the stored record as they are.  Here the settings form
    stores a new logo while the exchange of a refresh is awaited; when the
    reply is in, the refresh writes the logo of the account object it
    loaded before, and the new logo is gone from the record. *)
Lemma C10_counterexample :
  let called :=
    EventLoop.spawn (H := sample_runtime) [Some Sample.stale_account]
                    (Sample.world Sample.stale_row) in
  let awaiting := EventLoop.step Sample.net_ok Sample.svc called 0%nat in
  let saved :=
    snd (Server.put_api_account (H0 := sample_objects) Samples.new_logo
           (EventLoop.world awaiting)) in
  let settled :=
    EventLoop.step Sample.net_ok Sample.svc
      {| EventLoop.world := saved; EventLoop.tasks := EventLoop.tasks awaiting |}
      0%nat in
  length (posts (EventLoop.world awaiting)) = 1%nat
  /\ option_map Row.brandLogo (stored "default_account" saved)
     = Some (Some "https://www.dropbox.com/s/new-logo.png?dl=0&raw=1")
  /\ map EventLoop.received (EventLoop.tasks settled) = [Some (Some "A2")]
  /\ option_map Row.brandLogo
       (stored "default_account" (EventLoop.world settled))
     = Some (Some "https://www.dropbox.com/s/logo.png?dl=0&raw=1").
Proof. vm_compute. repeat split; reflexivity. Qed.

(** * Further properties *)

(** ** The accounts table under [Account]'s operations *)

Section AccountFacts.
Context `{JsonObjects}.
Variable net : Network.
Variable this : DropboxService.t.

Hypothesis JSON_parse_stringify :
  forall v, JSON_parse (JSON_stringify v) = Some v.
Hypothesis JSON_stringify_nonempty :
  forall v, JSON_stringify v <> "".

Lemma find_empty (w : World) :
  accounts w = [] -> Account.find w = (Returned None, w).
Proof. intros Hw. unfold Account.find. now rewrite Hw. Qed.

Lemma find_first (w : World) (row : Row.t) (rest : list Row.t)
  (v : JSON_value) :
  accounts w = row :: rest ->
  Row.brandColors row = JSON_stringify v ->
  Account.find w = (Returned (Some (load row v)), w).
Proof.
  intros Hw Hv. unfold Account.find. rewrite Hw, Hv.
  destruct (String.eqb_spec (JSON_stringify v) "") as [Hempty|_].
  - now apply JSON_stringify_nonempty in Hempty.
  - rewrite JSON_parse_stringify. reflexivity.
Qed.

Lemma find_world (w w' : World) (r : Outcome (option Account.t)) :
  Account.find w = (r, w') -> w' = w.
Proof.
  unfold Account.find. destruct (accounts w); [now intros [= _ <-]|].
  destruct (JSON_parse _); now intros [= _ <-].
Qed.

Lemma updated_table_ids (d : Account.UpdatedData.t) (key : string)
  (table : list Row.t) :
  map Row.id (updated_table d key table) = map Row.id table.
Proof.
  unfold updated_table. induction table as [|row table IH]; [reflexivity|].
  cbn [map]. rewrite IH. now destruct (String.eqb (Row.id row) key).
Qed.

Lemma updated_table_canonical (d : Account.UpdatedData.t) (key : string)
  (table : list Row.t) :
  List.Forall (fun row => exists v, Row.brandColors row = JSON_stringify v) table ->
  List.Forall (fun row => exists v, Row.brandColors row = JSON_stringify v)
              (updated_table d key table).
Proof.
  unfold updated_table. induction 1 as [|row table Hrow _ IH]; [constructor|].
  cbn [map]. constructor; [|exact IH].
  destruct (String.eqb (Row.id row) key); [|exact Hrow].
  eexists. reflexivity.
Qed.

Lemma updated_table_well_kept (d : Account.UpdatedData.t) (key : string)
  (table : list Row.t) :
  well_kept table -> well_kept (updated_table d key table).
Proof.
  intros [Hkey Hjson]. split.
  - now rewrite updated_table_ids.
  - now apply updated_table_canonical.
Qed.

Lemma update_table (account : Account.t) (updates : Account.Updates.t)
  (w w' : World) (r : Outcome Account.t) :
  Account.update account updates w = (r, w') ->
  exists d, accounts w' = updated_table d (Account.id account) (accounts w)
            /\ posts w' = posts w /\ now w' = now w.
Proof.
  rewrite update_run. intros [= _ <-]. eexists. repeat split.
Qed.

(** The outcomes of [ensureValidToken] on an account, one by one. *)
Lemma ensureValidToken_cases (account : Account.t) (w : World) :
  (exists e, DropboxService.ensureValidToken net this (Some account) w
             = (Thrown e, w))
  \/ DropboxService.ensureValidToken net this (Some account) w
     = (Returned account, w)
  \/ (exists e,
        DropboxService.ensureValidToken net this (Some account) w
        = (Thrown e,
           after_post w (refresh_request this account)
             (net (length (posts w)) (refresh_request this account))))
  \/ (exists data expiry,
        result (net (length (posts w)) (refresh_request this account)) = inr data
        /\ truthy (Account.dropboxAccessToken account) = true
        /\ let arrived :=
             now w + Z.of_N (elapsed (net (length (posts w))
                                          (refresh_request this account))) in
           let d := refreshed_data account data arrived expiry in
           DropboxService.ensureValidToken net this (Some account) w
           = (Returned (Account.assign account d),
              {| now := arrived;
                 accounts := updated_table d (Account.id account) (accounts w);
                 posts := posts w ++ [refresh_request this account] |})).
Proof.
  destruct (truthy (Account.dropboxAccessToken account)) eqn:Ha.
  2:{ left. eexists. now apply ensureValidToken_no_token. }
  destruct (isTokenExpired_total (Account.dropboxTokenExpiresAt account) None w)
    as [[|] He].
  2:{ right. left. now apply ensureValidToken_unexpired. }
  destruct (truthy (Account.dropboxRefreshToken account)) eqn:Hrt.
  2:{ left. eexists. now apply ensureValidToken_no_refresh_token. }
  destruct (DropboxService.isAvailable this) eqn:Hav.
  2:{ left. eexists. now apply ensureValidToken_unconfigured. }
  destruct (result (net (length (posts w)) (refresh_request this account)))
    as [e|data] eqn:Hr.
  - right. right. left. eexists.
    eapply ensureValidToken_exchange_failed; eassumption.
  - destruct (new_expiry
                (now w + Z.of_N (elapsed (net (length (posts w))
                                              (refresh_request this account))))
                data) as [expiry|] eqn:Hexpiry.
    + right. right. right. exists data, expiry. split; [reflexivity|].
      split; [reflexivity|].
      exact (ensureValidToken_refreshed net this account w data expiry
               Ha He Hrt Hav Hr Hexpiry).
    + right. right. left. eexists.
      eapply ensureValidToken_invalid_expiry; eassumption.
Qed.

Lemma find_none (w w' : World) :
  Account.find w = (Returned None, w') -> accounts w = [].
Proof.
  unfold Account.find. destruct (accounts w); [reflexivity|].
  destruct (JSON_parse _); discriminate.
Qed.

Lemma find_some_id (w w' : World) (account : Account.t) :
  Account.find w = (Returned (Some account), w') ->
  exists row rest, accounts w = row :: rest /\ Account.id account = Row.id row.
Proof.
  unfold Account.find. destruct (accounts w) as [|row rest]; [discriminate|].
  destruct (JSON_parse _); [|discriminate].
  intros [= <- _]. now exists row, rest.
Qed.

Lemma filter_ids_NoDup (key : string) (table : list Row.t) :
  List.NoDup (map Row.id table) ->
  List.NoDup (map Row.id
                (List.filter (fun row => negb (String.eqb (Row.id row) key)) table)).
Proof.
  induction table as [|row table IH]; [trivial|].
  cbn [map List.filter]. intros Hnd.
  inversion Hnd as [|? ? Hfresh Hrest]; subst.
  destruct (negb (String.eqb (Row.id row) key)); [|now apply IH].
  cbn [map]. constructor; [|now apply IH].
  intros Hin. apply Hfresh.
  apply List.in_map_iff in Hin. destruct Hin as (other & Hid & Hin).
  apply List.filter_In in Hin. destruct Hin as [Hin _].
  apply List.in_map_iff. now exists other.
Qed.

Lemma filter_well_kept (key : string) (table : list Row.t) :
  well_kept table ->
  well_kept (List.filter (fun row => negb (String.eqb (Row.id row) key)) table).
Proof.
  intros [Hkey Hjson]. split; [now apply filter_ids_NoDup|].
  apply List.Forall_forall. intros row Hin.
  apply List.filter_In in Hin. destruct Hin as [Hin _].
  revert row Hin. now apply List.Forall_forall.
Qed.

Lemma ensureValidToken_well_kept (account : option Account.t) (w : World) :
  well_kept (accounts w) ->
  well_kept (accounts (snd (DropboxService.ensureValidToken net this account w))).
Proof.
  intros Hkept. destruct account as [account|]; [|exact Hkept].
  destruct (ensureValidToken_cases account w)
    as [[e ->] | [-> | [[e ->] | (data & expiry & _ & _ & Hrun)]]];
    try exact Hkept.
  cbv zeta in Hrun. rewrite Hrun. cbn [snd accounts].
  now apply updated_table_well_kept.
Qed.

Lemma upsert_well_kept (accountData : Account.Updates.t) (w : World) :
  well_kept (accounts w) ->
  well_kept (accounts (snd (Accounts.upsert accountData w))).
Proof.
  intros Hkept. unfold Accounts.upsert.
  rewrite (bind_returned Date_now _ w w (now w) eq_refl).
  destruct (Account.find w) as [[[existing|]|e] w1] eqn:Hfind;
    pose proof (find_world _ _ _ Hfind) as ->.
  - rewrite (bind_returned _ _ _ _ _ Hfind).
    rewrite (bind_returned _ _ _ _ _ (update_run _ _ _)).
    cbn [snd ret accounts]. now apply updated_table_well_kept.
  - rewrite (bind_returned _ _ _ _ _ Hfind).
    pose proof (find_none _ _ Hfind) as Hempty.
    unfold bind at 1, try_catch, Accounts.run_insert.
    rewrite Hempty. cbn [existsb app].
    match goal with
    | |- well_kept (accounts (snd (Account.find ?w2))) =>
        destruct (Account.find w2) as [r w3] eqn:Hfind2;
        pose proof (find_world _ _ _ Hfind2) as ->
    end.
    cbn [snd accounts]. split.
    + constructor; [intros [] | constructor].
    + constructor; [|constructor]. eexists. reflexivity.
  - rewrite (bind_thrown _ _ _ _ _ Hfind). exact Hkept.
Qed.

(** X1: every writer keeps the accounts table well kept (unique ids,
    [brandColors] always the output of [JSON.stringify]): [Account.upsert],
    [update], [delete], and [ensureValidToken] whatever its outcome. *)
Theorem writers_keep_table (w : World) :
  well_kept (accounts w) ->
  (forall accountData,
      well_kept (accounts (snd (Accounts.upsert accountData w))))
  /\ (forall account updates,
         well_kept (accounts (snd (Account.update account updates w))))
  /\ (forall account,
         well_kept (accounts (snd (Accounts.delete account w))))
  /\ (forall account,
         well_kept (accounts
                      (snd (DropboxService.ensureValidToken net this account w)))).
Proof.
  intros Hkept. split; [|split; [|split]].
  - intros accountData. now apply upsert_well_kept.
  - intros account updates. rewrite update_run. cbn [snd accounts].
    now apply updated_table_well_kept.
  - intros account. cbn. now apply filter_well_kept.
  - intros account. now apply ensureValidToken_well_kept.
Qed.

(** X2: [Account.upsert] keeps the account a singleton: on a table with at
    most the default account, an upsert that returns leaves exactly one
    record, the default account. *)
Theorem upsert_keeps_singleton (accountData : Account.Updates.t) (w w' : World)
  (r : option Account.t) :
  default_only (accounts w) ->
  Accounts.upsert accountData w = (Returned r, w') ->
  exists row, accounts w' = [row] /\ Row.id row = "default_account".
Proof.
  intros [Hlen Hids]. unfold Accounts.upsert.
  rewrite (bind_returned Date_now _ w w (now w) eq_refl).
  destruct (Account.find w) as [[[existing|]|e] w1] eqn:Hfind;
    pose proof (find_world _ _ _ Hfind) as ->.
  - rewrite (bind_returned _ _ _ _ _ Hfind).
    rewrite (bind_returned _ _ _ _ _ (update_run _ _ _)).
    intros [= _ <-]. cbn [accounts].
    destruct (find_some_id _ _ _ Hfind) as (row & rest & Hrows & Hid).
    rewrite Hrows in Hlen, Hids |- *.
    destruct rest; [|cbn in Hlen; lia].
    inversion Hids as [|? ? Hrow _]; subst.
    unfold updated_table. cbn [map]. rewrite Hid, String.eqb_refl.
    eexists. split; [reflexivity|]. exact Hrow.
  - rewrite (bind_returned _ _ _ _ _ Hfind).
    pose proof (find_none _ _ Hfind) as Hempty.
    unfold bind at 1, try_catch, Accounts.run_insert.
    rewrite Hempty. cbn [existsb app].
    intros Hfind2. apply find_world in Hfind2 as ->. cbn [accounts].
    eexists. split; reflexivity.
  - rewrite (bind_thrown _ _ _ _ _ Hfind). discriminate.
Qed.


(** X4: on a table that holds the default account [Account.upsert] merges:
    a field that is left out keeps the stored value, a field that is given
    is stored as given, [null] and the empty string included; [id] and
    [createdAt] stay, and nothing is inserted. *)
Theorem upsert_merges_existing (accountData : Account.Updates.t) (w : World)
  (row : Row.t) (v : JSON_value) :
  accounts w = [row] ->
  Row.brandColors row = JSON_stringify v ->
  exists account' row',
    Accounts.upsert accountData w
    = (Returned (Some account'),
       {| now := now w; accounts := [row']; posts := posts w |})
    /\ Row.id row' = Row.id row
    /\ Row.createdAt row' = Row.createdAt row
    /\ Row.dropboxAccessToken row'
       = default (Row.dropboxAccessToken row)
                 (Account.Updates.dropboxAccessToken accountData)
    /\ Row.dropboxRefreshToken row'
       = default (Row.dropboxRefreshToken row)
                 (Account.Updates.dropboxRefreshToken accountData)
    /\ Row.dropboxTokenExpiresAt row'
       = default (Row.dropboxTokenExpiresAt row)
                 (Account.Updates.dropboxTokenExpiresAt accountData)
    /\ Row.brandLogo row'
       = default (Row.brandLogo row) (Account.Updates.brandLogo accountData)
    /\ Row.brandColors row'
       = match Account.Updates.brandColors accountData with
         | Some colors => JSON_stringify colors
         | None => Row.brandColors row
         end.
Proof.
  intros Hrows Hv. unfold Accounts.upsert.
  rewrite (bind_returned Date_now _ w w (now w) eq_refl).
  rewrite (bind_returned _ _ _ _ _ (find_first w row [] v Hrows Hv)).
  rewrite (bind_returned _ _ _ _ _ (update_run _ _ _)).
  rewrite Hrows. unfold updated_table. cbn [map load Account.id].
  rewrite String.eqb_refl.
  eexists. eexists. split; [reflexivity|].
  cbn. repeat (split; [reflexivity|]).
  destruct (Account.Updates.brandColors accountData); [reflexivity|].
  cbn. now rewrite Hv.
Qed.

Lemma updated_table_missing (d : Account.UpdatedData.t) (key : string)
  (w : World) :
  stored key w = None -> updated_table d key (accounts w) = accounts w.
Proof.
  unfold stored, updated_table.
  induction (accounts w) as [|row table IH]; [reflexivity|].
  cbn [List.find map].
  destruct (String.eqb (Row.id row) key); [discriminate|].
  intros Hnone. f_equal. now apply IH.
Qed.

(** X5: [Account.update] does not check that a record was changed.  When the
    record of the account is no longer in the table, a refresh by
    [ensureValidToken] whose exchange comes back with an [expires_in] that
    gives a date still returns the account with the new access token,
    without an error, and nothing is written: the new token is not stored
    anywhere. *)
Theorem refresh_of_missing_record_is_lost (account : Account.t) (w : World)
  (data : ResponseData.t) (seconds : Z) :
  stored (Account.id account) w = None ->
  truthy (Account.dropboxAccessToken account) = true ->
  stale (now w) account ->
  truthy (Account.dropboxRefreshToken account) = true ->
  DropboxService.isAvailable this = true ->
  result (net (length (posts w)) (refresh_request this account)) = inr data ->
  ResponseData.expires_in data = Some seconds ->
  - max_time
  <= now w + Z.of_N (elapsed (net (length (posts w))
                                  (refresh_request this account)))
     + seconds * 1000
  <= max_time ->
  exists account' w',
    DropboxService.ensureValidToken net this (Some account) w
    = (Returned account', w')
    /\ Account.dropboxAccessToken account'
       = Some (ResponseData.access_token data)
    /\ accounts w' = accounts w
    /\ posts w' = (posts w ++ [refresh_request this account])%list.
Proof.
  intros Hmissing Ha Hstale Hrt Hav Hr Hs Hrange.
  assert (He := stale_expired account w Ha Hstale).
  pose proof (ensureValidToken_refreshed net this account w data _
                Ha He Hrt Hav Hr (new_expiry_in_range _ _ _ Hs Hrange))
    as Hrun.
  cbv zeta in Hrun. rewrite Hrun.
  eexists. eexists. split; [reflexivity|].
  split; [reflexivity|]. split; [|reflexivity].
  cbn [accounts]. now apply updated_table_missing.
Qed.

Lemma stored_filter_same (key : string) (table : list Row.t) :
  List.find (fun row => String.eqb (Row.id row) key)
    (List.filter (fun row => negb (String.eqb (Row.id row) key)) table)
  = None.
Proof.
  induction table as [|row table IH]; [reflexivity|].
  cbn [List.filter]. destruct (String.eqb (Row.id row) key) eqn:Hk; cbn [negb].
  - exact IH.
  - cbn [List.find]. now rewrite Hk.
Qed.

Lemma stored_filter_other (key other : string) (table : list Row.t) :
  other <> key ->
  List.find (fun row => String.eqb (Row.id row) other)
    (List.filter (fun row => negb (String.eqb (Row.id row) key)) table)
  = List.find (fun row => String.eqb (Row.id row) other) table.
Proof.
  intros Hne. induction table as [|row table IH]; [reflexivity|].
  cbn [List.filter List.find].
  destruct (String.eqb_spec (Row.id row) key) as [Hk|Hk]; cbn [negb].
  - destruct (String.eqb_spec (Row.id row) other) as [Ho|_]; [congruence|].
    exact IH.
  - cbn [List.find]. now rewrite IH.
Qed.

(** X6: [delete] returns [true] and removes the record of the account and
    no other: afterwards nothing is stored under its id, every other id
    holds what it held, and on a table that held only the default account
    [Account.find] now gives [null]. *)
Theorem delete_removes_account (account : Account.t) (w : World) :
  exists w',
    Accounts.delete account w = (Returned true, w')
    /\ stored (Account.id account) w' = None
    /\ (forall other, other <> Account.id account ->
                      stored other w' = stored other w)
    /\ (default_only (accounts w) ->
        Account.id account = "default_account" ->
        Account.find w' = (Returned None, w')).
Proof.
  eexists. split; [reflexivity|]. cbn [accounts]. split; [|split].
  - apply stored_filter_same.
  - intros other Hne. now apply stored_filter_other.
  - intros [Hlen Hids] Hid. apply find_empty. cbn [accounts].
    destruct (accounts w) as [|row rest]; [reflexivity|].
    destruct rest; [|cbn in Hlen; lia].
    inversion Hids as [|? ? Hrow _]; subst.
    cbn [List.filter]. now rewrite Hrow, Hid, String.eqb_refl.
Qed.

Lemma find_after_update (w : World) (row : Row.t) (rest : list Row.t)
  (v : JSON_value) (d : Account.UpdatedData.t) (w' : World) :
  accounts w = row :: rest ->
  accounts w' = updated_table d (Row.id row) (accounts w) ->
  Account.find w' = (Returned (Some (Account.assign (load row v) d)), w').
Proof.
  intros Hrows Hw'. rewrite Hrows in Hw'.
  unfold updated_table in Hw'. cbn [map] in Hw'.
  rewrite String.eqb_refl in Hw'.
  now rewrite (find_first w' _ _ (Account.UpdatedData.brandColors d) Hw' eq_refl).
Qed.

(** [Account.find] after an [ensureValidToken] that returned gives the
    returned account. *)
Lemma find_after_ensureValidToken (account account' : Account.t)
  (w w' : World) :
  well_kept (accounts w) ->
  Account.find w = (Returned (Some account), w) ->
  DropboxService.ensureValidToken net this (Some account) w
  = (Returned account', w') ->
  Account.find w' = (Returned (Some account'), w').
Proof.
  intros [_ Hjson] Hfind Hrun.
  destruct (find_some_id _ _ _ Hfind) as (row & rest & Hrows & Hid).
  rewrite Hrows in Hjson. inversion Hjson as [|? ? [v Hv] _]; subst.
  rewrite (find_first w row rest v Hrows Hv) in Hfind.
  injection Hfind as <-.
  destruct (ensureValidToken_cases (load row v) w)
    as [[e He] | [Hsame | [[e He] | (data & expiry & _ & _ & Hrefresh)]]].
  - rewrite He in Hrun. discriminate.
  - rewrite Hsame in Hrun. injection Hrun as <- <-.
    now apply (find_first w row rest v).
  - rewrite He in Hrun. discriminate.
  - cbv zeta in Hrefresh. rewrite Hrefresh in Hrun.
    injection Hrun as <- <-.
    now apply (find_after_update w row rest).
Qed.

(** X7: what [ensureValidToken] hands back is what is stored.  For the
    account loaded by [Account.find] from a well-kept table, whenever
    [ensureValidToken] returns, a fresh [Account.find] gives exactly the
    returned account, refreshed or not. *)
Theorem returned_account_is_stored (account account' : Account.t)
  (w w' : World) :
  well_kept (accounts w) ->
  Account.find w = (Returned (Some account), w) ->
  DropboxService.ensureValidToken net this (Some account) w
  = (Returned account', w') ->
  Account.find w' = (Returned (Some account'), w').
Proof. exact (find_after_ensureValidToken account account' w w'). Qed.

End AccountFacts.

(** ** The staleness predicate on its own *)

Section StalenessFacts.
Context `{JsRuntime}.
Variable net : Network.
Variable this : DropboxService.t.

(** [isTokenExpired] is monotone in the clock and in the buffer, as long as
    the clock plus the buffer is a time a [Date] can hold. *)
Lemma isTokenExpired_monotone (expiresAt : option string)
  (b b' : option Z) (w w' : World) :
  DropboxService.isTokenExpired expiresAt b w = (Returned true, w) ->
  now w <= now w' ->
  default 5 b <= default 5 b' ->
  now w' + default 5 b' * 60 * 1000 <= max_time ->
  DropboxService.isTokenExpired expiresAt b' w' = (Returned true, w').
Proof.
  intros He Hclock Hbuffer Hrange.
  destruct (truthy expiresAt) eqn:Ht.
  - rewrite isTokenExpired_present in He |- * by assumption.
    injection He as He. f_equal. f_equal.
    unfold date_le in He |- *.
    destruct (new_Date expiresAt) as [t|]; [|discriminate].
    destruct (TimeClip (now w + default 5 b * 60 * 1000)) as [deadline|] eqn:Hclip;
      [|discriminate].
    apply TimeClip_Some in Hclip. destruct Hclip as [-> [Hlo _]].
    rewrite TimeClip_in_range by lia.
    apply Z.leb_le in He. apply Z.leb_le. lia.
  - now apply isTokenExpired_absent.
Qed.

(** Beyond the last date there is, nothing is expired that has an expiry. *)
Lemma isTokenExpired_beyond (expiresAt : option string) (b : option Z)
  (w : World) :
  truthy expiresAt = true ->
  max_time < now w + default 5 b * 60 * 1000 ->
  DropboxService.isTokenExpired expiresAt b w = (Returned false, w).
Proof.
  intros Ht Hbeyond. rewrite isTokenExpired_present by assumption.
  rewrite TimeClip_out_of_range by assumption.
  unfold date_le. now destruct (new_Date expiresAt).
Qed.

(** X8: staleness only grows, up to the last date there is.  A token that
    [isTokenExpired] calls expired at some clock and buffer is called
    expired at every later clock and larger buffer whose sum is a time a
    [Date] can hold; past that, the buffer time is an Invalid Date and a
    token that has an expiry is not called expired. *)
Theorem expired_stays_expired (expiresAt : option string)
  (b b' : option Z) (w w' : World) :
  DropboxService.isTokenExpired expiresAt b w = (Returned true, w) ->
  now w <= now w' ->
  default 5 b <= default 5 b' ->
  DropboxService.isTokenExpired expiresAt b' w'
  = (Returned
       ((now w' + default 5 b' * 60 * 1000 <=? max_time)
        || negb (truthy expiresAt)), w').
Proof.
  intros He Hclock Hbuffer.
  destruct (Z.leb_spec (now w' + default 5 b' * 60 * 1000) max_time)
    as [Hrange|Hbeyond].
  - now apply (isTokenExpired_monotone expiresAt b b' w w').
  - destruct (truthy expiresAt) eqn:Ht.
    + now apply isTokenExpired_beyond.
    + now apply isTokenExpired_absent.
Qed.

(** X9: in the settings form a token shown as expired is also shown as
    expiring soon, for every non-negative buffer that keeps the buffer time
    within the times a [Date] can hold. *)
Theorem form_expired_is_expiring_soon (expiresAt : option string)
  (bufferMinutes : option Z) (w : World) :
  CampaignBriefForm.isTokenExpired expiresAt w = (Returned true, w) ->
  0 <= default 5 bufferMinutes ->
  - max_time <= now w ->
  now w + default 5 bufferMinutes * 60 * 1000 <= max_time ->
  CampaignBriefForm.isTokenExpiringSoon expiresAt bufferMinutes w
  = (Returned true, w).
Proof.
  intros He Hb Hlo Hhi. rewrite form_isTokenExpired in He by lia.
  rewrite form_isTokenExpiringSoon.
  now apply (isTokenExpired_monotone expiresAt (Some 0) bufferMinutes w w).
Qed.

(** X10: an [expiresAt] that is a non-empty string but not a date never
    expires: the comparison with an Invalid Date is false, so at every clock
    [isTokenExpired] says false and [ensureValidToken] hands the account
    back untouched, without a request. *)
Theorem unreadable_expiry_never_expires (account : Account.t) (s : string)
  (w : World) :
  truthy (Account.dropboxAccessToken account) = true ->
  Account.dropboxTokenExpiresAt account = Some s ->
  s <> "" ->
  Date_parse s = None ->
  (forall b, DropboxService.isTokenExpired (Some s) b w = (Returned false, w))
  /\ DropboxService.ensureValidToken net this (Some account) w
     = (Returned account, w).
Proof.
  intros Ha Hs Hne Hparse.
  assert (Ht : truthy (Some s) = true).
  { cbn. now destruct (String.eqb_spec s ""). }
  assert (Hfalse : forall b,
             DropboxService.isTokenExpired (Some s) b w = (Returned false, w)).
  { intros b. rewrite isTokenExpired_present by assumption.
    cbn [new_Date]. now rewrite Hparse. }
  split; [exact Hfalse|].
  apply ensureValidToken_unexpired; [assumption|].
  rewrite Hs. apply Hfalse.
Qed.

(** X11: a refresh makes the credential fresh.  When the new expiry is a
    date that lies beyond the buffer and reads back as written, a second
    [ensureValidToken] on the account just returned, at the clock of the
    return, hands it back untouched: no second request, no second write. *)
Theorem refresh_then_fresh (account : Account.t) (w : World)
  (data : ResponseData.t) (seconds : Z) :
  truthy (Account.dropboxAccessToken account) = true ->
  stale (now w) account ->
  truthy (Account.dropboxRefreshToken account) = true ->
  DropboxService.isAvailable this = true ->
  result (net (length (posts w)) (refresh_request this account)) = inr data ->
  ResponseData.access_token data <> "" ->
  ResponseData.expires_in data = Some seconds ->
  buffer_ms < seconds * 1000 ->
  (let expiry :=
     now w + Z.of_N (elapsed (net (length (posts w))
                                  (refresh_request this account)))
     + seconds * 1000 in
   - max_time <= expiry <= max_time
   /\ Date_parse (toISOString expiry) = Some expiry) ->
  Date_parse "" = None ->
  exists account' w',
    DropboxService.ensureValidToken net this (Some account) w
    = (Returned account', w')
    /\ DropboxService.ensureValidToken net this (Some account') w'
       = (Returned account', w').
Proof.
  intros Ha Hstale Hrt Hav Hr Htoken Hs Hlong [Hrange Hround] Hempty.
  assert (He := stale_expired account w Ha Hstale).
  pose proof (ensureValidToken_refreshed net this account w data _
                Ha He Hrt Hav Hr (new_expiry_in_range _ _ _ Hs Hrange))
    as Hrun.
  cbv zeta in Hrun. rewrite Hrun.
  eexists. eexists. split; [reflexivity|].
  apply ensureValidToken_unexpired.
  - cbn. now destruct (String.eqb_spec (ResponseData.access_token data) "").
  - apply (fresh_unexpired Hempty).
    eexists. eexists. split; [reflexivity|]. split; [exact Hround|].
    cbn [now]. lia.
Qed.

End StalenessFacts.

(** ** The callers in the server *)

Section ServerFacts.
Context `{JsonObjects}.
Variable net : Network.
Variable dropboxService : DropboxService.t.

Hypothesis JSON_parse_stringify :
  forall v, JSON_parse (JSON_stringify v) = Some v.
Hypothesis JSON_stringify_nonempty :
  forall v, JSON_stringify v <> "".

(** What [ensureValidToken] throws for an account that has an access token,
    and what it has done by then. *)
Lemma ensureValidToken_thrown (account : Account.t) (w w' : World) (e : Exn) :
  truthy (Account.dropboxAccessToken account) = true ->
  DropboxService.ensureValidToken net dropboxService (Some account) w
  = (Thrown e, w') ->
  accounts w' = accounts w
  /\ ((truthy (Account.dropboxRefreshToken account) = false
       /\ w' = w
       /\ e = Error
            "Access token expired and no refresh token available. Please re-authenticate.")
      \/ (truthy (Account.dropboxRefreshToken account) = true
          /\ exists m, e = Error ("Token refresh failed: " ++ m))).
Proof.
  intros Ha Hrun.
  destruct (isTokenExpired_total (Account.dropboxTokenExpiresAt account) None w)
    as [[|] He].
  2:{ rewrite ensureValidToken_unexpired in Hrun by assumption. discriminate. }
  destruct (truthy (Account.dropboxRefreshToken account)) eqn:Hrt.
  2:{ rewrite ensureValidToken_no_refresh_token in Hrun by assumption.
      injection Hrun as <- <-. split; [reflexivity|]. left. auto. }
  destruct (DropboxService.isAvailable dropboxService) eqn:Hav.
  2:{ rewrite ensureValidToken_unconfigured in Hrun by assumption.
      injection Hrun as <- <-. split; [reflexivity|]. right.
      split; [reflexivity|]. eexists. reflexivity. }
  destruct (result (net (length (posts w))
                        (refresh_request dropboxService account)))
    as [e'|data] eqn:Hr.
  - rewrite (ensureValidToken_exchange_failed net dropboxService account w e')
      in Hrun by assumption.
    injection Hrun as <- <-. split; [reflexivity|]. right.
    split; [reflexivity|]. eexists. reflexivity.
  - destruct (new_expiry
                (now w + Z.of_N (elapsed (net (length (posts w))
                                              (refresh_request dropboxService
                                                               account))))
                data) as [expiry|] eqn:Hexpiry.
    + pose proof (ensureValidToken_refreshed net dropboxService account w data
                    expiry Ha He Hrt Hav Hr Hexpiry) as Hok.
      cbv zeta in Hok. rewrite Hok in Hrun. discriminate.
    + rewrite (ensureValidToken_invalid_expiry net dropboxService account w data)
        in Hrun by assumption.
      injection Hrun as <- <-. split; [reflexivity|]. right.
      split; [reflexivity|]. eexists. reflexivity.
Qed.

Lemma ensureValidToken_posts (account : Account.t) (w : World) :
  (length (posts (snd (DropboxService.ensureValidToken net dropboxService
                         (Some account) w)))
   <= length (posts w) + 1)%nat.
Proof.
  destruct (ensureValidToken_cases net dropboxService account w)
    as [[e ->] | [-> | [[e ->] | (data & expiry & _ & _ & Hrun)]]];
    cbn [snd after_post posts]; try lia.
  - rewrite length_app. cbn. lia.
  - cbv zeta in Hrun. rewrite Hrun. cbn [snd posts].
    rewrite length_app. cbn. lia.
Qed.

(** X12: [getValidDropboxToken].  A token that comes with the request is
    handed back as it is, with nothing read, posted or written.  Without
    one, on a well-kept table, the token handed back is the access token of
    the stored account as it stands after the call, and at most one request
    has been posted. *)
Theorem handed_token_is_stored_token :
  (forall (token : option string) (w : World),
      truthy token = true ->
      Server.getValidDropboxToken net dropboxService token w
      = (Returned token, w))
  /\ (forall (token handed : option string) (w w' : World),
         truthy token = false ->
         well_kept (accounts w) ->
         Server.getValidDropboxToken net dropboxService token w
         = (Returned handed, w') ->
         (exists account',
             Account.find w' = (Returned (Some account'), w')
             /\ Account.dropboxAccessToken account' = handed)
         /\ (length (posts w') <= length (posts w) + 1)%nat).
Proof.
  split.
  - intros token w Ht. unfold Server.getValidDropboxToken.
    now rewrite Ht.
  - intros token handed w w' Ht Hkept.
    unfold Server.getValidDropboxToken. rewrite Ht.
    unfold try_catch at 1.
    destruct (Account.find w) as [[[account|]|e] w1] eqn:Hfind;
      pose proof (find_world _ _ _ Hfind) as ->.
    + rewrite (bind_returned _ _ _ _ _ Hfind).
      destruct (truthy (Account.dropboxAccessToken account)) eqn:Ha;
        cbn [negb]; [|discriminate].
      pose proof (ensureValidToken_posts account w) as Hposts.
      destruct (DropboxService.ensureValidToken net dropboxService
                  (Some account) w) as [[valid|e] w2] eqn:Hrun.
      * rewrite (bind_returned _ _ _ _ _ Hrun).
        intros [= <- <-]. split; [|exact Hposts].
        exists valid. split; [|reflexivity].
        now apply (find_after_ensureValidToken net dropboxService
                     JSON_parse_stringify JSON_stringify_nonempty
                     account valid w w2).
      * rewrite (bind_thrown _ _ _ _ _ Hrun). discriminate.
    + rewrite (bind_returned _ _ _ _ _ Hfind). discriminate.
    + rewrite (bind_thrown _ _ _ _ _ Hfind). discriminate.
Qed.

(** X13: the error [ensureValidToken] keeps for a missing access token never
    reaches a caller of [getValidDropboxToken]: the helper has its own guard
    and its own message, and what it throws otherwise is the
    re-authentication error, a refresh failure, or what loading the account
    threw. *)
Theorem helper_errors (token : option string) (w w' : World) (e : Exn) :
  Server.getValidDropboxToken net dropboxService token w = (Thrown e, w') ->
  accounts w' = accounts w
  /\ (e = Error
        "No Dropbox access token found. Please authenticate with Dropbox first."
      \/ e = Error
           "Access token expired and no refresh token available. Please re-authenticate."
      \/ (exists m, e = Error ("Token refresh failed: " ++ m))
      \/ Account.find w = (Thrown e, w)).
Proof.
  unfold Server.getValidDropboxToken.
  destruct (truthy token); [discriminate|].
  unfold try_catch at 1.
  destruct (Account.find w) as [[[account|]|e0] w1] eqn:Hfind;
    pose proof (find_world _ _ _ Hfind) as ->.
  - rewrite (bind_returned _ _ _ _ _ Hfind).
    destruct (truthy (Account.dropboxAccessToken account)) eqn:Ha; cbn [negb].
    + destruct (DropboxService.ensureValidToken net dropboxService
                  (Some account) w) as [[valid|e1] w2] eqn:Hrun.
      * rewrite (bind_returned _ _ _ _ _ Hrun). discriminate.
      * rewrite (bind_thrown _ _ _ _ _ Hrun). intros [= <- <-].
        destruct (ensureValidToken_thrown account w w2 e1 Ha Hrun)
          as [Hacc [(_ & _ & ->) | (_ & m & ->)]];
          (split; [exact Hacc|]); [right; left; reflexivity|].
        right. right. left. now exists m.
    + intros [= <- <-]. split; [reflexivity|]. now left.
  - rewrite (bind_returned _ _ _ _ _ Hfind).
    intros [= <- <-]. split; [reflexivity|]. now left.
  - rewrite (bind_thrown _ _ _ _ _ Hfind).
    intros [= <- <-]. split; [reflexivity|]. now right; right; right.
Qed.



(** X15: [POST /api/dropbox/refresh] on an account whose token is still
    good for longer than the buffer answers success with the message
    'Token refreshed successfully' and the stored tokens, although nothing
    was refreshed: no request is posted and nothing is written. *)
Theorem refresh_route_reports_success_without_refresh (w : World)
  (account : Account.t) :
  Account.find w = (Returned (Some account), w) ->
  truthy (Account.dropboxAccessToken account) = true ->
  truthy (Account.dropboxRefreshToken account) = true ->
  expires_after account (now w + buffer_ms) ->
  Date_parse "" = None ->
  Server.post_api_dropbox_refresh net dropboxService w
  = (Returned (Server.Json {|
       Server.success := true;
       Server.access_token := Account.dropboxAccessToken account;
       Server.refresh_token := Account.dropboxRefreshToken account;
       Server.expires_at := Account.dropboxTokenExpiresAt account;
       Server.message := "Token refreshed successfully" |}), w).
Proof.
  intros Hfind Ha Hrt Hfresh Hempty.
  unfold Server.post_api_dropbox_refresh.
  apply try_catch_returned.
  rewrite (bind_returned _ _ _ _ _ Hfind). rewrite Ha, Hrt. cbn [negb].
  erewrite bind_returned; [reflexivity|].
  apply ensureValidToken_unexpired; [assumption|].
  now apply fresh_unexpired.
Qed.

(** X16: the failures of [POST /api/dropbox/refresh].  A failure is a 400
    or a 500 and never changes the table.  A 400 comes without details and
    with the world untouched, and only when there is no account, no access
    token or no refresh token.  A 500 carries details that start with
    'Token refresh failed: ', or stands for an account that could not be
    loaded: the re-authentication error of [ensureValidToken] never shows,
    since the route turns a missing refresh token down first. *)
Theorem refresh_route_failures (w w' : World) (code : Z) (error : string)
  (details : option string) :
  Server.post_api_dropbox_refresh net dropboxService w
  = (Returned (Server.Failure code error details), w') ->
  accounts w' = accounts w
  /\ ((code = 400 /\ details = None /\ w' = w
       /\ exists r, Account.find w = (Returned r, w)
                    /\ match r with
                       | None => True
                       | Some account =>
                           truthy (Account.dropboxAccessToken account) = false
                           \/ truthy (Account.dropboxRefreshToken account) = false
                       end)
      \/ (code = 500 /\ error = "Failed to refresh token"
          /\ ((exists m, details = Some ("Token refresh failed: " ++ m))
              \/ exists e, Account.find w = (Thrown e, w)))).
Proof.
  unfold Server.post_api_dropbox_refresh. unfold try_catch.
  destruct (Account.find w) as [[[account|]|e] w1] eqn:Hfind;
    pose proof (find_world _ _ _ Hfind) as ->.
  - rewrite (bind_returned _ _ _ _ _ Hfind).
    destruct (truthy (Account.dropboxAccessToken account)) eqn:Ha; cbn [negb].
    + destruct (truthy (Account.dropboxRefreshToken account)) eqn:Hrt;
        cbn [negb].
      * destruct (DropboxService.ensureValidToken net dropboxService
                    (Some account) w) as [[valid|e1] w2] eqn:Hrun.
        -- rewrite (bind_returned _ _ _ _ _ Hrun). discriminate.
        -- rewrite (bind_thrown _ _ _ _ _ Hrun).
           intros [= <- <- <- <-].
           destruct (ensureValidToken_thrown account w w2 e1 Ha Hrun)
             as [Hacc [(Hrt' & _) | (_ & m & ->)]]; [congruence|].
           split; [exact Hacc|]. right. split; [reflexivity|].
           split; [reflexivity|]. left. now exists m.
      * intros [= <- <- <- <-]. split; [reflexivity|]. left.
        repeat split. exists (Some account). split; [reflexivity|]. now right.
    + intros [= <- <- <- <-]. split; [reflexivity|]. left.
      repeat split. exists (Some account). split; [reflexivity|]. now left.
  - rewrite (bind_returned _ _ _ _ _ Hfind).
    intros [= <- <- <- <-]. split; [reflexivity|]. left.
    repeat split. now exists None.
  - rewrite (bind_thrown _ _ _ _ _ Hfind).
    intros [= <- <- <- <-]. split; [reflexivity|]. right.
    split; [reflexivity|]. split; [reflexivity|]. right. now exists e.
Qed.

End ServerFacts.

(** ** Folder paths *)

Section FolderFacts.
Import DropboxFolders.
#[local] Arguments String.append _ _ : simpl nomatch.

Lemma all_chars_weaken (p q : ascii -> bool) (s : string) :
  (forall c, p c = true -> q c = true) ->
  all_chars p s = true -> all_chars q s = true.
Proof.
  intros Hpq. induction s as [|c s IH]; [reflexivity|].
  cbn. intros Hs. apply andb_true_iff in Hs as [Hc Hs].
  now rewrite (Hpq c Hc), IH.
Qed.

Lemma all_chars_keep_only (class : ascii -> bool) (s : string) :
  all_chars class (keep_only class s) = true.
Proof.
  induction s as [|c s IH]; [reflexivity|].
  cbn. destruct (class c) eqn:Hc; [|exact IH].
  cbn. now rewrite Hc, IH.
Qed.

Lemma all_chars_squeeze (class p q : ascii -> bool) (by_ : ascii)
  (in_run : bool) (s : string) :
  (forall c, p c = true -> class c = false -> q c = true) ->
  q by_ = true ->
  all_chars p s = true ->
  all_chars q (squeeze class by_ in_run s) = true.
Proof.
  intros Hkeep Hby. revert in_run.
  induction s as [|c s IH]; intros in_run; [reflexivity|].
  cbn. intros Hs. apply andb_true_iff in Hs as [Hc Hs].
  destruct (class c) eqn:Hclass.
  - destruct in_run; [now apply IH|]. cbn. now rewrite Hby, IH.
  - cbn. now rewrite (Hkeep c Hc Hclass), IH.
Qed.

Lemma all_chars_replace_each (class p q : ascii -> bool) (by_ : ascii)
  (s : string) :
  (forall c, p c = true -> class c = false -> q c = true) ->
  q by_ = true ->
  all_chars p s = true ->
  all_chars q (replace_each class by_ s) = true.
Proof.
  intros Hkeep Hby. induction s as [|c s IH]; [reflexivity|].
  cbn. intros Hs. apply andb_true_iff in Hs as [Hc Hs].
  rewrite (IH Hs), andb_true_r.
  destruct (class c) eqn:Hclass; [exact Hby | now apply Hkeep].
Qed.

Lemma all_chars_toLowerCase (p q : ascii -> bool) (s : string) :
  (forall c, p c = true -> q (lower c) = true) ->
  all_chars p s = true ->
  all_chars q (toLowerCase s) = true.
Proof.
  intros Hpq. induction s as [|c s IH]; [reflexivity|].
  cbn. intros Hs. apply andb_true_iff in Hs as [Hc Hs].
  now rewrite (Hpq c Hc), IH.
Qed.

Lemma squeeze_no_adjacent (class : ascii -> bool) (by_ : ascii)
  (in_run : bool) (s : string) :
  no_adjacent class (squeeze class by_ in_run s) = true
  /\ (in_run = true -> starts_in class (squeeze class by_ in_run s) = false).
Proof.
  revert in_run. induction s as [|c s IH]; intros in_run; [now split|].
  cbn [squeeze]. destruct (class c) eqn:Hclass.
  - destruct in_run; [apply IH|].
    split; [|discriminate].
    destruct (IH true) as [Hno Hstart]. specialize (Hstart eq_refl).
    cbn [no_adjacent].
    destruct (squeeze class by_ true s) as [|b rest]; [reflexivity|].
    cbn in Hstart. rewrite Hstart, andb_false_r. cbn. exact Hno.
  - split; [|intros _; exact Hclass].
    destruct (IH false) as [Hno _].
    cbn [no_adjacent].
    destruct (squeeze class by_ false s) as [|b rest]; [reflexivity|].
    rewrite Hclass. cbn. exact Hno.
Qed.

Lemma toLowerCase_no_adjacent (class : ascii -> bool) (s : string) :
  (forall c, class (lower c) = class c) ->
  no_adjacent class s = true ->
  no_adjacent class (toLowerCase s) = true.
Proof.
  intros Hsame. induction s as [|a s IH]; [reflexivity|].
  destruct s as [|b s]; [reflexivity|].
  change (no_adjacent class (String a (String b s)))
    with (negb (class a && class b) && no_adjacent class (String b s)).
  change (no_adjacent class (toLowerCase (String a (String b s))))
    with (negb (class (lower a) && class (lower b))
          && no_adjacent class (toLowerCase (String b s))).
  intros Hs. apply andb_true_iff in Hs as [Hab Hs].
  now rewrite !Hsame, Hab, IH.
Qed.

Lemma lower_underscore (c : ascii) :
  is_underscore (lower c) = is_underscore c.
Proof. destruct c as [[] [] [] [] [] [] [] []]; reflexivity. Qed.

Lemma lower_name_char (c : ascii) :
  is_alnum c || is_underscore c = true ->
  is_lower (lower c) || is_digit (lower c) || is_underscore (lower c) = true.
Proof. destruct c as [[] [] [] [] [] [] [] []]; vm_compute; congruence. Qed.

Lemma name_char_after_spaces (c : ascii) :
  is_alnum c || is_space c || is_hyphen c = true ->
  is_space c = false ->
  is_alnum c || is_hyphen c || is_underscore c = true.
Proof. destruct c as [[] [] [] [] [] [] [] []]; vm_compute; congruence. Qed.

Lemma name_char_after_hyphens (c : ascii) :
  is_alnum c || is_hyphen c || is_underscore c = true ->
  is_hyphen c = false ->
  is_alnum c || is_underscore c = true.
Proof. destruct c as [[] [] [] [] [] [] [] []]; vm_compute; congruence. Qed.

(** The characters of a cleaned product name. *)
Lemma cleanProductName_plain (productName : string) :
  all_chars (fun c => is_lower c || is_digit c || is_underscore c)
            (cleanProductName productName) = true
  /\ no_adjacent is_underscore (cleanProductName productName) = true.
Proof.
  unfold cleanProductName. split.
  - apply (all_chars_toLowerCase (fun c => is_alnum c || is_underscore c));
      [exact lower_name_char|].
    apply (all_chars_squeeze _ (fun c => is_alnum c || is_underscore c));
      [intros c Hc _; exact Hc | reflexivity|].
    apply (all_chars_squeeze _
             (fun c => is_alnum c || is_hyphen c || is_underscore c));
      [exact name_char_after_hyphens | reflexivity|].
    apply (all_chars_squeeze _
             (fun c => is_alnum c || is_space c || is_hyphen c));
      [exact name_char_after_spaces | reflexivity|].
    apply all_chars_keep_only.
  - apply toLowerCase_no_adjacent; [exact lower_underscore|].
    apply squeeze_no_adjacent.
Qed.

(** X17: whatever the product name, its folder name is made of lower-case
    letters, digits and underscores only, and never has two underscores in
    a row. *)
Theorem cleanProductName_shape (productName : string) :
  all_chars (fun c => is_lower c || is_digit c || is_underscore c)
            (cleanProductName productName) = true
  /\ no_adjacent is_underscore (cleanProductName productName) = true.
Proof. exact (cleanProductName_plain productName). Qed.

Lemma plain_not_slash (c : ascii) :
  is_plain c = true -> Ascii.eqb c PosixPath.slash = false.
Proof. destruct c as [[] [] [] [] [] [] [] []]; vm_compute; congruence. Qed.

Lemma plain_not_dot (c : ascii) :
  is_plain c = true -> Ascii.eqb c "." = false.
Proof. destruct c as [[] [] [] [] [] [] [] []]; vm_compute; congruence. Qed.

Lemma append_assoc (a b c : string) : ((a ++ b) ++ c = a ++ (b ++ c))%string.
Proof. induction a as [|x a IH]; [reflexivity|]. cbn. now rewrite IH. Qed.

Lemma append_empty (a : string) : (a ++ "" = a)%string.
Proof. induction a as [|x a IH]; [reflexivity|]. cbn. now rewrite IH. Qed.

Lemma split_plain (s t current : string) :
  all_chars is_plain s = true ->
  PosixPath.split (s ++ t) current = PosixPath.split t (current ++ s).
Proof.
  revert current. induction s as [|c s IH]; intros current Hs.
  - cbn. now rewrite append_empty.
  - cbn in Hs. apply andb_true_iff in Hs as [Hc Hs].
    cbn [String.append PosixPath.split]. rewrite (plain_not_slash c Hc).
    rewrite (IH _ Hs), append_assoc. reflexivity.
Qed.

Lemma split_concat (x : string) (l : list string) :
  plain_segments (x :: l) ->
  PosixPath.split (String.concat "/" (x :: l)) "" = x :: l.
Proof.
  revert x. induction l as [|y l IH]; intros x Hl;
    inversion Hl as [|? ? [_ Hx] Hrest]; subst.
  - cbn [String.concat].
    rewrite <- (append_empty x) at 1. now rewrite split_plain.
  - change (String.concat "/" (x :: y :: l))
      with (x ++ String PosixPath.slash (String.concat "/" (y :: l)))%string.
    rewrite split_plain by assumption.
    cbn [PosixPath.split String.append]. rewrite Ascii.eqb_refl.
    now rewrite (IH y Hrest).
Qed.

Lemma plain_segment_kept (s : string) :
  s <> "" -> all_chars is_plain s = true ->
  String.eqb s "" = false /\ String.eqb s "." = false
  /\ String.eqb s ".." = false.
Proof.
  intros Hne Hs. destruct s as [|c s]; [congruence|].
  cbn in Hs. apply andb_true_iff in Hs as [Hc _].
  apply plain_not_dot in Hc.
  repeat split; cbn; try reflexivity; now rewrite Hc.
Qed.

Lemma normalizeString_plain (l kept : list string) :
  plain_segments l ->
  PosixPath.normalizeString true l kept = (rev kept ++ l)%list.
Proof.
  revert kept. induction l as [|s l IH]; intros kept Hl.
  - cbn. now rewrite app_nil_r.
  - inversion Hl as [|? ? [Hne Hs] Hrest]; subst.
    destruct (plain_segment_kept s Hne Hs) as (He & Hd & Hdd).
    cbn [PosixPath.normalizeString]. rewrite He, Hd, Hdd. cbn [orb].
    rewrite (IH _ Hrest). cbn [rev]. now rewrite <- app_assoc.
Qed.

Lemma last_is_slash_append (a b : string) :
  b <> "" ->
  PosixPath.last_is_slash (a ++ b) = PosixPath.last_is_slash b.
Proof.
  intros Hb. induction a as [|c a IH]; [reflexivity|].
  cbn [String.append]. destruct (a ++ b)%string as [|d rest] eqn:Hab.
  - destruct a; [cbn in Hab; congruence | discriminate].
  - exact IH.
Qed.

Lemma last_is_slash_plain (s : string) :
  all_chars is_plain s = true -> PosixPath.last_is_slash s = false.
Proof.
  induction s as [|c s IH]; [reflexivity|].
  cbn [all_chars]. intros Hs. apply andb_true_iff in Hs as [Hc Hs].
  destruct s as [|d s]; [now apply plain_not_slash|].
  now apply IH.
Qed.

Lemma last_is_slash_concat (x : string) (l : list string) :
  plain_segments (x :: l) ->
  PosixPath.last_is_slash (String.concat "/" (x :: l)) = false.
Proof.
  revert x. induction l as [|y l IH]; intros x Hl;
    inversion Hl as [|? ? [_ Hx] Hrest]; subst.
  - now apply last_is_slash_plain.
  - change (String.concat "/" (x :: y :: l))
      with (x ++ String PosixPath.slash (String.concat "/" (y :: l)))%string.
    rewrite last_is_slash_append by discriminate.
    specialize (IH y Hrest).
    destruct (String.concat "/" (y :: l)) as [|d rest] eqn:Hc; [|exact IH].
    inversion Hrest as [|? ? [Hy _] _]; subst.
    destruct l; cbn in Hc; [congruence|].
    destruct y; [congruence | discriminate].
Qed.

(** Joining plain, non-empty segments only puts slashes between them. *)
Lemma normalize_plain (x : string) (l : list string) :
  plain_segments (x :: l) ->
  PosixPath.normalize (String.concat "/" (x :: l)) = String.concat "/" (x :: l).
Proof.
  intros Hl. unfold PosixPath.normalize.
  rewrite (split_concat x l Hl), (last_is_slash_concat x l Hl).
  inversion Hl as [|? ? [Hne Hx] _]; subst.
  destruct (String.concat "/" (x :: l)) as [|c rest] eqn:Hc.
  - destruct x as [|c x]; [congruence|].
    destruct l; cbn in Hc; discriminate.
  - assert (Hfirst : Ascii.eqb c PosixPath.slash = false).
    { destruct x as [|c' x]; [congruence|].
      cbn in Hx. apply andb_true_iff in Hx as [Hc' _].
      destruct l; cbn in Hc; injection Hc as <- _; now apply plain_not_slash. }
    rewrite Hfirst. cbn [negb].
    rewrite (normalizeString_plain _ [] Hl). cbn [rev app].
    rewrite Hc. reflexivity.
Qed.

Lemma join_products (name ratio : string) :
  all_chars is_plain name = true ->
  all_chars is_plain ratio = true ->
  PosixPath.join ["products"; name; ratio]
  = ("products" ++ segment name ++ segment ratio)%string.
Proof.
  intros Hname Hratio. unfold PosixPath.join, segment.
  cbn [List.filter]. change (String.eqb "products" "") with false. cbn [negb].
  destruct (String.eqb_spec name "") as [->|Hn];
    destruct (String.eqb_spec ratio "") as [->|Hr]; cbn [negb].
  - reflexivity.
  - rewrite normalize_plain; [reflexivity|].
    repeat constructor; try assumption; discriminate.
  - rewrite normalize_plain.
    + cbn. now rewrite append_empty.
    + repeat constructor; try assumption; discriminate.
  - rewrite normalize_plain.
    + reflexivity.
    + repeat constructor; try assumption; discriminate.
Qed.

Lemma cleanAspectRatio_alnum (aspectRatio : string) :
  all_chars is_alnum (cleanAspectRatio aspectRatio) = true.
Proof.
  unfold cleanAspectRatio.
  apply (all_chars_replace_each _ (fun c => is_alnum c || is_colon c)).
  - intros c Hc Hcolon. rewrite Hcolon, orb_false_r in Hc. exact Hc.
  - reflexivity.
  - apply all_chars_keep_only.
Qed.

Lemma name_char_plain (c : ascii) :
  is_lower c || is_digit c || is_underscore c = true -> is_plain c = true.
Proof. destruct c as [[] [] [] [] [] [] [] []]; vm_compute; congruence. Qed.

Lemma all_chars_app (p : ascii -> bool) (a b : string) :
  all_chars p (a ++ b) = all_chars p a && all_chars p b.
Proof.
  induction a as [|c a IH]; [reflexivity|].
  cbn [String.append all_chars]. rewrite IH. now rewrite andb_assoc.
Qed.

Lemma all_chars_segment (s : string) :
  all_chars is_plain s = true -> all_chars is_path_char (segment s) = true.
Proof.
  intros Hs. unfold segment. destruct (String.eqb s ""); [reflexivity|].
  cbn [String.append all_chars]. apply andb_true_iff. split; [reflexivity|].
  apply (all_chars_weaken is_plain); [|exact Hs].
  intros c Hc. unfold is_path_char. now rewrite Hc.
Qed.

(** X18: the folder [createOrganizedFolderPath] gives is [uploads] when the
    metadata does not describe a creative, and otherwise [products]
    followed by the cleaned product name and the cleaned aspect ratio of
    the metadata, each left out when empty.  The name holds lower-case
    letters, digits and underscores, the ratio letters and digits, and the
    folder as a whole letters, digits, underscores and slashes: whatever
    the metadata, it has no dot, so no [..]. *)
Theorem folder_path_shape (metadata : Metadata) :
  let name := cleanProductName (product_name metadata) in
  let ratio := cleanAspectRatio (aspect_ratio metadata) in
  createOrganizedFolderPath metadata
  = (if is_creative metadata
     then "products" ++ segment name ++ segment ratio
     else "uploads")%string
  /\ all_chars (fun c => is_lower c || is_digit c || is_underscore c) name
     = true
  /\ all_chars is_alnum ratio = true
  /\ all_chars is_path_char (createOrganizedFolderPath metadata) = true.
Proof.
  intros name ratio.
  assert (Hname : all_chars is_plain name = true).
  { apply (all_chars_weaken _ _ _ name_char_plain).
    apply cleanProductName_plain. }
  assert (Hratio : all_chars is_plain ratio = true).
  { apply (all_chars_weaken is_alnum); [|apply cleanAspectRatio_alnum].
    intros c Hc. unfold is_plain. now rewrite Hc. }
  assert (Hpath :
    createOrganizedFolderPath metadata
    = (if is_creative metadata
       then "products" ++ segment name ++ segment ratio
       else "uploads")%string).
  { unfold createOrganizedFolderPath.
    change (truthy (creativeType metadata)
            || match type metadata with
               | Some t => String.eqb t "creative"
               | None => false
               end
            || (truthy (prompt metadata)
                && (includes "creative" (text (prompt metadata))
                    || includes "social" (text (prompt metadata)))))
      with (is_creative metadata).
    destruct (is_creative metadata); [|reflexivity].
    cbn [negb]. now apply join_products. }
  split; [exact Hpath|].
  split; [apply cleanProductName_plain|].
  split; [apply cleanAspectRatio_alnum|].
  rewrite Hpath. destruct (is_creative metadata); [|reflexivity].
  rewrite !all_chars_app, !all_chars_segment by assumption.
  reflexivity.
Qed.

End FolderFacts.

(** ** The browser *)

Section BrowserFacts.
Context `{JsRuntime}.
Variable net : Network.
Variable dropboxService : DropboxService.t.

Hypothesis JSON_parse_stringify :
  forall v, JSON_parse (JSON_stringify v) = Some v.
Hypothesis JSON_stringify_nonempty :
  forall v, JSON_stringify v <> "".

(** A success reply of the refresh route carries the stored tokens. *)
Lemma post_api_dropbox_refresh_stored (w w' : World)
  (reply : Server.Refreshed) :
  well_kept (accounts w) ->
  Server.post_api_dropbox_refresh net dropboxService w
  = (Returned (Server.Json reply), w') ->
  Server.success reply = true
  /\ (exists account',
         Account.find w' = (Returned (Some account'), w')
         /\ Server.access_token reply = Account.dropboxAccessToken account'
         /\ Server.refresh_token reply = Account.dropboxRefreshToken account'
         /\ Server.expires_at reply = Account.dropboxTokenExpiresAt account')
  /\ (length (posts w') <= length (posts w) + 1)%nat.
Proof.
  intros Hkept. unfold Server.post_api_dropbox_refresh, try_catch.
  destruct (Account.find w) as [[[account|]|e] w1] eqn:Hfind;
    pose proof (find_world _ _ _ Hfind) as ->.
  - rewrite (bind_returned _ _ _ _ _ Hfind).
    destruct (truthy (Account.dropboxAccessToken account)); cbn [negb];
      [|discriminate].
    destruct (truthy (Account.dropboxRefreshToken account)); cbn [negb];
      [|discriminate].
    pose proof (ensureValidToken_posts net dropboxService account w) as Hposts.
    destruct (DropboxService.ensureValidToken net dropboxService
                (Some account) w) as [[valid|e1] w2] eqn:Hrun.
    + rewrite (bind_returned _ _ _ _ _ Hrun). intros [= <- <-].
      split; [reflexivity|]. split; [|exact Hposts].
      exists valid. split; [|repeat split].
      now apply (find_after_ensureValidToken net dropboxService
                   JSON_parse_stringify JSON_stringify_nonempty
                   account valid w w2).
    + rewrite (bind_thrown _ _ _ _ _ Hrun). discriminate.
  - rewrite (bind_returned _ _ _ _ _ Hfind). discriminate.
  - rewrite (bind_thrown _ _ _ _ _ Hfind). discriminate.
Qed.

(** X19: a success reply of [POST /api/dropbox/refresh] on a well-kept
    table carries exactly the tokens and the expiry of the account as it is
    stored after the call, and at most one request has been posted. *)
Theorem refresh_route_answers_stored_tokens (w w' : World)
  (reply : Server.Refreshed) :
  well_kept (accounts w) ->
  Server.post_api_dropbox_refresh net dropboxService w
  = (Returned (Server.Json reply), w') ->
  Server.success reply = true
  /\ (exists account',
         Account.find w' = (Returned (Some account'), w')
         /\ Server.access_token reply = Account.dropboxAccessToken account'
         /\ Server.refresh_token reply = Account.dropboxRefreshToken account'
         /\ Server.expires_at reply = Account.dropboxTokenExpiresAt account')
  /\ (length (posts w') <= length (posts w) + 1)%nat.
Proof. exact (post_api_dropbox_refresh_stored w w' reply). Qed.

(** X20: the browser never looks at a token twice.  Once [getValidToken]
    has given a token, it gives the same token from [localStorage] in every
    later state where that entry still stands, whatever the server has done
    in between (refreshed, rotated, disconnected) and whether or not it can
    be reached; the later call leaves everything as it is. *)
Theorem cached_token_sticks (b b' later : Browser.t) (token : string) :
  Browser.getValidToken net dropboxService b = (Some token, b') ->
  Browser.localStorage later !! Browser.key
  = Browser.localStorage b' !! Browser.key ->
  Browser.getValidToken net dropboxService later = (Some token, later).
Proof.
  unfold Browser.getValidToken at 1.
  destruct (truthy (Browser.localStorage b !! Browser.key)) eqn:Hlocal.
  - intros [= Htoken <-] Hsame.
    unfold Browser.getValidToken. rewrite Hsame, Hlocal. now rewrite Htoken.
  - destruct (Browser.fetch (Server.get_api_account net dropboxService) b)
      as [[[[account|]|code error details]|] b1]; try discriminate.
    destruct (truthy (Account.dropboxAccessToken account)) eqn:Ha;
      [|discriminate].
    intros [= Htoken <-] Hsame.
    unfold Browser.getValidToken. rewrite Hsame.
    cbn [Browser.setItem Browser.localStorage].
    rewrite lookup_insert_eq, Htoken. cbn [Browser.to_text].
    rewrite Htoken in Ha. now rewrite Ha.
Qed.


(** X22: [refreshToken] in the browser.  When it gives token information,
    the access token in it is the one the server has stored after the call
    and [localStorage] now holds it; when it gives [null] (server out of
    reach, or any reply that is not a success), [localStorage] is as it
    was. *)
Theorem browser_refresh_updates_cache (b b' : Browser.t)
  (r : option Browser.DropboxTokenInfo) :
  well_kept (accounts (Browser.server b)) ->
  Browser.refreshToken net dropboxService b = (r, b') ->
  match r with
  | Some info =>
      Browser.localStorage b' !! Browser.key
      = Some (Browser.to_text (Browser.access_token info))
      /\ exists account',
           Account.find (Browser.server b')
           = (Returned (Some account'), Browser.server b')
           /\ Browser.access_token info = Account.dropboxAccessToken account'
  | None => Browser.localStorage b' = Browser.localStorage b
  end.
Proof.
  intros Hkept. unfold Browser.refreshToken, Browser.fetch.
  destruct (Browser.online b); [|now intros [= <- <-]].
  destruct (Server.post_api_dropbox_refresh net dropboxService
              (Browser.server b)) as [[[reply|code error details]|e] w'] eqn:Hpost;
    try now intros [= <- <-].
  destruct (post_api_dropbox_refresh_stored _ _ _ Hkept Hpost)
    as (Hsuccess & (account' & Hfind & Htoken & _) & _).
  rewrite Hsuccess. intros [= <- <-].
  cbn [Browser.setItem Browser.localStorage Browser.server Browser.access_token].
  split; [apply lookup_insert_eq|].
  exists account'. split; assumption.
Qed.

End BrowserFacts.

(** ** Localized messages *)

Section MessageFacts.
Context `{JsRuntime}.
Import LocalizedMessage.

Lemma find_absent {A} (p : A -> bool) (l : list A) :
  existsb p l = false -> List.find p l = None.
Proof.
  induction l as [|x l IH]; [reflexivity|].
  cbn. destruct (p x); [discriminate|]. exact IH.
Qed.

Lemma filter_absent {A} (p : A -> bool) (l : list A) :
  existsb p l = false ->
  List.filter p l = [] /\ List.filter (fun x => negb (p x)) l = l.
Proof.
  induction l as [|x l IH]; [now split|].
  cbn. destruct (p x); [discriminate|].
  intros Hl. destruct (IH Hl) as [Hnone Hall]. cbn. now rewrite Hall.
Qed.

Lemma find_snoc {A} (p : A -> bool) (l : list A) (x : A) :
  List.find p (l ++ [x])
  = match List.find p l with
    | Some y => Some y
    | None => if p x then Some x else None
    end.
Proof.
  induction l as [|y l IH]; [reflexivity|].
  cbn. destruct (p y); [reflexivity | exact IH].
Qed.

Lemma map_absent (f : t -> t) (key : string) (l : list t) :
  existsb (has_id key) l = false ->
  map (fun row => if has_id key row then f row else row) l = l.
Proof.
  induction l as [|x l IH]; [reflexivity|].
  cbn. destruct (has_id key x); [discriminate|].
  intros Hl. now rewrite IH.
Qed.

Lemma with_messages_same (st : Store) : with_messages st (messages st) = st.
Proof. now destruct st. Qed.

(** X23: [LocalizedMessage.create].  When the id is free and the campaign
    exists, the message goes in as one new row (an empty
    [additionalInstructions] stored as NULL, both dates the time of the
    call), it is what [create] returns and what [findById] then finds, and
    every other id finds what it found.  When the id is taken or the
    campaign is missing, [create] throws the wrapped constraint error and
    the store is as it was. *)
Theorem create_outcomes (data : Data.t) (st : Store) :
  let row := new_row data st in
  (existsb (has_id (id row)) (messages st) = false ->
   existsb (String.eqb (campaignId row)) (campaigns st) = true ->
   let st' := with_messages st (messages st ++ [row]) in
   create data st = (Returned (Some row), st')
   /\ findById (id row) st' = (Returned (Some row), st')
   /\ forall other, other <> id row ->
                    fst (findById other st') = fst (findById other st))
  /\ (existsb (has_id (id row)) (messages st) = true ->
      create data st
      = (Thrown (Error ("Failed to create localized message: "
                          ++ "UNIQUE constraint failed: localized_messages.id")),
         st))
  /\ (existsb (has_id (id row)) (messages st) = false ->
      existsb (String.eqb (campaignId row)) (campaigns st) = false ->
      create data st
      = (Thrown (Error ("Failed to create localized message: "
                          ++ "FOREIGN KEY constraint failed")),
         st)).
Proof.
  intros row. unfold create, q_bind, q_try, now_iso, run_insert.
  fold (new_row data st). fold row.
  split; [|split].
  - intros Hfree Hcampaign. rewrite Hfree, Hcampaign. cbn [negb].
    assert (Hfound : List.find (has_id (id row)) (messages st ++ [row])
                     = Some row).
    { rewrite find_snoc, (find_absent _ _ Hfree).
      unfold has_id. now rewrite String.eqb_refl. }
    unfold findById. cbn [messages with_messages fst]. rewrite Hfound.
    split; [reflexivity|]. split; [reflexivity|].
    intros other Hother. f_equal. rewrite find_snoc.
    destruct (List.find (has_id other) (messages st)); [reflexivity|].
    unfold has_id. destruct (String.eqb_spec (id row) other); congruence.
  - intros Htaken. now rewrite Htaken.
  - intros Hfree Hmissing. now rewrite Hfree, Hmissing.
Qed.

(** X24: [LocalizedMessage.update] when nothing can be updated.  With
    neither field given it throws 'No fields to update', whether or not the
    id exists.  With a field given and no message under the id it throws
    'Failed to update localized message: Localized message not found'.
    Either way the store is as it was. *)
Theorem update_without_effect (key : string) (updateData : UpdateData.t)
  (st : Store) :
  (UpdateData.translatedMessage updateData = None ->
   UpdateData.additionalInstructions updateData = None ->
   update key updateData st = (Thrown (Error "No fields to update"), st))
  /\ ((UpdateData.translatedMessage updateData <> None
       \/ UpdateData.additionalInstructions updateData <> None) ->
      existsb (has_id key) (messages st) = false ->
      update key updateData st
      = (Thrown (Error ("Failed to update localized message: "
                          ++ "Localized message not found")), st)).
Proof.
  split.
  - intros Htm Hai. unfold update, q_bind, now_iso.
    now rewrite Htm, Hai.
  - intros Hgiven Hmissing.
    destruct (filter_absent _ _ Hmissing) as [Hhits _].
    assert (Hrun : forall now,
               run_update updateData now key st = (Returned 0%nat, st)).
    { intros now. unfold run_update. rewrite Hhits.
      rewrite (map_absent _ _ _ Hmissing), with_messages_same.
      now destruct (UpdateData.translatedMessage updateData) as [[|]|]. }
    unfold update, q_bind, q_try, now_iso.
    destruct (UpdateData.translatedMessage updateData) as [tm|] eqn:Htm;
      [|destruct (UpdateData.additionalInstructions updateData) as [ai|] eqn:Hai];
      try (rewrite Hrun; reflexivity).
    destruct Hgiven; congruence.
Qed.

Lemma find_map_hit (f : t -> t) (key : string) (l : list t) (row : t) :
  (forall r, id (f r) = id r) ->
  List.find (has_id key) l = Some row ->
  List.find (has_id key)
    (map (fun r => if has_id key r then f r else r) l) = Some (f row).
Proof.
  intros Hid. induction l as [|x l IH]; [discriminate|].
  cbn. destruct (has_id key x) eqn:Hx.
  - intros [= ->]. unfold has_id in Hx |- *. now rewrite Hid, Hx.
  - rewrite Hx. exact IH.
Qed.

Lemma find_map_other (f : t -> t) (key other : string) (l : list t) :
  (forall r, id (f r) = id r) ->
  List.find (has_id other)
    (map (fun r => if has_id key r then f r else r) l)
  = match List.find (has_id other) l with
    | Some r => Some (if has_id key r then f r else r)
    | None => None
    end.
Proof.
  intros Hid. induction l as [|x l IH]; [reflexivity|].
  cbn. assert (Hsame : has_id other (if has_id key x then f x else x)
                       = has_id other x).
  { destruct (has_id key x); [|reflexivity]. unfold has_id. now rewrite Hid. }
  rewrite Hsame. destruct (has_id other x); [reflexivity | exact IH].
Qed.

Lemma find_filter_hits (key : string) (l : list t) (row : t) :
  List.find (has_id key) l = Some row ->
  exists rest, List.filter (has_id key) l = row :: rest.
Proof.
  induction l as [|x l IH]; [discriminate|].
  cbn. destruct (has_id key x).
  - intros [= ->]. eexists. reflexivity.
  - exact IH.
Qed.

(** X25: [LocalizedMessage.update] of a message that exists, with a field
    given and no [null] translation.  The message returned is the stored
    one afterwards: its translation and instructions are the given ones
    (kept when left out), [updatedAt] is the time of the call, and its id,
    campaign, original text, languages and [createdAt] are untouched; a
    message under another id is found as before. *)
Theorem update_changes_only_given (key : string) (updateData : UpdateData.t)
  (st : Store) (row : t) :
  fst (findById key st) = Returned (Some row) ->
  UpdateData.translatedMessage updateData <> Some None ->
  (UpdateData.translatedMessage updateData <> None
   \/ UpdateData.additionalInstructions updateData <> None) ->
  exists row' st',
    update key updateData st = (Returned (Some row'), st')
    /\ findById key st' = (Returned (Some row'), st')
    /\ translatedMessage row'
       = match UpdateData.translatedMessage updateData with
         | Some (Some text) => text
         | _ => translatedMessage row
         end
    /\ additionalInstructions row'
       = default (additionalInstructions row)
                 (UpdateData.additionalInstructions updateData)
    /\ updatedAt row' = toISOString (clock st)
    /\ (id row', campaignId row', originalMessage row',
        targetLanguage row', languageCode row', createdAt row')
       = (id row, campaignId row, originalMessage row,
          targetLanguage row, languageCode row, createdAt row)
    /\ forall other, other <> key ->
                     fst (findById other st') = fst (findById other st).
Proof.
  unfold findById at 1. cbn [fst]. intros [= Hrow] Hnotnull Hgiven.
  destruct (find_filter_hits _ _ _ Hrow) as [rest Hhits].
  set (f := fun r =>
              set_fields updateData (toISOString (clock st)) r
                (match UpdateData.translatedMessage updateData with
                 | Some (Some text) => text
                 | _ => translatedMessage r
                 end)).
  assert (Hid : forall r, id (f r) = id r) by reflexivity.
  assert (Hrun : run_update updateData (toISOString (clock st)) key st
                 = (Returned (S (length rest)),
                    with_messages st
                      (map (fun r => if has_id key r then f r else r)
                           (messages st)))).
  { unfold run_update. rewrite Hhits.
    destruct (UpdateData.translatedMessage updateData) as [[|]|];
      try reflexivity. congruence. }
  exists (f row). eexists. split.
  - unfold update, q_bind, q_try, now_iso.
    destruct (UpdateData.translatedMessage updateData) as [tm|] eqn:Htm;
      [|destruct (UpdateData.additionalInstructions updateData) as [ai|] eqn:Hai];
      try (rewrite Hrun; cbn [Nat.eqb]; unfold findById;
           cbn [messages with_messages];
           rewrite (find_map_hit f key _ row Hid Hrow); reflexivity).
    destruct Hgiven; congruence.
  - unfold findById. cbn [messages with_messages fst].
    rewrite (find_map_hit f key _ row Hid Hrow).
    split; [reflexivity|]. repeat (split; [reflexivity|]).
    intros other Hother. f_equal. rewrite (find_map_other f key other _ Hid).
    destruct (List.find (has_id other) (messages st)) as [r|] eqn:Hr;
      [|reflexivity].
    apply List.find_some in Hr as [_ Hr].
    unfold has_id in Hr |- *. apply String.eqb_eq in Hr.
    destruct (String.eqb_spec (id r) key); [congruence | reflexivity].
Qed.

Lemma filter_filter_neg (p q : t -> bool) (l : list t) :
  (forall r, p r = true -> q r = false) ->
  List.filter q (List.filter (fun r => negb (p r)) l) = List.filter q l.
Proof.
  intros Hpq. induction l as [|x l IH]; [reflexivity|].
  cbn. destruct (p x) eqn:Hp; cbn.
  - now rewrite (Hpq x Hp).
  - destruct (q x); [now rewrite IH | exact IH].
Qed.

Lemma filter_neg_self (p : t -> bool) (l : list t) :
  List.filter p (List.filter (fun r => negb (p r)) l) = [].
Proof.
  induction l as [|x l IH]; [reflexivity|].
  cbn. destruct (p x) eqn:Hp; cbn; [exact IH|]. now rewrite Hp.
Qed.

(** X26: [deleteByCampaignId] never throws; the number it returns is what
    [countByCampaignId] gave just before; afterwards the campaign counts
    zero messages and every other campaign counts what it counted. *)
Theorem deleteByCampaignId_counts (campaign : string) (st : Store) :
  exists st',
    deleteByCampaignId campaign st
    = (fst (countByCampaignId campaign st), st')
    /\ fst (countByCampaignId campaign st') = Returned 0%nat
    /\ forall other, other <> campaign ->
                     fst (countByCampaignId other st')
                     = fst (countByCampaignId other st).
Proof.
  eexists. split; [reflexivity|].
  unfold countByCampaignId. cbn [fst messages with_messages]. split.
  - now rewrite filter_neg_self.
  - intros other Hother. f_equal. f_equal. apply filter_filter_neg.
    intros r Hr. unfold of_campaign in Hr |- *.
    apply String.eqb_eq in Hr.
    destruct (String.eqb_spec (campaignId r) other); congruence.
Qed.

(** X27: [LocalizedMessage.delete].  With no message under the id it throws
    'Failed to delete localized message: Localized message not found' and
    the store is as it was.  Otherwise it returns [true], the id finds
    nothing afterwards, and every other id finds what it found. *)
Theorem delete_outcomes (key : string) (st : Store) :
  (existsb (has_id key) (messages st) = false ->
   delete key st
   = (Thrown (Error ("Failed to delete localized message: "
                       ++ "Localized message not found")), st))
  /\ (existsb (has_id key) (messages st) = true ->
      exists st',
        delete key st = (Returned true, st')
        /\ fst (findById key st') = Returned None
        /\ forall other, other <> key ->
                         fst (findById other st') = fst (findById other st)).
Proof.
  unfold delete, q_try, q_bind, run_delete. split.
  - intros Hmissing. destruct (filter_absent _ _ Hmissing) as [-> ->].
    cbn. now rewrite with_messages_same.
  - intros Hthere.
    destruct (List.filter (has_id key) (messages st)) as [|hit hits] eqn:Hhits.
    { exfalso. apply List.existsb_exists in Hthere as (r & Hin & Hr).
      assert (Hf : List.In r (List.filter (has_id key) (messages st)))
        by now apply List.filter_In.
      now rewrite Hhits in Hf. }
    cbn [length Nat.eqb]. eexists. split; [reflexivity|].
    unfold findById. cbn [fst messages with_messages]. split.
    + f_equal. clear. induction (messages st) as [|x l IH]; [reflexivity|].
      cbn. destruct (has_id key x) eqn:Hx; cbn; [exact IH|]. now rewrite Hx.
    + intros other Hother. f_equal.
      clear Hthere Hhits. induction (messages st) as [|x l IH]; [reflexivity|].
      cbn. destruct (has_id key x) eqn:Hx; cbn.
      * unfold has_id in Hx |- *. apply String.eqb_eq in Hx.
        destruct (String.eqb_spec (id x) other); [congruence | exact IH].
      * destruct (has_id other x); [reflexivity | exact IH].
Qed.

End MessageFacts.

(** ** The further properties at the sample data *)

Lemma sample_world_well_kept (access refresh expiresAt : option string) :
  well_kept (H := sample_runtime)
    (accounts (Sample.world (Sample.row access refresh expiresAt))).
Proof.
  split.
  - constructor; [intros [] | constructor].
  - constructor; [|constructor].
    exists SampleJson.BrandPalette. reflexivity.
Defined.

Lemma sample_world_default_only (access refresh expiresAt : option string) :
  default_only (accounts (Sample.world (Sample.row access refresh expiresAt))).
Proof.
  split; [cbn; lia|]. constructor; [reflexivity | constructor].
Defined.

Section SampleFacts.
#[local] Existing Instance sample_runtime.
#[local] Existing Instance sample_objects.

Lemma writers_keep_table_witness :
  let w := Sample.world Sample.stale_row in
  (forall accountData,
      well_kept (accounts (snd (Accounts.upsert accountData w))))
  /\ (forall account updates,
         well_kept (accounts (snd (Account.update account updates w))))
  /\ (forall account,
         well_kept (accounts (snd (Accounts.delete account w))))
  /\ (forall account,
         well_kept (accounts (snd (DropboxService.ensureValidToken Sample.net_ok
                                     Sample.svc account w)))).
Proof.
  apply (writers_keep_table Sample.net_ok Sample.svc
           (Sample.world Sample.stale_row)).
  apply sample_world_well_kept.
Defined.

Lemma upsert_keeps_singleton_witness :
  exists row,
    accounts (snd (Accounts.upsert Samples.disconnect
                     (Sample.world Sample.stale_row)))
    = [row]
    /\ Row.id row = "default_account".
Proof.
  destruct (Accounts.upsert Samples.disconnect (Sample.world Sample.stale_row))
    as [[r|e] w'] eqn:Hrun.
  - apply (upsert_keeps_singleton Samples.disconnect
             (Sample.world Sample.stale_row) w' r).
    + apply sample_world_default_only.
    + exact Hrun.
  - vm_compute in Hrun. discriminate.
Defined.


Lemma upsert_merges_existing_witness :
  exists account' row',
    Accounts.upsert Samples.disconnect (Sample.world Sample.stale_row)
    = (Returned (Some account'),
       {| now := Sample.t0; accounts := [row']; posts := [] |})
    /\ Row.id row' = "default_account"
    /\ Row.createdAt row' = "2024-12-01T09:30:00.000Z"
    /\ Row.dropboxAccessToken row' = None
    /\ Row.dropboxRefreshToken row' = Some "R1"
    /\ Row.dropboxTokenExpiresAt row' = Sample.past
    /\ Row.brandLogo row' = Row.brandLogo Sample.stale_row
    /\ Row.brandColors row' = "{}".
Proof.
  apply (upsert_merges_existing (H0 := sample_objects) sample_parse_stringify
           sample_stringify_nonempty Samples.disconnect
           (Sample.world Sample.stale_row) Sample.stale_row
           SampleJson.BrandPalette); reflexivity.
Defined.

Lemma refresh_of_missing_record_is_lost_witness :
  exists account' w',
    DropboxService.ensureValidToken Sample.net_ok Sample.svc
      (Some Sample.stale_account) Samples.empty_world
    = (Returned account', w')
    /\ Account.dropboxAccessToken account' = Some "A2"
    /\ accounts w' = []
    /\ posts w' = [refresh_request Sample.svc Sample.stale_account].
Proof.
  apply (refresh_of_missing_record_is_lost Sample.net_ok Sample.svc
           Sample.stale_account Samples.empty_world (Sample.data "A2" None)
           3600).
  - reflexivity.
  - reflexivity.
  - right. right. exact sample_stale_expires.
  - reflexivity.
  - reflexivity.
  - reflexivity.
  - reflexivity.
  - split; now vm_compute.
Defined.

Lemma delete_removes_account_witness :
  exists w',
    Accounts.delete Sample.stale_account (Sample.world Sample.stale_row)
    = (Returned true, w')
    /\ stored "default_account" w' = None
    /\ Account.find w' = (Returned None, w').
Proof.
  destruct (delete_removes_account Sample.stale_account
              (Sample.world Sample.stale_row))
    as (w' & Hrun & Hgone & _ & Hfind).
  exists w'. split; [exact Hrun|]. split; [exact Hgone|].
  apply Hfind; [apply sample_world_default_only | reflexivity].
Defined.

Lemma returned_account_is_stored_witness :
  exists account' w',
    DropboxService.ensureValidToken Sample.net_rotating Sample.svc
      (Some Sample.stale_account) (Sample.world Sample.stale_row)
    = (Returned account', w')
    /\ Account.find w' = (Returned (Some account'), w').
Proof.
  destruct (DropboxService.ensureValidToken Sample.net_rotating Sample.svc
              (Some Sample.stale_account) (Sample.world Sample.stale_row))
    as [[account'|e] w'] eqn:Hrun.
  - exists account', w'. split; [reflexivity|].
    apply (returned_account_is_stored (H := sample_runtime) Sample.net_rotating Sample.svc
             sample_parse_stringify sample_stringify_nonempty
             Sample.stale_account account' (Sample.world Sample.stale_row) w').
    + apply sample_world_well_kept.
    + now vm_compute.
    + exact Hrun.
  - vm_compute in Hrun. discriminate.
Defined.

Lemma expired_stays_expired_witness :
  DropboxService.isTokenExpired Sample.future (Some 120)
    {| now := Sample.t0 + 60000; accounts := []; posts := [] |}
  = (Returned
       ((Sample.t0 + 60000 + 120 * 60 * 1000 <=? max_time)
        || negb (truthy Sample.future)),
     {| now := Sample.t0 + 60000; accounts := []; posts := [] |}).
Proof.
  apply (expired_stays_expired Sample.future (Some 60) (Some 120)
           Samples.empty_world).
  - now vm_compute.
  - now vm_compute.
  - now vm_compute.
Defined.

Lemma form_expired_is_expiring_soon_witness :
  CampaignBriefForm.isTokenExpiringSoon Sample.past None Samples.empty_world
  = (Returned true, Samples.empty_world).
Proof.
  apply (form_expired_is_expiring_soon Sample.past None Samples.empty_world).
  - now vm_compute.
  - now vm_compute.
  - now vm_compute.
  - now vm_compute.
Defined.

Lemma unreadable_expiry_never_expires_witness :
  (forall b,
      DropboxService.isTokenExpired (Some "next tuesday") b
        (Sample.world Sample.stale_row)
      = (Returned false, Sample.world Sample.stale_row))
  /\ DropboxService.ensureValidToken Sample.net_ok Sample.svc
       (Some Samples.unreadable_account) (Sample.world Sample.stale_row)
     = (Returned Samples.unreadable_account, Sample.world Sample.stale_row).
Proof.
  apply (unreadable_expiry_never_expires Sample.net_ok Sample.svc
           Samples.unreadable_account "next tuesday"
           (Sample.world Sample.stale_row)).
  - reflexivity.
  - reflexivity.
  - discriminate.
  - now vm_compute.
Defined.

Lemma refresh_then_fresh_witness :
  exists account' w',
    DropboxService.ensureValidToken Sample.net_ok Sample.svc
      (Some Sample.stale_account) (Sample.world Sample.stale_row)
    = (Returned account', w')
    /\ DropboxService.ensureValidToken Sample.net_ok Sample.svc
         (Some account') w'
       = (Returned account', w').
Proof.
  apply (refresh_then_fresh Sample.net_ok Sample.svc Sample.stale_account
           (Sample.world Sample.stale_row) (Sample.data "A2" None) 3600).
  - reflexivity.
  - right. right. exact sample_stale_expires.
  - reflexivity.
  - reflexivity.
  - reflexivity.
  - discriminate.
  - reflexivity.
  - now vm_compute.
  - split; [split|]; now vm_compute.
  - now vm_compute.
Defined.

Lemma handed_token_is_stored_token_witness :
  Server.getValidDropboxToken Sample.net_ok Sample.svc (Some "T9")
    Samples.empty_world
  = (Returned (Some "T9"), Samples.empty_world)
  /\ exists handed w' account',
       Server.getValidDropboxToken Sample.net_ok Sample.svc None
         (Sample.world Sample.stale_row)
       = (Returned handed, w')
       /\ Account.find w' = (Returned (Some account'), w')
       /\ Account.dropboxAccessToken account' = handed
       /\ (length (posts w') <= 0 + 1)%nat.
Proof.
  destruct (handed_token_is_stored_token (H := sample_runtime) Sample.net_ok Sample.svc
              sample_parse_stringify sample_stringify_nonempty)
    as [Hgiven Hloaded].
  split; [now apply Hgiven|].
  destruct (Server.getValidDropboxToken Sample.net_ok Sample.svc None
              (Sample.world Sample.stale_row)) as [[handed|e] w'] eqn:Hrun.
  - destruct (Hloaded None handed (Sample.world Sample.stale_row) w' eq_refl
                (sample_world_well_kept _ _ _) Hrun)
      as [(account' & Hfind & Htoken) Hposts].
    exists handed, w', account'. repeat split; assumption.
  - vm_compute in Hrun. discriminate.
Defined.

Lemma helper_errors_witness :
  exists e w',
    Server.getValidDropboxToken Sample.net_ok Sample.svc None
      (Sample.world Sample.orphan_row)
    = (Thrown e, w')
    /\ accounts w' = [Sample.orphan_row]
    /\ (e = Error
          "No Dropbox access token found. Please authenticate with Dropbox first."
        \/ e = Error
             "Access token expired and no refresh token available. Please re-authenticate."
        \/ (exists m, e = Error ("Token refresh failed: " ++ m))
        \/ Account.find (Sample.world Sample.orphan_row)
           = (Thrown e, Sample.world Sample.orphan_row)).
Proof.
  destruct (Server.getValidDropboxToken Sample.net_ok Sample.svc None
              (Sample.world Sample.orphan_row)) as [[handed|e] w'] eqn:Hrun.
  - vm_compute in Hrun. discriminate.
  - exists e, w'. split; [reflexivity|].
    apply (helper_errors Sample.net_ok Sample.svc None
             (Sample.world Sample.orphan_row) w' e Hrun).
Defined.


Lemma refresh_route_reports_success_without_refresh_witness :
  Server.post_api_dropbox_refresh Sample.net_ok Sample.svc
    (Sample.world Sample.fresh_row)
  = (Returned (Server.Json {|
       Server.success := true;
       Server.access_token := Some "A1";
       Server.refresh_token := Some "R1";
       Server.expires_at := Sample.future;
       Server.message := "Token refreshed successfully" |}),
     Sample.world Sample.fresh_row).
Proof.
  apply (refresh_route_reports_success_without_refresh Sample.net_ok Sample.svc
           (Sample.world Sample.fresh_row) Sample.fresh_account).
  - now vm_compute.
  - reflexivity.
  - reflexivity.
  - exists "2025-01-01T01:00:00.000Z", Sample.t_future.
    split; [reflexivity|]. split; now vm_compute.
  - now vm_compute.
Defined.

Lemma refresh_route_failures_witness :
  exists code error details w',
    Server.post_api_dropbox_refresh (Sample.net_failing Sample.timeout)
      Sample.svc (Sample.world Sample.stale_row)
    = (Returned (Server.Failure code error details), w')
    /\ accounts w' = [Sample.stale_row]
    /\ code = 500
    /\ exists m, details = Some ("Token refresh failed: " ++ m).
Proof.
  destruct (Server.post_api_dropbox_refresh (Sample.net_failing Sample.timeout)
              Sample.svc (Sample.world Sample.stale_row))
    as [[[reply|code error details]|e] w'] eqn:Hrun;
    try (vm_compute in Hrun; discriminate).
  exists code, error, details, w'. split; [reflexivity|].
  destruct (refresh_route_failures (Sample.net_failing Sample.timeout)
              Sample.svc (Sample.world Sample.stale_row) w' code error details
              Hrun)
    as [Hacc [(H400 & _) | (H500 & _ & [Hdetails | [e Hfind]])]].
  - vm_compute in Hrun. injection Hrun as <- _ _ _. discriminate.
  - repeat split; assumption.
  - vm_compute in Hfind. discriminate.
Defined.

Lemma refresh_route_answers_stored_tokens_witness :
  exists reply w' account',
    Server.post_api_dropbox_refresh Sample.net_rotating Sample.svc
      (Sample.world Sample.stale_row)
    = (Returned (Server.Json reply), w')
    /\ Server.success reply = true
    /\ Account.find w' = (Returned (Some account'), w')
    /\ Server.access_token reply = Account.dropboxAccessToken account'
    /\ Server.refresh_token reply = Account.dropboxRefreshToken account'.
Proof.
  destruct (Server.post_api_dropbox_refresh Sample.net_rotating Sample.svc
              (Sample.world Sample.stale_row))
    as [[[reply|code error details]|e] w'] eqn:Hrun;
    try (vm_compute in Hrun; discriminate).
  destruct (refresh_route_answers_stored_tokens (H := sample_runtime) Sample.net_rotating Sample.svc
              sample_parse_stringify sample_stringify_nonempty
              (Sample.world Sample.stale_row) w' reply
              (sample_world_well_kept _ _ _) Hrun)
    as (Hsuccess & (account' & Hfind & Haccess & Hrefresh & _) & _).
  exists reply, w', account'. repeat split; assumption.
Defined.

Lemma cached_token_sticks_witness :
  Browser.getValidToken Sample.net_ok Sample.svc
    (Samples.used_browser Samples.empty_world)
  = (Some "A1", Samples.used_browser Samples.empty_world).
Proof.
  apply (cached_token_sticks Sample.net_ok Sample.svc
           (Samples.new_browser (Sample.world Sample.fresh_row))
           (Browser.setItem Browser.key "A1"
              (Samples.new_browser (Sample.world Sample.fresh_row)))).
  - now vm_compute.
  - now vm_compute.
Defined.


Lemma browser_refresh_updates_cache_witness :
  exists info b' account',
    Browser.refreshToken Sample.net_ok Sample.svc
      (Samples.new_browser (Sample.world Sample.stale_row))
    = (Some info, b')
    /\ Browser.localStorage b' !! Browser.key
       = Some (Browser.to_text (Browser.access_token info))
    /\ Account.find (Browser.server b')
       = (Returned (Some account'), Browser.server b')
    /\ Browser.access_token info = Account.dropboxAccessToken account'.
Proof.
  destruct (Browser.refreshToken Sample.net_ok Sample.svc
              (Samples.new_browser (Sample.world Sample.stale_row)))
    as [[info|] b'] eqn:Hrun.
  - pose proof (browser_refresh_updates_cache (H := sample_runtime) Sample.net_ok Sample.svc
                  sample_parse_stringify sample_stringify_nonempty
                  (Samples.new_browser (Sample.world Sample.stale_row)) b'
                  (Some info) (sample_world_well_kept _ _ _) Hrun)
      as (Hcache & account' & Hfind & Htoken).
    exists info, b', account'. repeat split; assumption.
  - vm_compute in Hrun. discriminate.
Defined.

Lemma create_outcomes_witness :
  let row := LocalizedMessage.new_row Samples.french Samples.store in
  let st' := LocalizedMessage.with_messages Samples.store
               (LocalizedMessage.messages Samples.store ++ [row]) in
  LocalizedMessage.create Samples.french Samples.store
  = (Returned (Some row), st')
  /\ LocalizedMessage.findById (LocalizedMessage.id row) st'
     = (Returned (Some row), st')
  /\ LocalizedMessage.additionalInstructions row = None.
Proof.
  intros row st'.
  destruct (proj1 (create_outcomes Samples.french Samples.store)
              eq_refl eq_refl) as (Hcreate & Hfind & _).
  split; [exact Hcreate|]. split; [exact Hfind | reflexivity].
Defined.

Lemma update_without_effect_witness :
  LocalizedMessage.update "msg_9" Samples.reworded Samples.store
  = (Thrown (Error ("Failed to update localized message: "
                      ++ "Localized message not found")), Samples.store).
Proof.
  apply (proj2 (update_without_effect "msg_9" Samples.reworded Samples.store)).
  - left. discriminate.
  - reflexivity.
Defined.

Lemma update_changes_only_given_witness :
  exists row' st',
    LocalizedMessage.update "msg_1" Samples.reworded Samples.store
    = (Returned (Some row'), st')
    /\ LocalizedMessage.findById "msg_1" st' = (Returned (Some row'), st')
    /\ LocalizedMessage.translatedMessage row' = "Den ganzen Tag frisch"
    /\ LocalizedMessage.additionalInstructions row' = None
    /\ LocalizedMessage.updatedAt row' = "2025-01-01T00:00:00.000Z"
    /\ LocalizedMessage.createdAt row' = "2024-12-01T09:30:00.000Z".
Proof.
  destruct (update_changes_only_given "msg_1" Samples.reworded Samples.store
              (Samples.message "msg_1" "campaign_1" "de") eq_refl)
    as (row' & st' & Hrun & Hfind & Htext & Hinstr & Hupdated & Hsame & _).
  - discriminate.
  - left. discriminate.
  - exists row', st'. split; [exact Hrun|]. split; [exact Hfind|].
    split; [exact Htext|]. split; [exact Hinstr|].
    split; [rewrite Hupdated; now vm_compute|].
    now injection Hsame.
Defined.

Lemma delete_outcomes_witness :
  exists st',
    LocalizedMessage.delete "msg_1" Samples.store = (Returned true, st')
    /\ fst (LocalizedMessage.findById "msg_1" st') = Returned None
    /\ fst (LocalizedMessage.findById "msg_2" st')
       = fst (LocalizedMessage.findById "msg_2" Samples.store).
Proof.
  destruct (proj2 (delete_outcomes "msg_1" Samples.store) eq_refl)
    as (st' & Hrun & Hgone & Hothers).
  exists st'. split; [exact Hrun|]. split; [exact Hgone|].
  apply Hothers. discriminate.
Defined.

End SampleFacts.
